(** * The photo renamer [rename_photos_exif.py]: a shallow embedding

    The script walks one category directory, resolves a timestamp for every
    image file (EXIF tags first, file modification time next, the clock
    last), sorts the files by that timestamp and renames each of them to
    [YYYY-MM-DD-NNN.ext] with one running counter.

    The embedding keeps the shape of the Python code:

    - Python [str] values are lists of characters ([text]); only the ASCII
      letters take part in [str.lower], which is all the extension test and
      the extension itself can observe;
    - Python exceptions are the [Raise] branch of [result], [try]/[except]
      is a [match] on it;
    - the file system is an association list from paths to regular files,
      read in the order of the list by [os.listdir], and [os.rename] is a
      function on it; the order in which a directory is listed is
      arbitrary, so what is stated of a second listing is stated for every
      rearrangement of the list;
    - what the functions print, on either stream, is a list of lines; the
      lines of the two date readers are given by functions of their own
      beside the values they return;
    - [datetime.strptime], the platform flavour of [os.rename] and the
      clock are parameters of the development;
    - [get_photos] of [generate_photo_pages.py], which reads the names the
      script leaves, is embedded beside it. *)

From Stdlib Require Import List Ascii NArith ZArith Lia Bool.
From Stdlib Require String.
Import String.StringSyntax.
Delimit Scope string_scope with string.
Bind Scope string_scope with String.string.
From Stdlib Require Import Sorting.Sorted Sorting.Permutation.
Import ListNotations.

Open Scope N_scope.
Open Scope list_scope.

(** ** Text *)

Definition text := list ascii.

(** A literal. *)
Definition txt (s : String.string) : text := String.list_ascii_of_string s.

Module Text.

Fixpoint eqb (a b : text) : bool :=
  match a, b with
  | [], [] => true
  | x :: a', y :: b' => Ascii.eqb x y && eqb a' b'
  | _, _ => false
  end.

(** [c.lower()] on one character: [A]..[Z] move to [a]..[z]. *)
Definition lower_char (c : ascii) : ascii :=
  let n := N_of_ascii c in
  if (65 <=? n) && (n <=? 90) then ascii_of_N (n + 32) else c.

(** [s.lower()] *)
Definition lower (s : text) : text := map lower_char s.

(** [s.startswith(prefix)] *)
Fixpoint startswith (s prefix : text) : bool :=
  match prefix, s with
  | [], _ => true
  | p :: prefix', c :: s' => Ascii.eqb c p && startswith s' prefix'
  | _ :: _, [] => false
  end.

(** [s.endswith(suffix)] *)
Definition endswith (s suffix : text) : bool :=
  startswith (rev s) (rev suffix).

(** [s.endswith((a, b, ...))]: a tuple of suffixes. *)
Definition endswith_any (s : text) (suffixes : list text) : bool :=
  existsb (endswith s) suffixes.

(** The scan behind [s.rfind(c)]: the last index holding [c], or [last]
    when there is none from here on. *)
Fixpoint rfind_from (c : ascii) (s : text) (i last : Z) : Z :=
  match s with
  | [] => last
  | x :: s' =>
      rfind_from c s' (i + 1)%Z (if Ascii.eqb x c then i else last)
  end.

(** [s.rfind(c)], [-1] when [c] does not occur. *)
Definition rfind (c : ascii) (s : text) : Z := rfind_from c s 0%Z (-1)%Z.

(** [s[i:j]], for [0 <= i]. *)
Definition slice (s : text) (i j : Z) : text :=
  firstn (Z.to_nat (j - i)) (skipn (Z.to_nat i) s).

(** [s[:j]] and [s[i:]] *)
Definition upto (s : text) (j : Z) : text := firstn (Z.to_nat j) s.
Definition from (s : text) (i : Z) : text := skipn (Z.to_nat i) s.

(** Comparison of two sequences of code points, as Python compares
    strings (and tuples): the first difference decides, a proper prefix
    is smaller. *)
Fixpoint lex (a b : list N) : comparison :=
  match a, b with
  | [], [] => Eq
  | [], _ :: _ => Lt
  | _ :: _, [] => Gt
  | x :: a', y :: b' =>
      match x ?= y with
      | Eq => lex a' b'
      | c => c
      end
  end.

Definition codes (s : text) : list N := map N_of_ascii s.

Definition compare (a b : text) : comparison := lex (codes a) (codes b).

(** [a < b] on strings. *)
Definition ltb (a b : text) : bool :=
  match compare a b with Lt => true | _ => false end.

Definition lt (a b : text) : Prop := compare a b = Lt.

End Text.

(** ** Number formatting *)

Module Fmt.

Definition digit_char (d : N) : ascii := ascii_of_N (48 + d).

Fixpoint digits_fuel (fuel : nat) (n : N) : text :=
  match fuel with
  | O => []
  | S k =>
      if n <? 10 then [digit_char n]
      else digits_fuel k (n / 10) ++ [digit_char (n mod 10)]
  end.

(** [str(n)] for a natural number: its decimal digits. *)
Definition decimal (n : N) : text :=
  digits_fuel (S (N.to_nat (N.log2 n))) n.

(** [f"{n:0wd}"]: the decimal digits, filled with zeros on the left up
    to [w] characters, and longer than [w] when [n] needs more. *)
Definition zero_pad (w : nat) (n : N) : text :=
  let s := decimal n in
  repeat "0"%char (w - length s) ++ s.

(** Exactly [w] digits of [n], least significant last. *)
Fixpoint fixed (w : nat) (n : N) : text :=
  match w with
  | O => []
  | S w' => fixed w' (n / 10) ++ [digit_char (n mod 10)]
  end.

Definition is_digit (c : ascii) : bool :=
  let n := N_of_ascii c in (48 <=? n) && (n <=? 57).

(** The number a string of digits denotes. *)
Definition value (s : text) : N :=
  fold_left (fun acc c => 10 * acc + (N_of_ascii c - 48)) s 0.

End Fmt.

(** ** Paths ([posixpath])

    The functions of [os.path] the script calls, with the POSIX separator.
    ([ntpath] differs by its separators only, which no result below
    depends on.) *)

Module Path.

Definition sep : ascii := "/"%char.
Definition extsep : ascii := "."%char.

(** [os.path.join(a, b)] *)
Definition join (a b : text) : text :=
  if Text.startswith b [sep] then b
  else if Text.eqb a [] || Text.endswith a [sep] then a ++ b
  else a ++ sep :: b.

(** [os.path.basename(p)]: [p[p.rfind('/') + 1:]] *)
Definition basename (p : text) : text :=
  Text.from p (Text.rfind sep p + 1).

(** [os.path.splitext(p)] ([genericpath._splitext]): the extension starts
    at the last dot of the last component, unless only dots precede it
    there. The [while] loop that skips the leading dots is the [existsb]
    over the characters between the separator and the last dot. *)
Definition splitext (p : text) : text * text :=
  let sepIndex := Text.rfind sep p in
  let dotIndex := Text.rfind extsep p in
  if (sepIndex <? dotIndex)%Z
     && existsb (fun c => negb (Ascii.eqb c extsep))
                (Text.slice p (sepIndex + 1) dotIndex)
  then (Text.upto p dotIndex, Text.from p dotIndex)
  else (p, []).

End Path.

(** ** [datetime] *)

Record datetime := {
  year : N; month : N; day : N;
  hour : N; minute : N; second : N; microsecond : N
}.

Module Datetime.

Definition fields (d : datetime) : list N :=
  [year d; month d; day d; hour d; minute d; second d; microsecond d].

(** Naive datetimes compare field by field, most significant first. *)
Definition compare (a b : datetime) : comparison :=
  Text.lex (fields a) (fields b).

Definition leb (a b : datetime) : bool :=
  match compare a b with Gt => false | _ => true end.

Definition ltb (a b : datetime) : bool :=
  match compare a b with Lt => true | _ => false end.

Definition eqb (a b : datetime) : bool :=
  match compare a b with Eq => true | _ => false end.

(** The calendar day of a datetime: [d.date()]. *)
Definition date (d : datetime) : list N := [year d; month d; day d].

(** The ranges Python's [datetime] type enforces on its fields
    ([MINYEAR = 1], [MAXYEAR = 9999]). *)
Definition valid (d : datetime) : bool :=
  (1 <=? year d) && (year d <=? 9999)
  && (1 <=? month d) && (month d <=? 12)
  && (1 <=? day d) && (day d <=? 31)
  && (hour d <=? 23) && (minute d <=? 59) && (second d <=? 59)
  && (microsecond d <=? 999999).

(** A valid datetime whose year has its four digits, so that [%Y] prints
    it in the same way on every platform. *)
Definition printable (d : datetime) : bool :=
  valid d && (1000 <=? year d).

(** [d.strftime("%Y-%m-%d")]; years are zero-filled to four digits, as
    documented. *)
Definition strftime_date (d : datetime) : text :=
  Fmt.zero_pad 4 (year d) ++ txt "-" ++ Fmt.zero_pad 2 (month d)
  ++ txt "-" ++ Fmt.zero_pad 2 (day d).

(** [d.strftime("%Y-%m-%d %H:%M")] *)
Definition strftime_minute (d : datetime) : text :=
  strftime_date d ++ txt " " ++ Fmt.zero_pad 2 (hour d)
  ++ txt ":" ++ Fmt.zero_pad 2 (minute d).

End Datetime.

(** ** Exceptions *)

Inductive exn :=
| ValueError
| TypeError
| OSError
| FileNotFoundError
| FileExistsError.

Inductive result (A : Type) : Type :=
| Ok (a : A)
| Raise (e : exn).
Arguments Ok {A} a.
Arguments Raise {A} e.

Definition bind {A B} (m : result A) (k : A -> result B) : result B :=
  match m with
  | Ok a => k a
  | Raise e => Raise e
  end.

(** [try: body  except Exception as e: handler(e)] *)
Definition try_except {A} (body : result A) (handler : exn -> result A)
  : result A :=
  match body with
  | Ok a => Ok a
  | Raise e => handler e
  end.

Declare Scope result_scope.
Delimit Scope result_scope with result.
Notation "x <- m ;; k" := (bind m (fun x => k))
  (at level 61, m at next level, right associativity) : result_scope.
Open Scope result_scope.

(** ** Files and the file system *)

(** The value stored under an EXIF tag: the date tags hold a [str] in a
    well-formed file, anything else makes [strptime] raise [TypeError]. *)
Inductive exif_value :=
| ExifStr (s : text)
| ExifOther.

(** What [Image.open(path)._getexif()] does on a file. *)
Inductive exif_read :=
| ExifFails (e : exn)                       (* opening or reading raises *)
| ExifNone                                  (* no EXIF block: [None] *)
| ExifDict (tags : list (N * exif_value)).  (* tag id -> value *)

(** A regular file, as far as the script can tell files apart. *)
Record file := {
  f_exif : exif_read;
  f_mtime : option datetime;   (* [None]: [os.path.getmtime] raises *)
  f_data : N                   (* the contents, by identity *)
}.

(** Path -> file, in the order in which [os.listdir] reports the entries
    of this list. The entries are regular files; the directories are
    those on the way to them. *)
Definition filesystem := list (text * file).

Inductive platform := Posix | Windows.

Module FS.

Fixpoint lookup (p : text) (fs : filesystem) : option file :=
  match fs with
  | [] => None
  | (q, f) :: fs' => if Text.eqb q p then Some f else lookup p fs'
  end.

Definition exists_ (p : text) (fs : filesystem) : bool :=
  match lookup p fs with Some _ => true | None => false end.

Definition paths (fs : filesystem) : list text := map fst fs.

(** Drop the entry at [p]. *)
Definition remove (p : text) (fs : filesystem) : filesystem :=
  filter (fun e => negb (Text.eqb (fst e) p)) fs.

(** Give the entry at [src] the path [dst]. The entry keeps its place in
    the list; the order in which a later [os.listdir] reports the entries
    is arbitrary, and nothing stated of a later listing relies on this
    place. *)
Definition rekey (src dst : text) (fs : filesystem) : filesystem :=
  map (fun e => if Text.eqb (fst e) src then (dst, snd e) else e) fs.

(** [os.listdir(d)]: the names of the entries directly inside [d]. The
    entries are the regular files: a sub-directory of [d], which
    [os.listdir] names as well, is not an entry here. The script does not
    tell the two apart, so what is stated of the files a run leaves alone
    is stated for directories whose image-named entries are files. *)
Definition listdir (d : text) (fs : filesystem) : list text :=
  flat_map (fun e =>
              let name := Path.basename (fst e) in
              if negb (Text.eqb name [])
                 && Text.eqb (Path.join d name) (fst e)
              then [name] else []) fs.

(** [os.path.getmtime(p)] followed by [datetime.fromtimestamp]. *)
Definition getmtime (fs : filesystem) (p : text) : result datetime :=
  match lookup p fs with
  | None => Raise FileNotFoundError
  | Some f =>
      match f_mtime f with
      | Some t => Ok t
      | None => Raise OSError
      end
  end.

(** [Image.open(p)._getexif()] *)
Definition getexif (fs : filesystem) (p : text)
  : result (option (list (N * exif_value))) :=
  match lookup p fs with
  | None => Raise FileNotFoundError
  | Some f =>
      match f_exif f with
      | ExifFails e => Raise e
      | ExifNone => Ok None
      | ExifDict tags => Ok (Some tags)
      end
  end.

(** [os.rename(src, dst)] between regular files. Renaming a file to
    itself does nothing. When [dst] is another existing file, POSIX
    replaces it silently and Windows raises [FileExistsError]. *)
Definition rename (os : platform) (fs : filesystem) (src dst : text)
  : result filesystem :=
  match lookup src fs with
  | None => Raise FileNotFoundError
  | Some _ =>
      if Text.eqb src dst then Ok fs
      else if exists_ dst fs then
        match os with
        | Posix => Ok (rekey src dst (remove dst fs))
        | Windows => Raise FileExistsError
        end
      else Ok (rekey src dst fs)
  end.

End FS.

(** [tag_id in exif] and [exif[tag_id]] *)
Fixpoint dict_get (tag_id : N) (exif : list (N * exif_value))
  : option exif_value :=
  match exif with
  | [] => None
  | (k, v) :: exif' => if k =? tag_id then Some v else dict_get tag_id exif'
  end.

(** ** What the script prints and asks of the operating system *)

Inductive event :=
| Processing (category : text)                          (* stdout *)
| ExifReadError (image_path : text) (e : exn)           (* stderr *)
| FileDateError (e : exn)                               (* stderr *)
| Renamed (old_name capture_date new_filename : text)   (* stdout *)
| RenameError (old_path : text) (e : exn)               (* stderr *)
| BlankLine.                                            (* stdout *)

Record state := {
  st_fs : filesystem;
  st_out : list event;              (* lines printed on either stream,
                                       oldest first *)
  st_assigned : list (text * text)  (* (old path, new filename) per turn *)
}.

(** ** The script *)

Section Renamer.

(** [datetime.strptime(s, "%Y:%m:%d %H:%M:%S")]; [None] stands for
    [ValueError]. *)
Variable strptime : text -> option datetime.
Variable os : platform.
(** The reading of [datetime.now()]. *)
Variable now : datetime.

Definition strptime_call (v : exif_value) : result datetime :=
  match v with
  | ExifStr s =>
      match strptime s with
      | Some dt => Ok dt
      | None => Raise ValueError
      end
  | ExifOther => Raise TypeError
  end.

(** DateTimeOriginal, DateTime, DateTimeDigitized. *)
Definition date_tags : list N := [36867; 306; 36868].

(** The [for tag_id in [...]] loop of [get_exif_date]. *)
Fixpoint scan_tags (exif : list (N * exif_value)) (tags : list N)
  : result (option datetime) :=
  match tags with
  | [] => Ok None
  | tag_id :: rest =>
      match dict_get tag_id exif with
      | Some date_str =>
          match strptime_call date_str with
          | Ok dt => Ok (Some dt)
          | Raise ValueError => scan_tags exif rest   (* [continue] *)
          | Raise e => Raise e
          end
      | None => scan_tags exif rest
      end
  end.

(** The body of the [try] of [get_exif_date]. *)
Definition exif_date_body (fs : filesystem) (image_path : text)
  : result (option datetime) :=
  exif <- FS.getexif fs image_path ;;
  match exif with
  | None => Ok None
  | Some tags => scan_tags tags date_tags
  end.

(** [get_exif_date(image_path)], the value returned: the handler catches
    every exception and returns [None]. The line it prints first is
    [get_exif_date_stderr]. *)
Definition get_exif_date (fs : filesystem) (image_path : text)
  : result (option datetime) :=
  try_except (exif_date_body fs image_path) (fun _ => Ok None).

(** [get_file_date(image_path)], the value returned: the handler catches
    every exception and returns [datetime.now()]. The line it prints
    first is [get_file_date_stderr]. *)
Definition get_file_date (fs : filesystem) (image_path : text)
  : result datetime :=
  try_except (FS.getmtime fs image_path) (fun _ => Ok now).

Definition get_photo_date (fs : filesystem) (image_path : text)
  : result datetime :=
  exif_date <- get_exif_date fs image_path ;;
  match exif_date with
  | Some d => Ok d
  | None => get_file_date fs image_path
  end.

(** What the handler of [get_exif_date] prints. *)
Definition get_exif_date_stderr (fs : filesystem) (image_path : text)
  : list event :=
  match exif_date_body fs image_path with
  | Ok _ => []
  | Raise e => [ExifReadError image_path e]
  end.

(** What the handler of [get_file_date] prints. *)
Definition get_file_date_stderr (fs : filesystem) (image_path : text)
  : list event :=
  match FS.getmtime fs image_path with
  | Ok _ => []
  | Raise e => [FileDateError e]
  end.

(** What a call of [get_photo_date] prints: the line of the EXIF reader,
    then that of the file date reader when it is called. *)
Definition get_photo_date_stderr (fs : filesystem) (image_path : text)
  : list event :=
  get_exif_date_stderr fs image_path
  ++ match get_exif_date fs image_path with
     | Ok (Some _) => []
     | Ok None => get_file_date_stderr fs image_path
     | Raise _ => []
     end.

Definition image_suffixes : list text :=
  [txt ".jpg"; txt ".jpeg"; txt ".png"].

(** [filename.lower().endswith(('.jpg', '.jpeg', '.png'))] *)
Definition is_image (filename : text) : bool :=
  Text.endswith_any (Text.lower filename) image_suffixes.

Definition image_files (category_dir : text) (fs : filesystem)
  : list text :=
  map (Path.join category_dir)
      (filter is_image (FS.listdir category_dir fs)).

(** The loop that pairs every path with its date. *)
Fixpoint with_dates (fs : filesystem) (paths : list text)
  : result (list (datetime * text)) :=
  match paths with
  | [] => Ok []
  | img_path :: rest =>
      photo_date <- get_photo_date fs img_path ;;
      more <- with_dates fs rest ;;
      Ok ((photo_date, img_path) :: more)
  end.

(** What that loop prints, through [get_photo_date]. *)
Definition with_dates_stderr (fs : filesystem) (paths : list text)
  : list event :=
  flat_map (get_photo_date_stderr fs) paths.

(** [list.sort(key=lambda x: x[0])], as a stable insertion sort: an item
    goes in front of the first one whose date is not smaller. *)
Fixpoint insert_by_date (x : datetime * text) (l : list (datetime * text))
  : list (datetime * text) :=
  match l with
  | [] => [x]
  | y :: l' =>
      if Datetime.leb (fst x) (fst y) then x :: y :: l'
      else y :: insert_by_date x l'
  end.

Definition sort_by_date (l : list (datetime * text))
  : list (datetime * text) :=
  fold_right insert_by_date [] l.

(** The extension of the new name. *)
Definition new_ext (old_path : text) : text :=
  let ext := Text.lower (snd (Path.splitext old_path)) in
  if Text.eqb ext [] then txt ".jpg" else ext.

(** [f"{date_str}-{counter:03d}{ext}"] *)
Definition new_filename (photo_date : datetime) (counter : N)
           (old_path : text) : text :=
  Datetime.strftime_date photo_date ++ txt "-"
  ++ Fmt.zero_pad 3 counter ++ new_ext old_path.

(** One turn of the renaming loop, up to [counter += 1]. *)
Definition rename_step (category_dir : text) (st : state) (counter : N)
           (item : datetime * text) : state :=
  let '(photo_date, old_path) := item in
  let name := new_filename photo_date counter old_path in
  let new_path := Path.join category_dir name in
  let assigned := st_assigned st ++ [(old_path, name)] in
  match FS.rename os (st_fs st) old_path new_path with
  | Ok fs' =>
      {| st_fs := fs';
         st_out := st_out st
                   ++ [Renamed (Path.basename old_path)
                               (Datetime.strftime_minute photo_date) name];
         st_assigned := assigned |}
  | Raise e =>
      {| st_fs := st_fs st;
         st_out := st_out st ++ [RenameError old_path e];
         st_assigned := assigned |}
  end.

Fixpoint rename_loop (category_dir : text) (st : state) (counter : N)
         (items : list (datetime * text)) : state * N :=
  match items with
  | [] => (st, counter)
  | item :: rest =>
      rename_loop category_dir (rename_step category_dir st counter item)
                  (counter + 1) rest
  end.

(** The state in which the renaming loop starts: the header and the lines
    of the date readers are printed, nothing is renamed. *)
Definition start_state (category_dir : text) (fs : filesystem) : state :=
  {| st_fs := fs;
     st_out := Processing (Path.basename category_dir)
               :: with_dates_stderr fs (image_files category_dir fs);
     st_assigned := [] |}.

(** [process_category(category_dir)]: the value returned, and the file
    system, output and names it leaves behind. *)
Definition process_category (category_dir : text) (fs : filesystem)
  : result (N * state) :=
  image_files_with_dates <- with_dates fs (image_files category_dir fs) ;;
  let sorted := sort_by_date image_files_with_dates in
  let '(st, counter) :=
    rename_loop category_dir (start_state category_dir fs) 1 sorted in
  Ok (counter - 1,
      {| st_fs := st_fs st; st_out := st_out st ++ [BlankLine];
         st_assigned := st_assigned st |}).

(** *** Views used by the statements *)

(** The date [get_photo_date] resolves for a path. *)
Definition photo_date (fs : filesystem) (image_path : text) : datetime :=
  match get_photo_date fs image_path with
  | Ok d => d
  | Raise _ => now
  end.

(** The list the renaming loop walks. *)
Definition sorted_files (category_dir : text) (fs : filesystem)
  : list (datetime * text) :=
  sort_by_date (map (fun p => (photo_date fs p, p))
                    (image_files category_dir fs)).

(** The (old path, new filename) pairs the loop computes from [counter]
    on. *)
Fixpoint assigned (counter : N) (items : list (datetime * text))
  : list (text * text) :=
  match items with
  | [] => []
  | (photo_date, old_path) :: rest =>
      (old_path, new_filename photo_date counter old_path)
      :: assigned (counter + 1) rest
  end.

(** The state the renaming loop ends in. *)
Definition final_state (category_dir : text) (fs : filesystem) : state :=
  fst (rename_loop category_dir (start_state category_dir fs)
                   1 (sorted_files category_dir fs)).

(** *** The fallback chain *)

(** The date a tag contributes: the tag is there, holds a string, and the
    string parses. *)
Definition tag_date (f : file) (tag_id : N) : option datetime :=
  match f_exif f with
  | ExifDict tags =>
      match dict_get tag_id tags with
      | Some (ExifStr s) => strptime s
      | _ => None
      end
  | _ => None
  end.

(** First success wins, [last] when there is none. *)
Fixpoint first_success (l : list (option datetime)) (last : datetime)
  : datetime :=
  match l with
  | [] => last
  | Some d :: _ => d
  | None :: rest => first_success rest last
  end.

(** The chain as the specification words it: original capture time,
    modified time, the file's modification time, the clock. *)
Definition spec_chain (f : file) : datetime :=
  first_success [tag_date f 36867; tag_date f 306; f_mtime f] now.

(** The chain with the third tag the loop tries, DateTimeDigitized. *)
Definition tag_chain (f : file) : datetime :=
  first_success
    [tag_date f 36867; tag_date f 306; tag_date f 36868; f_mtime f] now.

(** No date tag of the file holds something other than a string. *)
Definition string_tags (f : file) : bool :=
  match f_exif f with
  | ExifDict tags =>
      forallb (fun tag_id =>
                 match dict_get tag_id tags with
                 | Some ExifOther => false
                 | _ => true
                 end) date_tags
  | _ => true
  end.

(** The file system after the loop, when no [os.rename] call collides:
    every old path carries its new one. *)
Definition renamed_path (category_dir : text) (plan : list (text * text))
           (p : text) : text :=
  match find (fun a => Text.eqb (fst a) p) plan with
  | Some (_, name) => Path.join category_dir name
  | None => p
  end.

End Renamer.

(** ** A parser for well-formed EXIF dates

    The instance of [strptime] used in the examples: it reads the canonical
    zero-filled form ["YYYY:MM:DD HH:MM:SS"] that cameras write, and
    refuses everything else. *)

Module Exif.

Definition two_digits (a b : ascii) : option N :=
  if Fmt.is_digit a && Fmt.is_digit b then Some (Fmt.value [a; b])
  else None.

Definition four_digits (a b c d : ascii) : option N :=
  if Fmt.is_digit a && Fmt.is_digit b && Fmt.is_digit c && Fmt.is_digit d
  then Some (Fmt.value [a; b; c; d]) else None.

Definition strptime (s : text) : option datetime :=
  match s with
  | [y1; y2; y3; y4; c1; m1; m2; c2; d1; d2; sp;
     h1; h2; c3; n1; n2; c4; s1; s2] =>
      if Ascii.eqb c1 ":" && Ascii.eqb c2 ":" && Ascii.eqb sp " "
         && Ascii.eqb c3 ":" && Ascii.eqb c4 ":"
      then
        match four_digits y1 y2 y3 y4, two_digits m1 m2, two_digits d1 d2,
              two_digits h1 h2, two_digits n1 n2, two_digits s1 s2 with
        | Some y, Some m, Some d, Some h, Some n, Some sec =>
            let dt := {| year := y; month := m; day := d; hour := h;
                         minute := n; second := sec; microsecond := 0 |} in
            if Datetime.valid dt then Some dt else None
        | _, _, _, _, _, _ => None
        end
      else None
  | _ => None
  end.

End Exif.

(** ** Example directories *)

Definition at_ (y m d h n s : N) : datetime :=
  {| year := y; month := m; day := d; hour := h; minute := n; second := s;
     microsecond := 0 |}.

(** A file without EXIF data, last modified at [t]. *)
Definition plain_file (t : datetime) (data : N) : file :=
  {| f_exif := ExifNone; f_mtime := Some t; f_data := data |}.

(** A file whose EXIF block holds [tags], last modified at [t]. *)
Definition exif_file (tags : list (N * exif_value)) (t : datetime) (data : N)
  : file :=
  {| f_exif := ExifDict tags; f_mtime := Some t; f_data := data |}.

Definition travel : text := txt "photos/travel".

Definition three_photos : filesystem :=
  [ (txt "photos/travel/c.jpg", plain_file (at_ 2024 1 2 8 0 0) 3);
    (txt "photos/travel/a.jpg", plain_file (at_ 2024 1 1 9 0 0) 1);
    (txt "photos/travel/notes.txt", plain_file (at_ 2024 1 1 7 0 0) 9);
    (txt "photos/travel/b.jpg", plain_file (at_ 2024 1 1 10 0 0) 2) ].

(** A scanned print: the only date tag is DateTimeDigitized, and the file
    was copied years later. *)
Definition scanned_print : file :=
  exif_file [(36868, ExifStr (txt "2019:03:02 10:00:00"))]
            (at_ 2023 5 1 10 0 0) 7.

(** Shot in 2022, copied in 2023. *)
Definition copied_photo : file :=
  exif_file [(36867, ExifStr (txt "2022:07:04 08:30:00"));
             (306, ExifStr (txt "2022:07:09 12:00:00"))]
            (at_ 2023 5 1 10 0 0) 8.

(** A file that cannot be opened as an image and whose modification time
    cannot be read. *)
Definition broken_file : file :=
  {| f_exif := ExifFails OSError; f_mtime := None; f_data := 0 |}.

Definition new_year : datetime := at_ 2025 1 1 0 0 0.

(** A directory left by an interrupted run: [2024-01-01-001.jpg] is
    already there (taken on January 5th), and [a.jpg], the earliest photo,
    is about to get that very name. *)
Definition collision_dir : filesystem :=
  [ (txt "photos/travel/a.jpg", plain_file (at_ 2024 1 1 9 0 0) 1);
    (txt "photos/travel/2024-01-01-001.jpg",
     plain_file (at_ 2024 1 5 12 0 0) 2) ].

(** The [Renamed] lines of an output. *)
Definition renamed_lines (out : list event) : list event :=
  filter (fun e => match e with Renamed _ _ _ => true | _ => false end) out.

(** The names the gallery generator expects:
    [^\d{4}-\d{2}-\d{2}-\d{3}\.(jpg|jpeg|png)$]. *)
Definition output_pattern (name : text) : bool :=
  match name with
  | y1 :: y2 :: y3 :: y4 :: h1 :: m1 :: m2 :: h2 :: d1 :: d2 :: h3
    :: c1 :: c2 :: c3 :: ext =>
      Fmt.is_digit y1 && Fmt.is_digit y2 && Fmt.is_digit y3
      && Fmt.is_digit y4 && Ascii.eqb h1 "-"
      && Fmt.is_digit m1 && Fmt.is_digit m2 && Ascii.eqb h2 "-"
      && Fmt.is_digit d1 && Fmt.is_digit d2 && Ascii.eqb h3 "-"
      && Fmt.is_digit c1 && Fmt.is_digit c2 && Fmt.is_digit c3
      && existsb (Text.eqb ext) image_suffixes
  | _ => false
  end.

(** [n] photos taken in one burst on 2024-01-01, a microsecond apart (as
    modification times are), listed in the order they were taken. *)
Definition burst (n : nat) : filesystem :=
  map (fun i =>
         (Path.join travel (txt "IMG_" ++ Fmt.zero_pad 4 (N.of_nat i)
                            ++ txt ".jpg"),
          plain_file {| year := 2024; month := 1; day := 1; hour := 12;
                        minute := 0; second := 0;
                        microsecond := N.of_nat i |} (N.of_nat i)))
      (seq 1 n).

(** The file system with every path [p] moved to [g p]. *)
Definition move_paths (g : text -> text) (fs : filesystem) : filesystem :=
  map (fun e => (g (fst e), snd e)) fs.

(** ** Notions used in the statements and their proofs *)

(** A directory prefix: nothing, or something that ends in the
    separator. *)
Definition dir_prefix (d : text) : Prop :=
  d = [] \/ exists d', d = d' ++ [Path.sep].

(** A character other than the dot. *)
Definition nondot (c : ascii) : bool := negb (Ascii.eqb c Path.extsep).

(** Dated items in ascending order of their dates. *)
Definition by_date (a b : datetime * text) : Prop :=
  Datetime.leb (fst a) (fst b) = true.

(** The part of a new name in front of its extension. *)
Definition stem (t : datetime) (counter : N) : text :=
  Datetime.strftime_date t ++ txt "-" ++ Fmt.zero_pad 3 counter.

(** Neither a dot nor a separator. *)
Definition plain_char (c : ascii) : Prop :=
  c <> Path.extsep /\ c <> Path.sep.

(** Items whose dates all print with four-digit years. *)
Definition printable_items (items : list (datetime * text)) : Prop :=
  Forall (fun x => Datetime.printable (fst x) = true) items.

(** The premises under which the loop, started at [c] on [items] in the
    file system [fs], meets no collision. *)
Record collision_free (cd : text) (items : list (datetime * text)) (c : N)
       (fs : filesystem) : Prop := {
  cf_paths : NoDup (FS.paths fs);
  cf_items : NoDup (map snd items);
  cf_dates : printable_items items;
  cf_there : forall p, In p (map snd items) -> In p (FS.paths fs);
  cf_fresh : forall old name,
               In (old, name) (assigned c items) ->
               Path.join cd name = old
               \/ ~ In (Path.join cd name) (FS.paths fs)
}.
Arguments cf_paths {cd items c fs}.
Arguments cf_items {cd items c fs}.
Arguments cf_dates {cd items c fs}.
Arguments cf_there {cd items c fs}.
Arguments cf_fresh {cd items c fs}.

(** The test a path passes to be an image file of the directory [d]. *)
Definition is_image_path (d x : text) : bool :=
  negb (Text.eqb (Path.basename x) [])
  && Text.eqb (Path.join d (Path.basename x)) x
  && is_image (Path.basename x).

(** Two photos taken in the same second. *)
Definition same_second : filesystem :=
  [ (txt "photos/travel/x.jpg", plain_file (at_ 2024 1 1 9 0 0) 1);
    (txt "photos/travel/y.jpg", plain_file (at_ 2024 1 1 9 0 0) 2) ].

(** Two listings hold the files of every one date in the same order. *)
Definition same_order_within_dates (date_of : text -> datetime)
           (l l' : list text) : Prop :=
  forall t,
    filter (fun p => Datetime.eqb (date_of p) t) l
    = filter (fun p => Datetime.eqb (date_of p) t) l'.

(** ** Notions used in the further properties *)

(** The directories on the way to a path: what stands before each of its
    separators. *)
Fixpoint ancestors_from (seen rest : text) : list text :=
  match rest with
  | [] => []
  | c :: rest' =>
      (if Ascii.eqb c Path.sep then [seen] else [])
      ++ ancestors_from (seen ++ [c]) rest'
  end.

Definition ancestors (p : text) : list text := ancestors_from [] p.

(** The directories of a file system: those on the way to its files. *)
Definition directories (fs : filesystem) : list text :=
  flat_map ancestors (FS.paths fs).

(** No entry of [cd] named like an image is one of the directories
    [dirs]. *)
Definition image_entries_are_files (cd : text) (dirs : list text) : bool :=
  forallb (fun d => negb (is_image_path cd d)) dirs.

(** The line a turn of the loop prints for a file and its new name. *)
Definition line_of (line : event) (a : text * text) : Prop :=
  (exists capture, line = Renamed (Path.basename (fst a)) capture (snd a))
  \/ (exists e, line = RenameError (fst a) e).

(** The line of a successful turn. *)
Definition renamed_line (item : datetime * text) (a : text * text) : event :=
  Renamed (Path.basename (fst a)) (Datetime.strftime_minute (fst item))
          (snd a).

(** What is left of a file system after a sequence of renames: no new
    file, no more files and, under Windows, the same files, each as often
    as before. *)
Definition kept (os : platform) (fs' fs : filesystem) : Prop :=
  (forall f, In f (map snd fs') -> In f (map snd fs))
  /\ (length fs' <= length fs)%nat
  /\ (os = Windows -> Permutation (map snd fs') (map snd fs)).

(** A tag that yields no date and raises nothing but [ValueError]: it is
    absent, or holds a string that does not parse. *)
Definition undated (strptime : text -> option datetime)
           (tags : list (N * exif_value)) (tag_id : N) : Prop :=
  match dict_get tag_id tags with
  | None => True
  | Some (ExifStr s) => strptime s = None
  | Some ExifOther => False
  end.

(** ** The entry point [main] *)

(** Directories, and the regular files inside them. *)
Record disk := {
  d_dirs : list text;
  d_files : filesystem
}.

Module Disk.

(** [os.path.isdir(p)] *)
Definition isdir (dk : disk) (p : text) : bool :=
  existsb (Text.eqb p) (d_dirs dk).

(** [os.listdir(d)]: the names of the directories and of the files
    directly inside [d]. *)
Definition listdir (d : text) (dk : disk) : list text :=
  flat_map (fun q =>
              let name := Path.basename q in
              if negb (Text.eqb name [])
                 && Text.eqb (Path.join d name) q
              then [name] else []) (d_dirs dk)
  ++ FS.listdir d (d_files dk).

End Disk.

(** [list.sort()] on strings, as an insertion sort. *)
Fixpoint insert_text (x : text) (l : list text) : list text :=
  match l with
  | [] => [x]
  | y :: l' =>
      match Text.compare x y with
      | Gt => y :: insert_text x l'
      | _ => x :: y :: l'
      end
  end.

Definition sort_text (l : list text) : list text :=
  fold_right insert_text [] l.

(** What [main] prints: its own lines, and the lines of every call of
    [process_category]. *)
Inductive main_event :=
| Banner                                 (* the four opening lines *)
| DirectoryNotFound (photos_dir : text)
| CategoryLines (lines : list event)
| Complete (total_renamed : N).          (* the two closing lines *)

Record main_state := {
  m_fs : filesystem;
  m_out : list main_event;
  m_total : N
}.

(** [main] returns, or leaves through [sys.exit(code)]. *)
Inductive main_end :=
| Returned (ms : main_state)
| Exited (code : N) (ms : main_state).

Section Main.

Variable strptime : text -> option datetime.
Variable os : platform.
Variable now : datetime.

Definition photos_dir : text := txt "photos".

(** The sorted list of category names. *)
Definition categories (dk : disk) : list text :=
  sort_text (filter (fun d => Disk.isdir dk (Path.join photos_dir d))
                    (Disk.listdir photos_dir dk)).

(** The [for category in categories] loop. *)
Fixpoint categories_loop (ms : main_state) (cats : list text)
  : result main_state :=
  match cats with
  | [] => Ok ms
  | category :: rest =>
      let category_path := Path.join photos_dir category in
      r <- process_category strptime os now category_path (m_fs ms) ;;
      categories_loop
        {| m_fs := st_fs (snd r);
           m_out := m_out ms ++ [CategoryLines (st_out (snd r))];
           m_total := m_total ms + fst r |}
        rest
  end.

Definition main (dk : disk) : result main_end :=
  let ms0 := {| m_fs := d_files dk; m_out := [Banner]; m_total := 0 |} in
  if negb (Disk.isdir dk photos_dir) then
    Ok (Exited 1 {| m_fs := d_files dk;
                    m_out := [Banner; DirectoryNotFound photos_dir];
                    m_total := 0 |})
  else
    ms <- categories_loop ms0 (categories dk) ;;
    Ok (Returned {| m_fs := m_fs ms;
                    m_out := m_out ms ++ [Complete (m_total ms)];
                    m_total := m_total ms |}).

End Main.

(** The number of image files of a category. *)
Definition category_size (dk : disk) (category : text) : N :=
  N.of_nat (length (image_files (Path.join photos_dir category)
                                (d_files dk))).

(** [a <= b] on strings. *)
Definition text_le (a b : text) : Prop := Text.compare a b <> Gt.

(** A name as [os.listdir] reports it. *)
Definition entry_name (c : text) : Prop := c <> [] /\ ~ In Path.sep c.

(** A small site: two categories, a stray file beside them and a
    sub-directory inside one. *)
Definition small_site : disk :=
  {| d_dirs := [txt "photos"; txt "photos/travel"; txt "photos/family";
                txt "photos/travel/raw"; txt "script"];
     d_files :=
       [ (txt "photos/travel/c.jpg", plain_file (at_ 2024 1 2 8 0 0) 3);
         (txt "photos/readme.jpg", plain_file (at_ 2024 1 1 7 0 0) 9);
         (txt "photos/family/x.PNG", plain_file (at_ 2023 12 24 18 0 0) 4);
         (txt "photos/travel/raw/d.jpg", plain_file (at_ 2024 1 3 8 0 0) 5);
         (txt "photos/travel/a.jpg", plain_file (at_ 2024 1 1 9 0 0) 1) ]
  |}.

(** A directory in which the name due to the earliest photo is held by
    the latest one. *)
Definition early_name_taken : filesystem :=
  [ (txt "photos/travel/a.jpg", plain_file (at_ 2024 1 1 9 0 0) 1);
    (txt "photos/travel/c.jpg", plain_file (at_ 2024 1 3 8 0 0) 3);
    (txt "photos/travel/2024-01-01-001.jpg",
     plain_file (at_ 2024 1 5 12 0 0) 2) ].

(** [get_photos(category_dir)] of [generate_photo_pages.py], the reader of
    the names: the image names of the directory in sorted order. *)
Definition get_photos (category_dir : text) (fs : filesystem) : list text :=
  filter is_image (sort_text (FS.listdir category_dir fs)).

(** * Properties *)

(** ** The model on small inputs *)

Example splitext_plain :
  Path.splitext (txt "photos/travel/IMG_0001.JPEG")
  = (txt "photos/travel/IMG_0001", txt ".JPEG").
Proof. reflexivity. Qed.

Example splitext_dotfile :
  Path.splitext (txt "photos/tr.avel/.jpg") = (txt "photos/tr.avel/.jpg", []).
Proof. reflexivity. Qed.

Example zero_pad_examples :
  Fmt.zero_pad 3 7 = txt "007" /\ Fmt.zero_pad 3 1000 = txt "1000"
  /\ Fmt.zero_pad 4 2024 = txt "2024" /\ Fmt.zero_pad 2 0 = txt "00".
Proof. repeat split; reflexivity. Qed.

Example join_examples :
  Path.join (txt "photos/a") (txt "x.jpg") = txt "photos/a/x.jpg"
  /\ Path.join (txt "photos/a/") (txt "x.jpg") = txt "photos/a/x.jpg"
  /\ Path.basename (txt "photos/a/x.jpg") = txt "x.jpg".
Proof. repeat split; reflexivity. Qed.

(** ** Text *)

Module TextFacts.

Lemma eqb_eq (a b : text) : Text.eqb a b = true <-> a = b.
Proof.
  revert b; induction a as [|x a IH]; intros [|y b]; simpl;
    try (split; (discriminate || reflexivity)).
  rewrite andb_true_iff, Ascii.eqb_eq, IH.
  split; [intros [-> ->]; reflexivity | intros H; inversion H; auto].
Qed.

Lemma eqb_refl (a : text) : Text.eqb a a = true.
Proof. apply eqb_eq; reflexivity. Qed.

Lemma eqb_neq (a b : text) : Text.eqb a b = false <-> a <> b.
Proof.
  rewrite <- eqb_eq. destruct (Text.eqb a b); split; congruence.
Qed.

Lemma eqb_sym (a b : text) : Text.eqb a b = Text.eqb b a.
Proof.
  destruct (Text.eqb a b) eqn:E.
  - apply eqb_eq in E; subst; symmetry; apply eqb_refl.
  - symmetry; apply eqb_neq; apply eqb_neq in E; congruence.
Qed.

(** *** Lexicographic comparison *)

Lemma lex_eq (a b : list N) : Text.lex a b = Eq <-> a = b.
Proof.
  revert b; induction a as [|x a IH]; intros [|y b]; simpl;
    try (split; (discriminate || reflexivity)).
  destruct (N.compare_spec x y) as [E|E|E].
  - subst; rewrite IH; split; [intros ->; reflexivity|].
    intros H; inversion H; reflexivity.
  - split; [discriminate | intros H; inversion H; lia].
  - split; [discriminate | intros H; inversion H; lia].
Qed.

Lemma lex_refl (a : list N) : Text.lex a a = Eq.
Proof. apply lex_eq; reflexivity. Qed.

Lemma lex_antisym (a b : list N) : Text.lex b a = CompOpp (Text.lex a b).
Proof.
  revert b; induction a as [|x a IH]; intros [|y b]; simpl; auto.
  rewrite (N.compare_antisym x y).
  destruct (x ?= y); simpl; auto.
Qed.

Lemma lex_trans_lt (a b c : list N) :
  Text.lex a b = Lt -> Text.lex b c = Lt -> Text.lex a c = Lt.
Proof.
  revert b c; induction a as [|x a IH]; intros [|y b] [|z c]; simpl;
    try discriminate; auto.
  destruct (N.compare_spec x y), (N.compare_spec y z);
    try discriminate; subst; intros H1 H2.
  - rewrite N.compare_refl; eauto.
  - apply N.compare_lt_iff in H0; rewrite H0; reflexivity.
  - apply N.compare_lt_iff in H; rewrite H; reflexivity.
  - assert (x < z) as L by lia.
    apply N.compare_lt_iff in L; rewrite L; reflexivity.
Qed.

(** Comparing two concatenations whose first parts have one length. *)
Lemma lex_app (a1 a2 b1 b2 : list N) :
  length a1 = length a2 ->
  Text.lex (a1 ++ b1) (a2 ++ b2)
  = match Text.lex a1 a2 with
    | Eq => Text.lex b1 b2
    | c => c
    end.
Proof.
  revert a2; induction a1 as [|x a1 IH]; intros [|y a2]; simpl;
    try discriminate; auto.
  intros H; injection H as H.
  destruct (x ?= y); auto.
Qed.

Lemma codes_app (a b : text) :
  Text.codes (a ++ b) = Text.codes a ++ Text.codes b.
Proof. apply map_app. Qed.

Lemma codes_length (a : text) : length (Text.codes a) = length a.
Proof. apply length_map. Qed.

Lemma lt_trans (a b c : text) : Text.lt a b -> Text.lt b c -> Text.lt a c.
Proof. apply lex_trans_lt. Qed.

Lemma lt_irrefl (a : text) : ~ Text.lt a a.
Proof. unfold Text.lt, Text.compare; rewrite lex_refl; discriminate. Qed.

(** *** [lower] *)

Lemma lower_char_idem (c : ascii) :
  Text.lower_char (Text.lower_char c) = Text.lower_char c.
Proof.
  destruct c as [[] [] [] [] [] [] [] []]; reflexivity.
Qed.

Lemma lower_idem (s : text) : Text.lower (Text.lower s) = Text.lower s.
Proof.
  unfold Text.lower; rewrite map_map.
  apply map_ext; intros; apply lower_char_idem.
Qed.

Lemma lower_char_dot (c : ascii) :
  Text.lower_char c = "."%char <-> c = "."%char.
Proof.
  destruct c as [[] [] [] [] [] [] [] []]; vm_compute;
    split; intros H; (reflexivity || discriminate H).
Qed.

Lemma lower_char_sep (c : ascii) :
  Text.lower_char c = "/"%char <-> c = "/"%char.
Proof.
  destruct c as [[] [] [] [] [] [] [] []]; vm_compute;
    split; intros H; (reflexivity || discriminate H).
Qed.

Lemma lower_app (a b : text) :
  Text.lower (a ++ b) = Text.lower a ++ Text.lower b.
Proof. apply map_app. Qed.

Lemma in_lower_dot (s : text) : In "."%char (Text.lower s) <-> In "."%char s.
Proof.
  unfold Text.lower; rewrite in_map_iff; split.
  - intros (c & H & I); apply (proj1 (lower_char_dot c)) in H; subst; auto.
  - intros I; exists "."%char; split; auto.
Qed.

Lemma in_lower_sep (s : text) : In "/"%char (Text.lower s) <-> In "/"%char s.
Proof.
  unfold Text.lower; rewrite in_map_iff; split.
  - intros (c & H & I); apply (proj1 (lower_char_sep c)) in H; subst; auto.
  - intros I; exists "/"%char; split; auto.
Qed.

(** *** [startswith], [endswith] *)

Lemma startswith_app (s prefix : text) :
  Text.startswith s prefix = true <-> exists r, s = prefix ++ r.
Proof.
  revert s; induction prefix as [|p prefix IH]; intros s; simpl.
  - split; [intros _; exists s; reflexivity | destruct s; reflexivity].
  - destruct s as [|c s]; simpl.
    + split; [discriminate | intros [r H]; discriminate H].
    + rewrite andb_true_iff, Ascii.eqb_eq, IH; split.
      * intros [-> [r ->]]; eauto.
      * intros [r H]; injection H as -> ->; eauto.
Qed.

Lemma endswith_app (s suffix : text) :
  Text.endswith s suffix = true <-> exists r, s = r ++ suffix.
Proof.
  unfold Text.endswith; rewrite startswith_app; split.
  - intros [r H]. exists (rev r).
    rewrite <- (rev_involutive s), H, rev_app_distr, rev_involutive.
    reflexivity.
  - intros [r ->]. exists (rev r). apply rev_app_distr.
Qed.

(** *** [rfind] *)

Lemma rfind_from_app (c : ascii) (a b : text) (i last : Z) :
  Text.rfind_from c (a ++ b) i last
  = Text.rfind_from c b (i + Z.of_nat (length a))%Z
                    (Text.rfind_from c a i last).
Proof.
  revert i last; induction a as [|x a IH]; intros i last; simpl.
  - f_equal; lia.
  - rewrite IH; f_equal; lia.
Qed.

Lemma rfind_from_absent (c : ascii) (s : text) (i last : Z) :
  ~ In c s -> Text.rfind_from c s i last = last.
Proof.
  revert i last; induction s as [|x s IH]; intros i last H; simpl; auto.
  rewrite IH by (intros I; apply H; right; exact I).
  destruct (Ascii.eqb_spec x c); auto.
  subst; exfalso; apply H; left; reflexivity.
Qed.

Lemma rfind_absent (c : ascii) (s : text) :
  ~ In c s -> Text.rfind c s = (-1)%Z.
Proof. apply rfind_from_absent. Qed.

Lemma rfind_last (c : ascii) (a b : text) :
  ~ In c b -> Text.rfind c (a ++ c :: b) = Z.of_nat (length a).
Proof.
  intros H; unfold Text.rfind; rewrite rfind_from_app; simpl.
  rewrite Ascii.eqb_refl, rfind_from_absent by exact H. lia.
Qed.

(** Every text either lacks [c] or splits at its last [c]. *)
Lemma last_occurrence (c : ascii) (s : text) :
  ~ In c s \/ exists a b, s = a ++ c :: b /\ ~ In c b.
Proof.
  induction s as [|x s IH].
  - left; intros [].
  - destruct IH as [H | (a & b & -> & H)].
    + destruct (Ascii.eqb_spec x c) as [->|N].
      * right; exists [], s; auto.
      * left; intros [E|I]; auto.
    + right; exists (x :: a), b; auto.
Qed.

End TextFacts.

(** ** Paths *)

Module PathFacts.
Import TextFacts.

Lemma firstn_exact {A} (a b : list A) : firstn (length a) (a ++ b) = a.
Proof. induction a; simpl; congruence. Qed.

Lemma skipn_exact {A} (a b : list A) : skipn (length a) (a ++ b) = b.
Proof. induction a; simpl; congruence. Qed.

Lemma upto_exact (a b : text) :
  Text.upto (a ++ b) (Z.of_nat (length a)) = a.
Proof. unfold Text.upto; rewrite Nat2Z.id; apply firstn_exact. Qed.

Lemma from_exact (a b : text) :
  Text.from (a ++ b) (Z.of_nat (length a)) = b.
Proof. unfold Text.from; rewrite Nat2Z.id; apply skipn_exact. Qed.

Lemma rfind_sep_prefix (d r : text) :
  dir_prefix d -> ~ In Path.sep r ->
  (Text.rfind Path.sep (d ++ r) + 1 = Z.of_nat (length d))%Z.
Proof.
  intros [-> | [d' ->]] H; simpl.
  - rewrite rfind_absent by exact H; reflexivity.
  - rewrite <- app_assoc; simpl.
    rewrite rfind_last by exact H.
    rewrite length_app; simpl; lia.
Qed.

Lemma join_shape (a b : text) :
  Text.startswith b [Path.sep] = false ->
  exists d, Path.join a b = d ++ b /\ dir_prefix d.
Proof.
  intros H; unfold Path.join; rewrite H.
  destruct (Text.eqb a []) eqn:E; simpl.
  - apply eqb_eq in E; subst. exists []; split; [reflexivity | left; auto].
  - destruct (Text.endswith a [Path.sep]) eqn:F.
    + apply endswith_app in F; destruct F as [r ->].
      exists (r ++ [Path.sep]); split; [reflexivity | right; eauto].
    + exists (a ++ [Path.sep]); split; [|right; eauto].
      rewrite <- app_assoc; reflexivity.
Qed.

Lemma no_sep_startswith (b : text) :
  ~ In Path.sep b -> Text.startswith b [Path.sep] = false.
Proof.
  intros H; destruct (Text.startswith b [Path.sep]) eqn:E; auto.
  apply startswith_app in E; destruct E as [r ->].
  exfalso; apply H; left; reflexivity.
Qed.

Lemma basename_join (a b : text) :
  ~ In Path.sep b -> Path.basename (Path.join a b) = b.
Proof.
  intros H.
  destruct (join_shape a b (no_sep_startswith b H)) as (d & -> & D).
  unfold Path.basename.
  rewrite (rfind_sep_prefix d b D H).
  apply from_exact.
Qed.

Lemma basename_no_sep (p : text) : ~ In Path.sep (Path.basename p).
Proof.
  unfold Path.basename.
  destruct (last_occurrence Path.sep p) as [H | (a & b & -> & H)].
  - rewrite rfind_absent by exact H; exact H.
  - rewrite rfind_last by exact H.
    replace (a ++ Path.sep :: b) with ((a ++ [Path.sep]) ++ b)
      by (rewrite <- app_assoc; reflexivity).
    replace (Z.of_nat (length a) + 1)%Z
      with (Z.of_nat (length (a ++ [Path.sep])))
      by (rewrite length_app; simpl; lia).
    rewrite from_exact; exact H.
Qed.

Lemma join_inj (a b c : text) :
  ~ In Path.sep b -> ~ In Path.sep c ->
  Path.join a b = Path.join a c -> b = c.
Proof.
  intros Hb Hc E.
  rewrite <- (basename_join a b Hb), <- (basename_join a c Hc), E.
  reflexivity.
Qed.

(** [splitext] on a path whose last component is [stem ++ "." ++ e]. *)
Lemma splitext_decomp (d stem e : text) :
  dir_prefix d ->
  ~ In Path.sep stem -> ~ In Path.sep e -> ~ In Path.extsep e ->
  Path.splitext (d ++ stem ++ Path.extsep :: e)
  = if existsb nondot stem
    then (d ++ stem, Path.extsep :: e)
    else (d ++ stem ++ Path.extsep :: e, []).
Proof.
  intros D Hs He Hd. unfold Path.splitext.
  assert (Text.rfind Path.extsep (d ++ stem ++ Path.extsep :: e)
          = Z.of_nat (length (d ++ stem))) as Edot.
  { rewrite app_assoc; apply rfind_last; exact Hd. }
  assert (Text.rfind Path.sep (d ++ stem ++ Path.extsep :: e) + 1
          = Z.of_nat (length d))%Z as Esep.
  { apply rfind_sep_prefix; auto.
    intros I; apply in_app_or in I; destruct I as [I|[I|I]]; auto.
    discriminate I. }
  rewrite Edot, Esep.
  assert (Text.slice (d ++ stem ++ Path.extsep :: e)
                     (Z.of_nat (length d)) (Z.of_nat (length (d ++ stem)))
          = stem) as Eslice.
  { unfold Text.slice. rewrite Nat2Z.id, skipn_exact.
    replace (Z.to_nat (Z.of_nat (length (d ++ stem)) - Z.of_nat (length d)))
      with (length stem) by (rewrite length_app; lia).
    apply firstn_exact. }
  rewrite Eslice.
  replace (Text.rfind Path.sep (d ++ stem ++ Path.extsep :: e)
           <? Z.of_nat (length (d ++ stem)))%Z with true
    by (symmetry; apply Z.ltb_lt; rewrite length_app; lia).
  simpl. fold nondot. destruct (existsb nondot stem); auto.
  rewrite (app_assoc d stem), upto_exact, from_exact.
  reflexivity.
Qed.

(** The extension [splitext] returns is empty, or one dot followed by
    characters that are neither dots nor separators. *)
Lemma splitext_ext_shape (p : text) :
  snd (Path.splitext p) = []
  \/ exists e, snd (Path.splitext p) = Path.extsep :: e
               /\ ~ In Path.extsep e /\ ~ In Path.sep e.
Proof.
  unfold Path.splitext.
  destruct ((Text.rfind Path.sep p <? Text.rfind Path.extsep p)%Z
            && existsb (fun c => negb (Ascii.eqb c Path.extsep))
                 (Text.slice p (Text.rfind Path.sep p + 1)
                             (Text.rfind Path.extsep p))) eqn:C;
    [|left; reflexivity].
  right; simpl. apply andb_true_iff in C; destruct C as [C _].
  apply Z.ltb_lt in C.
  destruct (last_occurrence Path.extsep p) as [H | (a & b & -> & H)].
  - exfalso. rewrite (rfind_absent _ _ H) in C.
    destruct (last_occurrence Path.sep p) as [S | (a & b & -> & S)].
    + rewrite (rfind_absent _ _ S) in C; lia.
    + rewrite (rfind_last _ _ _ S) in C; lia.
  - rewrite (rfind_last _ _ _ H) in *. rewrite from_exact.
    exists b; repeat split; auto.
    intros I. apply in_split in I; destruct I as (b1 & b2 & ->).
    destruct (last_occurrence Path.sep b2) as [S | (x & y & -> & S)].
    + replace (a ++ Path.extsep :: b1 ++ Path.sep :: b2)
        with ((a ++ Path.extsep :: b1) ++ Path.sep :: b2) in C
        by (rewrite <- app_assoc; reflexivity).
      rewrite (rfind_last _ _ _ S), length_app in C; simpl in C; lia.
    + replace (a ++ Path.extsep :: b1 ++ Path.sep :: x ++ Path.sep :: y)
        with ((a ++ Path.extsep :: b1 ++ Path.sep :: x) ++ Path.sep :: y)
        in C
        by (rewrite <- !app_assoc; simpl; rewrite <- !app_assoc;
            reflexivity).
      rewrite (rfind_last _ _ _ S), length_app in C; simpl in C; lia.
Qed.

End PathFacts.

(** ** Number formatting *)

Module FmtFacts.
Import TextFacts.

Lemma pow2_succ (k : nat) : 2 ^ N.of_nat (S k) = 2 * 2 ^ N.of_nat k.
Proof. rewrite Nat2N.inj_succ, N.pow_succ_r'; reflexivity. Qed.

Lemma digits_fuel_S (k : nat) (n : N) :
  Fmt.digits_fuel (S k) n
  = if n <? 10 then [Fmt.digit_char n]
    else Fmt.digits_fuel k (n / 10) ++ [Fmt.digit_char (n mod 10)].
Proof. reflexivity. Qed.

(** With enough fuel the digits do not depend on it. *)
Lemma fuel_irrelevant (k1 : nat) :
  forall k2 n,
    n < 2 ^ N.of_nat (S k1) -> n < 2 ^ N.of_nat (S k2) ->
    Fmt.digits_fuel (S k1) n = Fmt.digits_fuel (S k2) n.
Proof.
  induction k1 as [|k1 IH]; intros k2 n H1 H2.
  - change (2 ^ N.of_nat 1) with 2 in H1.
    simpl. replace (n <? 10) with true by (symmetry; apply N.ltb_lt; lia).
    reflexivity.
  - rewrite (digits_fuel_S (S k1)), (digits_fuel_S k2).
    destruct (N.ltb_spec n 10) as [L|L]; auto.
    destruct k2 as [|k2].
    + change (2 ^ N.of_nat 1) with 2 in H2; lia.
    + rewrite pow2_succ in H1, H2.
      rewrite (IH k2 (n / 10)); [reflexivity| |];
        apply N.Div0.div_lt_upper_bound; lia.
Qed.

Lemma decimal_fuel (n : N) : n < 2 ^ N.of_nat (S (N.to_nat (N.log2 n))).
Proof.
  rewrite Nat2N.inj_succ, N2Nat.id.
  destruct (N.eq_dec n 0) as [->|H]; [reflexivity|].
  apply N.log2_spec; lia.
Qed.

Lemma decimal_eq (n : N) :
  Fmt.decimal n
  = if n <? 10 then [Fmt.digit_char n]
    else Fmt.decimal (n / 10) ++ [Fmt.digit_char (n mod 10)].
Proof.
  unfold Fmt.decimal at 1. rewrite digits_fuel_S.
  destruct (N.ltb_spec n 10) as [L|L]; auto.
  f_equal. pose proof (decimal_fuel n) as F.
  destruct (N.to_nat (N.log2 n)) as [|k] eqn:E.
  - change (2 ^ N.of_nat 1) with 2 in F; lia.
  - unfold Fmt.decimal. apply fuel_irrelevant.
    + rewrite pow2_succ in F. apply N.Div0.div_lt_upper_bound; lia.
    + apply decimal_fuel.
Qed.

Lemma digit_char_code (d : N) :
  d < 10 -> N_of_ascii (Fmt.digit_char d) = 48 + d.
Proof. intros H; apply N_ascii_embedding; lia. Qed.

Lemma digit_char_is_digit (d : N) :
  d < 10 -> Fmt.is_digit (Fmt.digit_char d) = true.
Proof.
  intros H; unfold Fmt.is_digit; rewrite digit_char_code by exact H.
  apply andb_true_iff; split; apply N.leb_le; lia.
Qed.

Lemma mod10_lt (n : N) : n mod 10 < 10.
Proof. apply N.mod_lt; discriminate. Qed.

Create HintDb fmt.
#[local] Hint Resolve mod10_lt digit_char_is_digit : fmt.

Lemma decimal_digits (n : N) :
  Forall (fun c => Fmt.is_digit c = true) (Fmt.decimal n).
Proof.
  induction (N.lt_wf_0 n) as [n _ IH].
  rewrite decimal_eq. destruct (N.ltb_spec n 10) as [L|L].
  - constructor; auto with fmt.
  - apply Forall_app; split.
    + apply IH. apply N.Div0.div_lt_upper_bound; lia.
    + constructor; auto with fmt.
Qed.

Lemma zero_pad_digits (w : nat) (n : N) :
  Forall (fun c => Fmt.is_digit c = true) (Fmt.zero_pad w n).
Proof.
  unfold Fmt.zero_pad. apply Forall_app; split.
  - apply Forall_forall; intros c I; apply repeat_spec in I; subst.
    reflexivity.
  - apply decimal_digits.
Qed.

Lemma zero_pad_nonempty (w : nat) (n : N) : Fmt.zero_pad w n <> [].
Proof.
  unfold Fmt.zero_pad. rewrite decimal_eq.
  destruct (n <? 10); intros H; apply app_eq_nil in H; destruct H as [_ H];
    [discriminate | apply app_eq_nil in H; destruct H; discriminate].
Qed.

(** *** Reading the digits back *)

Lemma value_snoc (s : text) (c : ascii) :
  Fmt.value (s ++ [c]) = 10 * Fmt.value s + (N_of_ascii c - 48).
Proof. unfold Fmt.value; rewrite fold_left_app; reflexivity. Qed.

Lemma value_decimal (n : N) : Fmt.value (Fmt.decimal n) = n.
Proof.
  induction (N.lt_wf_0 n) as [n _ IH].
  rewrite decimal_eq. destruct (N.ltb_spec n 10) as [L|L].
  - change [Fmt.digit_char n] with ([] ++ [Fmt.digit_char n]).
    rewrite value_snoc, digit_char_code by exact L.
    change (Fmt.value []) with 0. lia.
  - rewrite value_snoc, IH by (apply N.Div0.div_lt_upper_bound; lia).
    rewrite digit_char_code by auto with fmt.
    rewrite (N.add_comm 48), N.add_sub.
    symmetry; apply N.Div0.div_mod.
Qed.

Lemma value_zeros (k : nat) (s : text) :
  Fmt.value (repeat "0"%char k ++ s) = Fmt.value s.
Proof.
  unfold Fmt.value. rewrite fold_left_app.
  replace (fold_left _ (repeat "0"%char k) 0) with 0; auto.
  induction k; simpl; auto.
Qed.

Lemma value_zero_pad (w : nat) (n : N) : Fmt.value (Fmt.zero_pad w n) = n.
Proof. unfold Fmt.zero_pad; rewrite value_zeros; apply value_decimal. Qed.

Lemma zero_pad_inj (w : nat) (a b : N) :
  Fmt.zero_pad w a = Fmt.zero_pad w b -> a = b.
Proof.
  intros H. rewrite <- (value_zero_pad w a), <- (value_zero_pad w b), H.
  reflexivity.
Qed.

(** *** Fixed width *)

Lemma fixed_length (w : nat) (n : N) : length (Fmt.fixed w n) = w.
Proof.
  revert n; induction w as [|w IH]; intros n; simpl; auto.
  rewrite length_app, IH; simpl; lia.
Qed.

Lemma fixed_S (w : nat) (n : N) :
  Fmt.fixed (S w) n = Fmt.fixed w (n / 10) ++ [Fmt.digit_char (n mod 10)].
Proof. reflexivity. Qed.

Lemma fixed_zero (w : nat) : Fmt.fixed w 0 = repeat "0"%char w.
Proof.
  induction w as [|w IH]; simpl; auto.
  change (0 / 10) with 0. rewrite IH.
  change [Fmt.digit_char (0 mod 10)] with (repeat "0"%char 1).
  rewrite <- repeat_app. replace (w + 1)%nat with (S w) by lia.
  reflexivity.
Qed.

Lemma decimal_length_pos (n : N) : (1 <= length (Fmt.decimal n))%nat.
Proof.
  rewrite decimal_eq; destruct (n <? 10); simpl; [lia|].
  rewrite length_app; simpl; lia.
Qed.

Lemma fixed_decimal (w : nat) :
  forall n, n < 10 ^ N.of_nat (S w) ->
  Fmt.fixed (S w) n
  = repeat "0"%char (S w - length (Fmt.decimal n)) ++ Fmt.decimal n.
Proof.
  induction w as [|w IH]; intros n H.
  - change (10 ^ N.of_nat 1) with 10 in H.
    rewrite decimal_eq.
    replace (n <? 10) with true by (symmetry; apply N.ltb_lt; lia).
    simpl. rewrite N.mod_small by exact H. reflexivity.
  - rewrite (fixed_S (S w) n), (decimal_eq n).
    destruct (N.ltb_spec n 10) as [L|L].
    + rewrite N.div_small, N.mod_small by exact L.
      rewrite fixed_zero. reflexivity.
    + rewrite IH.
      * rewrite length_app, <- app_assoc. simpl length.
        replace (S (S w) - (length (Fmt.decimal (n / 10)) + 1))%nat
          with (S w - length (Fmt.decimal (n / 10)))%nat by lia.
        reflexivity.
      * rewrite Nat2N.inj_succ, N.pow_succ_r' in H.
        apply N.Div0.div_lt_upper_bound; lia.
Qed.

(** Below [10 ^ w], [zero_pad w] writes exactly [w] digits. *)
Lemma zero_pad_fixed (w : nat) (n : N) :
  n < 10 ^ N.of_nat (S w) -> Fmt.zero_pad (S w) n = Fmt.fixed (S w) n.
Proof. intros H; rewrite fixed_decimal by exact H; reflexivity. Qed.

Lemma fixed_digits (w : nat) (n : N) :
  Forall (fun c => Fmt.is_digit c = true) (Fmt.fixed w n).
Proof.
  revert n; induction w as [|w IH]; intros n; simpl; auto.
  apply Forall_app; split; auto. constructor; auto with fmt.
Qed.

(** Fixed-width numbers compare as texts the way they compare as
    numbers. *)
Lemma lex_fixed (w : nat) :
  forall a b, a < 10 ^ N.of_nat w -> b < 10 ^ N.of_nat w ->
  Text.lex (Text.codes (Fmt.fixed w a)) (Text.codes (Fmt.fixed w b))
  = (a ?= b).
Proof.
  induction w as [|w IH]; intros a b Ha Hb.
  - change (10 ^ N.of_nat 0) with 1 in *.
    assert (a = 0) by lia; assert (b = 0) by lia; subst; reflexivity.
  - rewrite Nat2N.inj_succ, N.pow_succ_r' in Ha, Hb.
    rewrite !fixed_S, !codes_app.
    rewrite lex_app by (rewrite !codes_length, !fixed_length; reflexivity).
    rewrite IH by (apply N.Div0.div_lt_upper_bound; lia).
    simpl. rewrite !digit_char_code by auto with fmt.
    pose proof (N.Div0.div_mod a 10) as Da.
    pose proof (N.Div0.div_mod b 10) as Db.
    pose proof (mod10_lt a) as Ra. pose proof (mod10_lt b) as Rb.
    clear IH Ha Hb.
    set (qa := a / 10) in *; set (ra := a mod 10) in *.
    set (qb := b / 10) in *; set (rb := b mod 10) in *.
    clearbody qa ra qb rb.
    destruct (N.compare_spec qa qb) as [E|E|E].
    + destruct (N.compare_spec (48 + ra) (48 + rb));
        symmetry;
        [apply N.compare_eq_iff | apply N.compare_lt_iff
         | apply N.compare_gt_iff]; lia.
    + symmetry; apply N.compare_lt_iff; lia.
    + symmetry; apply N.compare_gt_iff; lia.
Qed.

Lemma is_digit_not_dot (c : ascii) :
  Fmt.is_digit c = true -> c <> "."%char /\ c <> "/"%char.
Proof. split; intros ->; discriminate. Qed.

End FmtFacts.

(** ** The date readers *)

Section DateFacts.

Variable strptime : text -> option datetime.
Variable now : datetime.

Lemma get_exif_date_ok (fs : filesystem) (p : text) :
  exists r, get_exif_date strptime fs p = Ok r.
Proof.
  unfold get_exif_date, try_except.
  destruct (exif_date_body strptime fs p); eauto.
Qed.

Lemma get_file_date_ok (fs : filesystem) (p : text) :
  exists d, get_file_date now fs p = Ok d.
Proof.
  unfold get_file_date, try_except. destruct (FS.getmtime fs p); eauto.
Qed.

Lemma get_photo_date_ok (fs : filesystem) (p : text) :
  get_photo_date strptime now fs p = Ok (photo_date strptime now fs p).
Proof.
  unfold photo_date.
  assert (exists d, get_photo_date strptime now fs p = Ok d) as [d E].
  { unfold get_photo_date.
    destruct (get_exif_date_ok fs p) as [[d|] ->]; simpl; eauto.
    apply get_file_date_ok. }
  rewrite E; reflexivity.
Qed.

Lemma with_dates_ok (fs : filesystem) (paths : list text) :
  with_dates strptime now fs paths
  = Ok (map (fun p => (photo_date strptime now fs p, p)) paths).
Proof.
  induction paths as [|p paths IH]; simpl; auto.
  rewrite get_photo_date_ok, IH; reflexivity.
Qed.

(** The date of a path depends on the file found there and on nothing
    else of the file system. *)
Lemma photo_date_lookup (fs fs' : filesystem) (p p' : text) :
  FS.lookup p fs = FS.lookup p' fs' ->
  photo_date strptime now fs p = photo_date strptime now fs' p'.
Proof.
  intros E.
  unfold photo_date, get_photo_date, get_exif_date, exif_date_body,
    get_file_date, FS.getexif, FS.getmtime.
  rewrite E; reflexivity.
Qed.

(** Scanning with string-valued tags: the first tag that parses wins. *)
Lemma scan_tags_strings (tags : list (N * exif_value)) (ids : list N) :
  forallb (fun tag_id =>
             match dict_get tag_id tags with
             | Some ExifOther => false
             | _ => true
             end) ids = true ->
  scan_tags strptime tags ids
  = Ok (fold_right
          (fun tag_id rest =>
             match dict_get tag_id tags with
             | Some (ExifStr s) =>
                 match strptime s with Some d => Some d | None => rest end
             | _ => rest
             end) None ids).
Proof.
  induction ids as [|tag_id ids IH]; simpl; auto.
  intros H; apply andb_true_iff in H; destruct H as [H1 H2].
  destruct (dict_get tag_id tags) as [[s|]|]; try discriminate; auto.
  unfold strptime_call. destruct (strptime s); auto.
Qed.

End DateFacts.

(** C10. [get_photo_date] is total: on every file system and every path it
    returns a date and raises nothing. Whenever the EXIF reader produces no
    date (the body of its [try] raises, be it on opening the image, on
    reading the EXIF block or inside the parser, or it ends with [None]
    because no tag parsed), the result is that of [get_file_date]; and
    [get_file_date] is the modification time when that can be read and the
    clock when reading it raises. *)
Theorem get_photo_date_total :
  forall (strptime : text -> option datetime) (now : datetime)
         (fs : filesystem) (p : text),
    (exists d, get_photo_date strptime now fs p = Ok d)
    /\ ((exif_date_body strptime fs p = Ok None
         \/ exists e, exif_date_body strptime fs p = Raise e) ->
        get_photo_date strptime now fs p = get_file_date now fs p)
    /\ (forall t, FS.getmtime fs p = Ok t -> get_file_date now fs p = Ok t)
    /\ (forall e, FS.getmtime fs p = Raise e ->
                  get_file_date now fs p = Ok now).
Proof.
  intros strptime now fs p. repeat split.
  - rewrite get_photo_date_ok; eauto.
  - unfold get_photo_date, get_exif_date, try_except.
    intros [-> | [e ->]]; reflexivity.
  - intros t E; unfold get_file_date; rewrite E; reflexivity.
  - intros e E; unfold get_file_date; rewrite E; reflexivity.
Qed.

Lemma get_photo_date_total_witness :
  get_photo_date Exif.strptime new_year
    [(txt "photos/travel/x.jpg", broken_file)] (txt "photos/travel/x.jpg")
  = Ok new_year.
Proof.
  destruct (get_photo_date_total Exif.strptime new_year
              [(txt "photos/travel/x.jpg", broken_file)]
              (txt "photos/travel/x.jpg")) as (_ & H1 & _ & H2).
  rewrite H1 by (right; exists OSError; reflexivity).
  apply (H2 OSError); reflexivity.
Defined.

(** C4, as the code has it. The date of a file is the first success of the
    chain: DateTimeOriginal, DateTime, DateTimeDigitized, the modification
    time of the file, the clock (for a file whose date tags hold strings).
    In particular a DateTimeOriginal that parses is the result whatever
    the modification time is, and a file without EXIF block gets its
    modification time. *)
Theorem fallback_chain_with_digitized :
  forall (strptime : text -> option datetime) (now : datetime)
         (fs : filesystem) (p : text) (f : file),
    FS.lookup p fs = Some f ->
    (string_tags f = true ->
     get_photo_date strptime now fs p = Ok (tag_chain strptime now f))
    /\ (forall d, tag_date strptime f 36867 = Some d ->
                  get_photo_date strptime now fs p = Ok d)
    /\ (forall t, f_exif f = ExifNone -> f_mtime f = Some t ->
                  get_photo_date strptime now fs p = Ok t).
Proof.
  intros strptime now fs p f L.
  unfold get_photo_date, get_exif_date, exif_date_body, get_file_date,
    FS.getexif, FS.getmtime, tag_chain, tag_date, string_tags.
  rewrite L. repeat split.
  - destruct (f_exif f) as [e| |tags].
    + simpl; destruct (f_mtime f); reflexivity.
    + simpl; destruct (f_mtime f); reflexivity.
    + intros S. unfold bind. rewrite scan_tags_strings by exact S.
      unfold date_tags, fold_right, first_success, try_except.
      destruct (dict_get 36867 tags) as [[s1|]|];
        [destruct (strptime s1); [reflexivity|] | |];
        (destruct (dict_get 306 tags) as [[s2|]|];
         [destruct (strptime s2); [reflexivity|] | |]);
        (destruct (dict_get 36868 tags) as [[s3|]|];
         [destruct (strptime s3); [reflexivity|] | |]);
        simpl; destruct (f_mtime f); reflexivity.
  - intros d. destruct (f_exif f) as [e| |tags]; try discriminate.
    unfold bind, date_tags, scan_tags.
    destruct (dict_get 36867 tags) as [[s|]|]; try discriminate.
    intros E; unfold strptime_call; rewrite E; reflexivity.
  - intros t -> ->; reflexivity.
Qed.

Lemma fallback_chain_witness :
  get_photo_date Exif.strptime new_year
    [(txt "photos/travel/IMG_2.jpg", copied_photo)]
    (txt "photos/travel/IMG_2.jpg")
  = Ok (at_ 2022 7 4 8 30 0)
  /\ get_photo_date Exif.strptime new_year
       [(txt "photos/travel/IMG_3.jpg", plain_file (at_ 2023 5 1 10 0 0) 3)]
       (txt "photos/travel/IMG_3.jpg")
     = Ok (at_ 2023 5 1 10 0 0).
Proof.
  split.
  - destruct (fallback_chain_with_digitized Exif.strptime new_year
                [(txt "photos/travel/IMG_2.jpg", copied_photo)]
                (txt "photos/travel/IMG_2.jpg") copied_photo eq_refl)
      as (_ & H & _).
    apply H; reflexivity.
  - destruct (fallback_chain_with_digitized Exif.strptime new_year
                [(txt "photos/travel/IMG_3.jpg",
                  plain_file (at_ 2023 5 1 10 0 0) 3)]
                (txt "photos/travel/IMG_3.jpg")
                (plain_file (at_ 2023 5 1 10 0 0) 3) eq_refl)
      as (_ & _ & H).
    apply H; reflexivity.
Defined.

(** C4, as the specification words it, fails on a file whose only date tag
    is DateTimeDigitized: the four-step chain falls through to the
    modification time (2023-05-01), the code returns the digitized time
    (2019-03-02). *)
Lemma digitized_tag_beats_mtime :
  get_photo_date Exif.strptime new_year
    [(txt "photos/travel/scan.jpg", scanned_print)]
    (txt "photos/travel/scan.jpg")
  = Ok (at_ 2019 3 2 10 0 0)
  /\ spec_chain Exif.strptime new_year scanned_print = at_ 2023 5 1 10 0 0
  /\ get_photo_date Exif.strptime new_year
       [(txt "photos/travel/scan.jpg", scanned_print)]
       (txt "photos/travel/scan.jpg")
     <> Ok (spec_chain Exif.strptime new_year scanned_print).
Proof.
  repeat split; try reflexivity.
  vm_compute; discriminate.
Qed.

(** ** The renaming loop *)

Section LoopFacts.

Variable strptime : text -> option datetime.
Variable os : platform.
Variable now : datetime.

Lemma rename_step_assigned cd st c t p :
  st_assigned (rename_step os cd st c (t, p))
  = st_assigned st ++ [(p, new_filename t c p)].
Proof.
  unfold rename_step. destruct (FS.rename os (st_fs st) p _); reflexivity.
Qed.

Lemma rename_loop_cons cd st c item items :
  rename_loop os cd st c (item :: items)
  = rename_loop os cd (rename_step os cd st c item) (c + 1) items.
Proof. reflexivity. Qed.

Lemma rename_loop_counter cd items :
  forall st c, snd (rename_loop os cd st c items)
               = c + N.of_nat (length items).
Proof.
  induction items as [|item items IH]; intros st c.
  - simpl; lia.
  - rewrite rename_loop_cons, IH. simpl length. lia.
Qed.

Lemma rename_loop_assigned cd items :
  forall st c, st_assigned (fst (rename_loop os cd st c items))
               = st_assigned st ++ assigned c items.
Proof.
  induction items as [|[t p] items IH]; intros st c.
  - simpl; rewrite app_nil_r; reflexivity.
  - rewrite rename_loop_cons, IH, rename_step_assigned, <- app_assoc.
    reflexivity.
Qed.

Lemma assigned_length c items : length (assigned c items) = length items.
Proof.
  revert c; induction items as [|[t p] items IH]; intros c; simpl; auto.
Qed.

(** The [i]-th turn of the loop names the [i]-th item with counter
    [c + i]. *)
Lemma assigned_nth items :
  forall c i t p,
    nth_error items i = Some (t, p) ->
    nth_error (assigned c items) i
    = Some (p, new_filename t (c + N.of_nat i) p).
Proof.
  induction items as [|[t0 p0] items IH]; intros c i t p H.
  - destruct i; discriminate H.
  - destruct i as [|i].
    + simpl in *. injection H as -> ->. rewrite N.add_0_r; reflexivity.
    + cbn [assigned nth_error] in *. rewrite (IH (c + 1) i t p H).
      replace (c + N.of_nat (S i)) with (c + 1 + N.of_nat i) by lia.
      reflexivity.
Qed.

Lemma assigned_nth_inv items :
  forall c i p name,
    nth_error (assigned c items) i = Some (p, name) ->
    exists t, nth_error items i = Some (t, p)
              /\ name = new_filename t (c + N.of_nat i) p.
Proof.
  induction items as [|[t0 p0] items IH]; intros c i p name H.
  - destruct i; discriminate H.
  - destruct i as [|i].
    + simpl in *. injection H as <- <-. exists t0. rewrite N.add_0_r; auto.
    + cbn [assigned nth_error] in *.
      destruct (IH _ _ _ _ H) as (t & E & ->).
      exists t; split; auto.
      replace (c + N.of_nat (S i)) with (c + 1 + N.of_nat i) by lia.
      reflexivity.
Qed.

(** [process_category] returns, and what it returns is the number of files
    it walked and the state the loop ended in, with the closing blank
    line. *)
Lemma process_category_ok cd fs :
  process_category strptime os now cd fs
  = Ok (N.of_nat (length (sorted_files strptime now cd fs)),
        {| st_fs := st_fs (final_state strptime os now cd fs);
           st_out := st_out (final_state strptime os now cd fs)
                     ++ [BlankLine];
           st_assigned := assigned 1 (sorted_files strptime now cd fs) |}).
Proof.
  unfold process_category. rewrite with_dates_ok. unfold bind.
  fold (sorted_files strptime now cd fs).
  pose proof (rename_loop_counter cd (sorted_files strptime now cd fs)
                (start_state strptime cd fs) 1) as C.
  pose proof (rename_loop_assigned cd (sorted_files strptime now cd fs)
                (start_state strptime cd fs) 1) as A.
  unfold final_state; unfold start_state in *.
  destruct (rename_loop os cd _ 1 (sorted_files strptime now cd fs))
    as [st counter].
  cbn [fst snd app st_assigned st_fs st_out] in *. subst counter. rewrite A.
  replace (1 + N.of_nat (length (sorted_files strptime now cd fs)) - 1)
    with (N.of_nat (length (sorted_files strptime now cd fs))) by lia.
  reflexivity.
Qed.

End LoopFacts.

(** C1, as the code has it. The counter starts at 1 and goes up by one with
    every file of the directory in timestamp order, whether the date
    changes or not: the [i]-th file (from 0) of the sorted list is named
    with its date, the number [i + 1] on three digits and its extension. *)
Theorem counter_runs_through_directory :
  forall (strptime : text -> option datetime) (os : platform)
         (now : datetime) (cd : text) (fs : filesystem),
  exists n st,
    process_category strptime os now cd fs = Ok (n, st)
    /\ length (st_assigned st) = length (sorted_files strptime now cd fs)
    /\ forall i t p,
         nth_error (sorted_files strptime now cd fs) i = Some (t, p) ->
         nth_error (st_assigned st) i
         = Some (p, Datetime.strftime_date t ++ txt "-"
                    ++ Fmt.zero_pad 3 (N.of_nat i + 1) ++ new_ext p).
Proof.
  intros. eexists _, _. split; [apply process_category_ok|].
  cbn [st_assigned]. split; [apply assigned_length|].
  intros i t p H. rewrite (assigned_nth _ 1 i t p H).
  replace (1 + N.of_nat i) with (N.of_nat i + 1) by lia. reflexivity.
Qed.

Lemma counter_runs_through_directory_witness :
  exists n st,
    process_category Exif.strptime Posix new_year travel three_photos
    = Ok (n, st)
    /\ nth_error (st_assigned st) 2
       = Some (txt "photos/travel/c.jpg", txt "2024-01-02-003.jpg").
Proof.
  destruct (counter_runs_through_directory
              Exif.strptime Posix new_year travel three_photos)
    as (n & st & E & _ & H).
  exists n, st; split; [exact E|].
  apply (H 2%nat (at_ 2024 1 2 8 0 0) (txt "photos/travel/c.jpg")).
  reflexivity.
Defined.

(** C1, as stated, fails on its own example: the photos of January 1st,
    January 1st and January 2nd get the numbers 001, 002 and 003, not 001,
    002 and 001. *)
Lemma counter_does_not_reset :
  exists n st,
    process_category Exif.strptime Posix new_year travel three_photos
    = Ok (n, st)
    /\ map snd (st_assigned st)
       = [txt "2024-01-01-001.jpg"; txt "2024-01-01-002.jpg";
          txt "2024-01-02-003.jpg"]
    /\ map snd (st_assigned st)
       <> [txt "2024-01-01-001.jpg"; txt "2024-01-01-002.jpg";
           txt "2024-01-02-001.jpg"].
Proof.
  eexists _, _. split; [vm_compute; reflexivity|].
  split; [reflexivity | discriminate].
Qed.

(** The value returned is the number of image files of the directory,
    whatever happened to the renames. *)
Lemma process_category_returns_file_count strptime os now cd fs :
  exists st,
    process_category strptime os now cd fs
    = Ok (N.of_nat (length (st_assigned st)), st).
Proof.
  rewrite process_category_ok.
  rewrite <- (assigned_length 1 (sorted_files strptime now cd fs)).
  eexists {| st_fs := _; st_out := _;
             st_assigned := assigned 1 (sorted_files strptime now cd fs) |}.
  reflexivity.
Qed.

(** C3 on a failing input. On Windows, in a directory where the name due to
    [a.jpg] is taken, the rename of [a.jpg] raises and the other file is
    renamed: one file was renamed, two are returned. *)
Theorem returned_count_includes_failed_rename :
  exists st,
    process_category Exif.strptime Windows new_year travel collision_dir
    = Ok (2, st)
    /\ st_out st
       = [Processing (txt "travel");
          RenameError (txt "photos/travel/a.jpg") FileExistsError;
          Renamed (txt "2024-01-01-001.jpg") (txt "2024-01-05 12:00")
                  (txt "2024-01-05-002.jpg");
          BlankLine]
    /\ length (renamed_lines (st_out st)) = 1%nat
    /\ FS.paths (st_fs st)
       = [txt "photos/travel/a.jpg"; txt "photos/travel/2024-01-05-002.jpg"].
Proof.
  eexists. split; [vm_compute; reflexivity|].
  repeat split.
Qed.

(** C2 on a failing input. On POSIX, in a directory where the name due to
    [a.jpg] is held by another photo, no rename is skipped and no error is
    printed: [os.rename] replaces the photo that held the name (contents 2),
    and the next turn renames what is then at that path. One file is left,
    the photo of 2024-01-01 (contents 1) under a name of 2024-01-05, and
    both files are printed as renamed. *)
Theorem existing_photo_is_overwritten :
  exists st,
    process_category Exif.strptime Posix new_year travel collision_dir
    = Ok (2, st)
    /\ st_fs st
       = [(txt "photos/travel/2024-01-05-002.jpg",
           plain_file (at_ 2024 1 1 9 0 0) 1)]
    /\ st_out st
       = [Processing (txt "travel");
          Renamed (txt "a.jpg") (txt "2024-01-01 09:00")
                  (txt "2024-01-01-001.jpg");
          Renamed (txt "2024-01-01-001.jpg") (txt "2024-01-05 12:00")
                  (txt "2024-01-05-002.jpg");
          BlankLine]
    /\ (forall old e, ~ In (RenameError old e) (st_out st))
    /\ (forall p f, In (p, f) (st_fs st) -> f_data f <> 2).
Proof.
  eexists. split; [vm_compute; reflexivity|].
  split; [reflexivity|]. split; [reflexivity|]. split.
  - intros old e H. cbn [st_out] in H.
    repeat (destruct H as [H|H]; [discriminate H|]). exact H.
  - intros p f H. cbn [st_fs] in H.
    destruct H as [H|[]]. injection H as _ <-. discriminate.
Qed.

(** ** Dates and the sort *)

Module DatetimeFacts.
Import TextFacts.

Lemma compare_eq (a b : datetime) : Datetime.compare a b = Eq <-> a = b.
Proof.
  unfold Datetime.compare; rewrite lex_eq; split; [|intros ->; reflexivity].
  destruct a, b; unfold Datetime.fields; simpl.
  intros H; injection H; intros; subst; reflexivity.
Qed.

Lemma same_datetime (a b : datetime) :
  Datetime.eqb a b = true <-> a = b.
Proof.
  rewrite <- compare_eq; unfold Datetime.eqb.
  destruct (Datetime.compare a b); split; congruence.
Qed.

Lemma leb_refl (a : datetime) : Datetime.leb a a = true.
Proof.
  unfold Datetime.leb, Datetime.compare; rewrite lex_refl; reflexivity.
Qed.

(** [not (a <= b)] is [b < a]. *)
Lemma leb_false (a b : datetime) :
  Datetime.leb a b = false <-> Datetime.ltb b a = true.
Proof.
  unfold Datetime.leb, Datetime.ltb, Datetime.compare.
  rewrite (lex_antisym (Datetime.fields a) (Datetime.fields b)).
  destruct (Text.lex (Datetime.fields a) (Datetime.fields b)); simpl;
    split; congruence.
Qed.

Lemma ltb_leb (a b : datetime) :
  Datetime.ltb a b = true -> Datetime.leb a b = true.
Proof.
  unfold Datetime.leb, Datetime.ltb.
  destruct (Datetime.compare a b); congruence.
Qed.

Lemma leb_total (a b : datetime) :
  Datetime.leb a b = false -> Datetime.leb b a = true.
Proof. intros H; apply ltb_leb, leb_false, H. Qed.

Lemma leb_trans (a b c : datetime) :
  Datetime.leb a b = true -> Datetime.leb b c = true ->
  Datetime.leb a c = true.
Proof.
  unfold Datetime.leb.
  destruct (Datetime.compare a b) eqn:E1; try discriminate;
    destruct (Datetime.compare b c) eqn:E2; try discriminate; intros _ _.
  - apply compare_eq in E1; subst; rewrite E2; reflexivity.
  - apply compare_eq in E1; subst; rewrite E2; reflexivity.
  - apply compare_eq in E2; subst; rewrite E1; reflexivity.
  - unfold Datetime.compare in *.
    rewrite (lex_trans_lt _ _ _ E1 E2); reflexivity.
Qed.

Lemma ltb_irrefl (a : datetime) : Datetime.ltb a a = false.
Proof.
  unfold Datetime.ltb, Datetime.compare; rewrite lex_refl; reflexivity.
Qed.

(** Earlier or equal datetimes have earlier or equal calendar days. *)
Lemma leb_date (a b : datetime) :
  Datetime.leb a b = true ->
  Text.lex (Datetime.date a) (Datetime.date b) <> Gt.
Proof.
  unfold Datetime.leb, Datetime.compare, Datetime.fields, Datetime.date.
  simpl.
  destruct (year a ?= year b); try congruence;
    destruct (month a ?= month b); try congruence;
    destruct (day a ?= day b); congruence.
Qed.

End DatetimeFacts.

Module SortFacts.
Import DatetimeFacts.

Lemma insert_perm x l : Permutation (x :: l) (insert_by_date x l).
Proof.
  induction l as [|y l IH]; simpl; auto.
  destruct (Datetime.leb (fst x) (fst y)); auto.
  eapply perm_trans; [apply perm_swap|]. auto.
Qed.

Lemma sort_perm l : Permutation l (sort_by_date l).
Proof.
  induction l as [|x l IH]; simpl; auto.
  eapply perm_trans; [|apply insert_perm]. auto.
Qed.

Lemma insert_sorted x l :
  StronglySorted by_date l -> StronglySorted by_date (insert_by_date x l).
Proof.
  induction 1 as [|y l S IH F]; simpl.
  - repeat constructor.
  - destruct (Datetime.leb (fst x) (fst y)) eqn:E.
    + constructor; [constructor; auto|].
      constructor; [exact E|].
      eapply Forall_impl; [|exact F].
      intros z Hz; unfold by_date in *; eapply leb_trans; eauto.
    + constructor; auto.
      eapply Permutation_Forall; [apply insert_perm|].
      constructor; auto. apply leb_total, E.
Qed.

Lemma sort_sorted l : StronglySorted by_date (sort_by_date l).
Proof.
  induction l; simpl; [constructor | apply insert_sorted; auto].
Qed.

(** Stability: the items of any one date keep their order. *)
Lemma insert_stable t x l :
  filter (fun y => Datetime.eqb (fst y) t) (insert_by_date x l)
  = filter (fun y => Datetime.eqb (fst y) t) (x :: l).
Proof.
  induction l as [|y l IH]; [reflexivity|].
  cbn [insert_by_date].
  destruct (Datetime.leb (fst x) (fst y)) eqn:E; [reflexivity|].
  cbn [filter] in *. rewrite IH.
  destruct (Datetime.eqb (fst x) t) eqn:Ex; [|reflexivity].
  destruct (Datetime.eqb (fst y) t) eqn:Ey; [|reflexivity].
  apply same_datetime in Ex, Ey. rewrite Ex, Ey, leb_refl in E.
  discriminate.
Qed.

Lemma sort_stable t l :
  filter (fun y => Datetime.eqb (fst y) t) (sort_by_date l)
  = filter (fun y => Datetime.eqb (fst y) t) l.
Proof.
  induction l as [|x l IH]; [reflexivity|].
  cbn [sort_by_date fold_right]. fold (sort_by_date l).
  rewrite insert_stable. cbn [filter]. rewrite IH. reflexivity.
Qed.

(** The sort looks at the dates only. *)
Lemma insert_map (g : text -> text) x l :
  insert_by_date (fst x, g (snd x)) (map (fun y => (fst y, g (snd y))) l)
  = map (fun y => (fst y, g (snd y))) (insert_by_date x l).
Proof.
  induction l as [|y l IH]; [reflexivity|].
  cbn [insert_by_date map fst].
  destruct (Datetime.leb (fst x) (fst y)); [reflexivity|].
  cbn [map]. rewrite <- IH. reflexivity.
Qed.

Lemma sort_map (g : text -> text) l :
  sort_by_date (map (fun y => (fst y, g (snd y))) l)
  = map (fun y => (fst y, g (snd y))) (sort_by_date l).
Proof.
  induction l as [|x l IH]; [reflexivity|].
  cbn [sort_by_date fold_right map].
  fold (sort_by_date l).
  fold (sort_by_date (map (fun y => (fst y, g (snd y))) l)).
  rewrite IH. apply insert_map.
Qed.

Lemma assigned_old_paths items :
  forall c, map fst (assigned c items) = map snd items.
Proof.
  induction items as [|[t p] items IH]; intros c; simpl; [|rewrite IH];
    reflexivity.
Qed.

Lemma filter_dated (f : text -> datetime) (P : datetime -> bool) l :
  map snd (filter (fun x => P (fst x)) (map (fun p => (f p, p)) l))
  = filter (fun p => P (f p)) l.
Proof.
  induction l as [|p l IH]; [reflexivity|].
  cbn [map filter fst]. destruct (P (f p)); cbn [map snd]; rewrite IH;
    reflexivity.
Qed.

End SortFacts.

Section SortedFiles.

Variable strptime : text -> option datetime.
Variable now : datetime.

(** Every item of the sorted list pairs an image file with its date. *)
Lemma sorted_files_dated cd fs :
  Forall (fun x => fst x = photo_date strptime now fs (snd x)
                   /\ In (snd x) (image_files cd fs))
         (sorted_files strptime now cd fs).
Proof.
  unfold sorted_files.
  eapply Permutation_Forall; [apply SortFacts.sort_perm|].
  apply Forall_forall. intros x I. apply in_map_iff in I.
  destruct I as (p & <- & I); auto.
Qed.

Lemma sorted_files_paths cd fs :
  Permutation (image_files cd fs)
              (map snd (sorted_files strptime now cd fs)).
Proof.
  unfold sorted_files.
  eapply perm_trans;
    [|apply Permutation_map, SortFacts.sort_perm].
  rewrite map_map, map_id. apply Permutation_refl.
Qed.

Lemma sorted_files_length cd fs :
  length (sorted_files strptime now cd fs) = length (image_files cd fs).
Proof.
  rewrite <- (length_map snd). symmetry.
  apply Permutation_length, sorted_files_paths.
Qed.

Lemma sorted_paths_by_date cd fs :
  StronglySorted
    (fun a b => Datetime.leb (photo_date strptime now fs a)
                             (photo_date strptime now fs b) = true)
    (map snd (sorted_files strptime now cd fs)).
Proof.
  pose proof (sorted_files_dated cd fs) as D.
  pose proof (SortFacts.sort_sorted
                (map (fun p => (photo_date strptime now fs p, p))
                     (image_files cd fs))) as S.
  fold (sorted_files strptime now cd fs) in S.
  induction S as [|x l S IH F]; simpl; constructor.
  - apply IH. inversion D; auto.
  - inversion D as [|? ? [Ex _] Dl]; subst.
    apply Forall_map. rewrite Forall_forall in *.
    intros y Iy. destruct (Dl y Iy) as [Ey _].
    rewrite <- Ex, <- Ey. apply F, Iy.
Qed.

End SortedFiles.

(** C9. The files are renamed in ascending order of their dates, every
    image file once, and files with one and the same date are taken in the
    order of the directory listing. *)
Theorem sort_is_stable :
  forall (strptime : text -> option datetime) (os : platform)
         (now : datetime) (cd : text) (fs : filesystem),
  exists n st,
    process_category strptime os now cd fs = Ok (n, st)
    /\ StronglySorted
         (fun a b => Datetime.leb (photo_date strptime now fs a)
                                  (photo_date strptime now fs b) = true)
         (map fst (st_assigned st))
    /\ Permutation (image_files cd fs) (map fst (st_assigned st))
    /\ forall t,
         filter (fun p => Datetime.eqb (photo_date strptime now fs p) t)
                (map fst (st_assigned st))
         = filter (fun p => Datetime.eqb (photo_date strptime now fs p) t)
                  (image_files cd fs).
Proof.
  intros. eexists _, _. split; [apply process_category_ok|].
  cbn [st_assigned]. rewrite SortFacts.assigned_old_paths.
  pose proof (sorted_files_dated strptime now cd fs) as D.
  split; [|split].
  - apply sorted_paths_by_date.
  - apply sorted_files_paths.
  - intros t.
    transitivity
      (map snd (filter (fun x => Datetime.eqb (fst x) t)
                       (sorted_files strptime now cd fs))).
    + induction D as [|x l [Ex _] D IH]; [reflexivity|].
      cbn [map filter]. rewrite <- Ex, IH.
      destruct (Datetime.eqb (fst x) t); reflexivity.
    + unfold sorted_files. rewrite SortFacts.sort_stable.
      apply (SortFacts.filter_dated (photo_date strptime now fs)
                                    (fun d => Datetime.eqb d t)).
Qed.

(** ** The new names *)

Module NameFacts.
Import TextFacts PathFacts FmtFacts.

Lemma new_filename_stem t c p : new_filename t c p = stem t c ++ new_ext p.
Proof.
  unfold new_filename, stem. rewrite <- !app_assoc. reflexivity.
Qed.

Lemma digits_plain s :
  Forall (fun c => Fmt.is_digit c = true) s -> Forall plain_char s.
Proof.
  apply Forall_impl. intros c H; apply is_digit_not_dot, H.
Qed.

Lemma stem_plain t c : Forall plain_char (stem t c).
Proof.
  assert (Forall plain_char (txt "-")) as Dash
    by (repeat constructor; discriminate).
  assert (forall w n, Forall plain_char (Fmt.zero_pad w n)) as Pad
    by (intros; apply digits_plain, zero_pad_digits).
  unfold stem, Datetime.strftime_date.
  rewrite !Forall_app. repeat split; auto.
Qed.

Lemma plain_no_dot s : Forall plain_char s -> ~ In Path.extsep s.
Proof.
  intros F I. rewrite Forall_forall in F. destruct (F _ I); congruence.
Qed.

Lemma plain_no_sep s : Forall plain_char s -> ~ In Path.sep s.
Proof.
  intros F I. rewrite Forall_forall in F. destruct (F _ I); congruence.
Qed.

Lemma stem_nondot t c : existsb nondot (stem t c) = true.
Proof.
  pose proof (stem_plain t c) as F.
  assert (stem t c <> []) as N.
  { unfold stem, Datetime.strftime_date.
    pose proof (zero_pad_nonempty 4 (year t)).
    destruct (Fmt.zero_pad 4 (year t)); [congruence | discriminate]. }
  destruct (stem t c) as [|x s]; [congruence|].
  inversion F as [|? ? [Hx _] _]; subst. simpl.
  unfold nondot at 1. destruct (Ascii.eqb_spec x Path.extsep); [congruence|].
  reflexivity.
Qed.

(** The extension of a new name: a dot, then neither dots nor
    separators, all in lower case. *)
Lemma new_ext_shape p :
  exists e, new_ext p = Path.extsep :: e
            /\ ~ In Path.extsep e /\ ~ In Path.sep e
            /\ Text.lower (new_ext p) = new_ext p.
Proof.
  unfold new_ext.
  destruct (splitext_ext_shape p) as [-> | (e & -> & Hd & Hs)].
  - simpl. exists (txt "jpg"). repeat split; intros I; simpl in I;
      repeat (destruct I as [I|I]; [discriminate I|]); exact I.
  - cbn [snd].
    change (Text.lower (Path.extsep :: e)) with (Path.extsep :: Text.lower e).
    cbn [Text.eqb]. exists (Text.lower e). repeat split.
    + rewrite in_lower_dot; exact Hd.
    + rewrite in_lower_sep; exact Hs.
    + change (Path.extsep :: Text.lower e)
        with (Text.lower (Path.extsep :: e)).
      apply lower_idem.
Qed.

(** [splitext] finds the extension the loop gave to a new name, in
    whatever directory the name stands. *)
Lemma splitext_new_filename d t c p :
  dir_prefix d ->
  Path.splitext (d ++ new_filename t c p) = (d ++ stem t c, new_ext p).
Proof.
  intros D. rewrite new_filename_stem.
  destruct (new_ext_shape p) as (e & -> & Hd & Hs & _).
  rewrite splitext_decomp; auto.
  - rewrite stem_nondot; reflexivity.
  - apply plain_no_sep, stem_plain.
Qed.

Lemma new_filename_no_sep t c p : ~ In Path.sep (new_filename t c p).
Proof.
  rewrite new_filename_stem.
  destruct (new_ext_shape p) as (e & -> & _ & Hs & _).
  intros I. apply in_app_or in I. destruct I as [I|[I|I]].
  - revert I; apply plain_no_sep, stem_plain.
  - discriminate I.
  - auto.
Qed.

Lemma new_ext_new_filename d t c p :
  dir_prefix d -> new_ext (d ++ new_filename t c p) = new_ext p.
Proof.
  intros D. unfold new_ext at 1. rewrite splitext_new_filename by exact D.
  cbn [snd]. destruct (new_ext_shape p) as (e & E & _ & _ & L).
  rewrite L, E. reflexivity.
Qed.

Lemma assigned_in items :
  forall c p name,
    In (p, name) (assigned c items) ->
    exists t k, In (t, p) items /\ name = new_filename t k p /\ c <= k
                /\ k < c + N.of_nat (length items).
Proof.
  induction items as [|[t0 p0] items IH]; intros c p name I;
    [destruct I|].
  cbn [assigned] in I. destruct I as [I|I].
  - injection I as <- <-. exists t0, c. repeat split; auto.
    + left; reflexivity.
    + lia.
    + simpl length. lia.
  - destruct (IH _ _ _ I) as (t & k & It & -> & L & U).
    exists t, k. repeat split; auto.
    + right; exact It.
    + lia.
    + simpl length. lia.
Qed.

End NameFacts.

(** C8. The extension of every new name is the lower-cased extension of
    the old path, and [.jpg] when the old path has none. *)
Theorem extension_is_normalized :
  forall (strptime : text -> option datetime) (os : platform)
         (now : datetime) (cd : text) (fs : filesystem),
  exists n st,
    process_category strptime os now cd fs = Ok (n, st)
    /\ forall old name,
         In (old, name) (st_assigned st) ->
         snd (Path.splitext name)
         = if Text.eqb (snd (Path.splitext old)) [] then txt ".jpg"
           else Text.lower (snd (Path.splitext old)).
Proof.
  intros. eexists _, _. split; [apply process_category_ok|].
  cbn [st_assigned]. intros old name I.
  apply NameFacts.assigned_in in I. destruct I as (t & k & _ & -> & _).
  change (new_filename t k old) with ([] ++ new_filename t k old).
  rewrite NameFacts.splitext_new_filename by (left; reflexivity).
  cbn [snd]. unfold new_ext.
  destruct (snd (Path.splitext old)); reflexivity.
Qed.

Lemma extension_is_normalized_witness :
  exists n st,
    process_category Exif.strptime Posix new_year travel
      [(txt "photos/travel/IMG_0001.JPEG",
        plain_file (at_ 2023 5 1 10 0 0) 1)]
    = Ok (n, st)
    /\ st_assigned st
       = [(txt "photos/travel/IMG_0001.JPEG", txt "2023-05-01-001.jpeg")]
    /\ snd (Path.splitext (txt "2023-05-01-001.jpeg")) = txt ".jpeg".
Proof.
  destruct (extension_is_normalized Exif.strptime Posix new_year travel
              [(txt "photos/travel/IMG_0001.JPEG",
                plain_file (at_ 2023 5 1 10 0 0) 1)])
    as (n & st & E & H).
  exists n, st. split; [exact E|].
  assert (st_assigned st
          = [(txt "photos/travel/IMG_0001.JPEG",
              txt "2023-05-01-001.jpeg")]) as A.
  { vm_compute in E. injection E as _ <-. reflexivity. }
  split; [exact A|].
  apply (H (txt "photos/travel/IMG_0001.JPEG")).
  rewrite A. left; reflexivity.
Defined.

(** ** A directory of a thousand photos *)

(** The run on a burst of 1000 photos: the last two turns of the loop. *)
Lemma burst_last_names :
  exists st,
    process_category Exif.strptime Posix new_year travel (burst 1000)
    = Ok (1000, st)
    /\ skipn 998 (st_assigned st)
       = [(txt "photos/travel/IMG_0999.jpg", txt "2024-01-01-999.jpg");
          (txt "photos/travel/IMG_1000.jpg", txt "2024-01-01-1000.jpg")].
Proof.
  rewrite process_category_ok. eexists. split.
  - rewrite sorted_files_length.
    replace (length (image_files travel (burst 1000))) with 1000%nat
      by (vm_compute; reflexivity).
    reflexivity.
  - cbn [st_assigned]. vm_compute; reflexivity.
Qed.

(** ** Names and dates in order *)

Module OrderFacts.
Import TextFacts FmtFacts DatetimeFacts SortFacts NameFacts.

Lemma printable_bounds t :
  Datetime.printable t = true ->
  1000 <= year t <= 9999 /\ 1 <= month t <= 12 /\ 1 <= day t <= 31.
Proof.
  unfold Datetime.printable, Datetime.valid.
  rewrite !andb_true_iff, !N.leb_le. lia.
Qed.

Lemma strftime_date_fixed t :
  Datetime.printable t = true ->
  Datetime.strftime_date t
  = Fmt.fixed 4 (year t) ++ txt "-" ++ Fmt.fixed 2 (month t)
    ++ txt "-" ++ Fmt.fixed 2 (day t).
Proof.
  intros V. apply printable_bounds in V. unfold Datetime.strftime_date.
  rewrite !zero_pad_fixed; [reflexivity| | |].
  - change (10 ^ N.of_nat 2) with 100; lia.
  - change (10 ^ N.of_nat 2) with 100; lia.
  - change (10 ^ N.of_nat 4) with 10000; lia.
Qed.

Lemma strftime_date_length t :
  Datetime.printable t = true ->
  length (Datetime.strftime_date t) = 10%nat.
Proof.
  intros V. rewrite strftime_date_fixed by exact V.
  rewrite !length_app, !fixed_length. reflexivity.
Qed.

Lemma counter_fixed k : k <= 999 -> Fmt.zero_pad 3 k = Fmt.fixed 3 k.
Proof.
  intros H. apply zero_pad_fixed. change (10 ^ N.of_nat 3) with 1000. lia.
Qed.

(** Comparing two texts that start with a number of one width. *)
Lemma lex_fixed_app w a b r1 r2 :
  a < 10 ^ N.of_nat w -> b < 10 ^ N.of_nat w ->
  Text.lex (Text.codes (Fmt.fixed w a ++ r1))
           (Text.codes (Fmt.fixed w b ++ r2))
  = match a ?= b with
    | Eq => Text.lex (Text.codes r1) (Text.codes r2)
    | c => c
    end.
Proof.
  intros Ha Hb. rewrite !codes_app.
  rewrite lex_app by (rewrite !codes_length, !fixed_length; reflexivity).
  rewrite lex_fixed by assumption. reflexivity.
Qed.

Lemma lex_dash r1 r2 :
  Text.lex (Text.codes (txt "-" ++ r1)) (Text.codes (txt "-" ++ r2))
  = Text.lex (Text.codes r1) (Text.codes r2).
Proof. reflexivity. Qed.

(** A name with an earlier or equal day and a smaller number sorts
    first. *)
Lemma name_lt t1 t2 k1 k2 p1 p2 :
  Datetime.printable t1 = true -> Datetime.printable t2 = true ->
  Text.lex (Datetime.date t1) (Datetime.date t2) <> Gt ->
  k1 < k2 -> k2 <= 999 ->
  Text.lt (new_filename t1 k1 p1) (new_filename t2 k2 p2).
Proof.
  intros V1 V2 D K1 K2. unfold Text.lt, Text.compare, new_filename.
  rewrite !strftime_date_fixed by assumption.
  rewrite !counter_fixed by lia.
  apply printable_bounds in V1, V2.
  rewrite <- !app_assoc.
  rewrite lex_fixed_app by (change (10 ^ N.of_nat 4) with 10000; lia).
  rewrite lex_dash.
  rewrite lex_fixed_app by (change (10 ^ N.of_nat 2) with 100; lia).
  rewrite lex_dash.
  rewrite lex_fixed_app by (change (10 ^ N.of_nat 2) with 100; lia).
  rewrite lex_dash.
  rewrite lex_fixed_app by (change (10 ^ N.of_nat 3) with 1000; lia).
  apply N.compare_lt_iff in K1. rewrite K1.
  unfold Datetime.date in D. simpl in D.
  destruct (year t1 ?= year t2); try congruence;
    destruct (month t1 ?= month t2); try congruence;
    destruct (day t1 ?= day t2); congruence.
Qed.

(** Along a date-sorted list the new names go up. *)
Lemma assigned_names_sorted items :
  forall c,
    StronglySorted by_date items -> printable_items items ->
    c + N.of_nat (length items) <= 1000 ->
    StronglySorted Text.lt (map snd (assigned c items)).
Proof.
  induction items as [|[t p] items IH]; intros c S V B; [constructor|].
  cbn [assigned map snd]. inversion S as [|? ? S' F]; subst.
  inversion V as [|? ? Vt V']; subst. cbn [fst] in Vt.
  simpl length in B.
  constructor; [apply IH; auto; lia|].
  apply Forall_forall. intros name I. apply in_map_iff in I.
  destruct I as ([p' n'] & <- & I). cbn [snd].
  apply assigned_in in I. destruct I as (t' & k & It & -> & L & U).
  rewrite Forall_forall in F, V'.
  apply name_lt; auto.
  - apply (V' _ It).
  - apply leb_date. apply (F _ It).
  - lia.
  - lia.
Qed.

(** Of two files with different dates the earlier gets the smaller
    name. *)
Lemma assigned_pairs_ordered (date_of : text -> datetime) items :
  forall c,
    StronglySorted by_date items -> printable_items items ->
    c + N.of_nat (length items) <= 1000 ->
    Forall (fun x => fst x = date_of (snd x)) items ->
    forall A nameA B nameB,
      In (A, nameA) (assigned c items) ->
      In (B, nameB) (assigned c items) ->
      Datetime.ltb (date_of A) (date_of B) = true ->
      Text.lt nameA nameB.
Proof.
  induction items as [|[t p] items IH]; intros c S V Bd D A nA B nB IA IB L;
    [destruct IA|].
  pose proof (assigned_names_sorted _ c S V Bd) as N.
  cbn [assigned map snd] in N. inversion N as [|? ? _ FN]; subst.
  rewrite Forall_forall in FN.
  inversion S as [|? ? S' F]; subst. inversion V as [|? ? Vt V']; subst.
  inversion D as [|? ? Dt D']; subst. cbn [fst snd] in Dt.
  simpl length in Bd. cbn [assigned] in IA, IB.
  destruct IA as [IA|IA], IB as [IB|IB].
  - injection IA as <- <-. injection IB as <- <-.
    rewrite ltb_irrefl in L; discriminate.
  - injection IA as <- <-. apply FN.
    apply in_map_iff. exists (B, nB); auto.
  - injection IB as <- <-. exfalso.
    apply assigned_in in IA. destruct IA as (tA & k & It & _).
    rewrite Forall_forall in F, D'.
    pose proof (F _ It) as Le. pose proof (D' _ It) as EA.
    unfold by_date in Le. cbn [fst snd] in *. subst t tA.
    apply leb_false in L. congruence.
  - apply (IH (c + 1)) with (A := A) (B := B); auto. lia.
Qed.

End OrderFacts.

(** ** Image files and their extensions *)

Module ImageFacts.
Import TextFacts PathFacts FmtFacts NameFacts OrderFacts.

Lemma listdir_in d fs name :
  In name (FS.listdir d fs) ->
  name <> [] /\ ~ In Path.sep name /\ In (Path.join d name) (FS.paths fs).
Proof.
  unfold FS.listdir. rewrite in_flat_map. intros ([q f] & I & H).
  cbn [fst] in H.
  destruct (negb (Text.eqb (Path.basename q) [])) eqn:E1; [|destruct H].
  destruct (Text.eqb (Path.join d (Path.basename q)) q) eqn:E2;
    [|destruct H].
  destruct H as [<-|[]].
  apply negb_true_iff, eqb_neq in E1. apply eqb_eq in E2.
  repeat split; auto.
  - apply basename_no_sep.
  - rewrite E2. apply (in_map fst _ _ I).
Qed.

Lemma image_files_in d fs p :
  In p (image_files d fs) ->
  exists name, p = Path.join d name /\ name <> [] /\ ~ In Path.sep name
               /\ is_image name = true /\ In p (FS.paths fs).
Proof.
  unfold image_files. rewrite in_map_iff. intros (name & <- & I).
  apply filter_In in I. destruct I as [I M].
  apply listdir_in in I. destruct I as (N & S & P).
  exists name; auto.
Qed.

(** A suffix the extension test accepts: a dot, then lower-case letters
    that [lower] leaves alone. *)
Lemma suffix_shape suf :
  In suf image_suffixes ->
  exists e, suf = Path.extsep :: e /\ ~ In Path.extsep e
            /\ ~ In Path.sep e.
Proof.
  intros [<-|[<-|[<-|[]]]]; eexists; (split; [reflexivity|]);
    split; intros I; simpl in I;
    repeat (destruct I as [I|I]; [discriminate I|]); exact I.
Qed.

(** The new extension of an image file is one of the three suffixes. *)
Lemma new_ext_image d name :
  dir_prefix d -> ~ In Path.sep name -> is_image name = true ->
  In (new_ext (d ++ name)) image_suffixes.
Proof.
  intros D S M. unfold is_image, Text.endswith_any in M.
  apply existsb_exists in M. destruct M as (suf & Isuf & E).
  apply endswith_app in E. destruct E as [r E].
  unfold Text.lower in E. apply map_eq_app in E.
  destruct E as (pre & s & -> & _ & Es).
  destruct (suffix_shape suf Isuf) as (e & -> & Hd & Hs).
  destruct s as [|c0 rest]; [discriminate Es|].
  cbn [map] in Es. injection Es as E0 Er.
  apply (proj1 (lower_char_dot c0)) in E0. subst c0.
  assert (~ In Path.extsep rest) as Rd
    by (rewrite <- in_lower_dot; unfold Text.lower; rewrite Er; exact Hd).
  assert (~ In Path.sep rest) as Rs
    by (rewrite <- in_lower_sep; unfold Text.lower; rewrite Er; exact Hs).
  assert (~ In Path.sep pre) as Ps
    by (intros I; apply S, in_or_app; left; exact I).
  unfold new_ext. rewrite splitext_decomp by assumption.
  destruct (existsb nondot pre); cbn [snd].
  - change (Text.lower (Path.extsep :: rest))
      with (Path.extsep :: map Text.lower_char rest).
    rewrite Er. cbn [Text.eqb]. exact Isuf.
  - left; reflexivity.
Qed.

Lemma image_file_ext d fs p :
  In p (image_files d fs) -> In (new_ext p) image_suffixes.
Proof.
  intros I. apply image_files_in in I.
  destruct I as (name & -> & _ & S & M & _).
  destruct (join_shape d name (no_sep_startswith name S)) as (d' & -> & D).
  apply new_ext_image; assumption.
Qed.

Lemma fixed_4 n :
  Fmt.fixed 4 n
  = [Fmt.digit_char (n / 10 / 10 / 10 mod 10);
     Fmt.digit_char (n / 10 / 10 mod 10);
     Fmt.digit_char (n / 10 mod 10); Fmt.digit_char (n mod 10)].
Proof. reflexivity. Qed.

Lemma fixed_3 n :
  Fmt.fixed 3 n
  = [Fmt.digit_char (n / 10 / 10 mod 10);
     Fmt.digit_char (n / 10 mod 10); Fmt.digit_char (n mod 10)].
Proof. reflexivity. Qed.

Lemma fixed_2 n :
  Fmt.fixed 2 n
  = [Fmt.digit_char (n / 10 mod 10); Fmt.digit_char (n mod 10)].
Proof. reflexivity. Qed.

(** With a four-digit year and a number up to 999, a new name with an
    image extension has the expected form. *)
Lemma new_filename_pattern t k p :
  Datetime.printable t = true -> k <= 999 ->
  In (new_ext p) image_suffixes ->
  output_pattern (new_filename t k p) = true.
Proof.
  intros V K E. unfold new_filename.
  rewrite strftime_date_fixed by exact V.
  rewrite counter_fixed by exact K.
  rewrite fixed_4, !fixed_2, fixed_3.
  change (txt "-") with ["-"%char]. cbn [app].
  unfold output_pattern.
  rewrite !digit_char_is_digit by apply mod10_lt.
  cbn [andb Ascii.eqb Bool.eqb].
  apply existsb_exists. exists (new_ext p). split; [exact E|].
  apply eqb_refl.
Qed.

End ImageFacts.

Lemma in_skipn_in {A} (x : A) n l : In x (skipn n l) -> In x l.
Proof.
  revert l; induction n as [|n IH]; intros [|y l] I; simpl in *; auto.
Qed.

Section OrderedNames.

Variable strptime : text -> option datetime.
Variable now : datetime.

(** The premises of the ordering results, on the list the loop walks. *)
Lemma sorted_files_ready cd fs :
  (length (image_files cd fs) <= 999)%nat ->
  (forall p, In p (image_files cd fs) ->
             Datetime.printable (photo_date strptime now fs p) = true) ->
  printable_items (sorted_files strptime now cd fs)
  /\ 1 + N.of_nat (length (sorted_files strptime now cd fs)) <= 1000
  /\ Forall (fun x => fst x = photo_date strptime now fs (snd x))
            (sorted_files strptime now cd fs).
Proof.
  intros B V. pose proof (sorted_files_dated strptime now cd fs) as D.
  repeat split.
  - eapply Forall_impl; [|exact D]. intros x [-> I]. apply V, I.
  - rewrite sorted_files_length. lia.
  - eapply Forall_impl; [|exact D]. intros x [E _]; exact E.
Qed.

End OrderedNames.

(** ** The file system under renames *)

Module FSFacts.
Import TextFacts.

Lemma lookup_none p fs : FS.lookup p fs = None <-> ~ In p (FS.paths fs).
Proof.
  induction fs as [|[q f] fs IH]; simpl.
  - split; auto.
  - destruct (Text.eqb q p) eqn:E.
    + apply eqb_eq in E. split; [discriminate|]. intros H; exfalso; auto.
    + apply eqb_neq in E. rewrite IH. split.
      * intros H [F|F]; auto.
      * intros H F; auto.
Qed.

Lemma lookup_some p fs :
  In p (FS.paths fs) -> exists f, FS.lookup p fs = Some f.
Proof.
  intros I. destruct (FS.lookup p fs) eqn:E; eauto.
  apply lookup_none in E. contradiction.
Qed.

Lemma exists_false p fs :
  FS.exists_ p fs = false <-> ~ In p (FS.paths fs).
Proof.
  unfold FS.exists_. rewrite <- lookup_none.
  destruct (FS.lookup p fs); split; congruence.
Qed.

Lemma rekey_same p fs : FS.rekey p p fs = fs.
Proof.
  unfold FS.rekey. induction fs as [|[q f] fs IH]; simpl; auto.
  rewrite IH. destruct (Text.eqb q p) eqn:E; auto.
  apply eqb_eq in E; subst; reflexivity.
Qed.

(** [os.rename] onto the file itself or onto a free path moves the entry,
    on either platform. *)
Lemma rename_free os fs p q :
  In p (FS.paths fs) -> q = p \/ ~ In q (FS.paths fs) ->
  FS.rename os fs p q = Ok (FS.rekey p q fs).
Proof.
  intros Ip H. unfold FS.rename.
  destruct (lookup_some p fs Ip) as [f ->].
  destruct (Text.eqb p q) eqn:E.
  - apply eqb_eq in E; subst. rewrite rekey_same; reflexivity.
  - apply eqb_neq in E. destruct H as [->|H]; [congruence|].
    apply exists_false in H. rewrite H. reflexivity.
Qed.

Lemma paths_rekey p q fs :
  FS.paths (FS.rekey p q fs)
  = map (fun x => if Text.eqb x p then q else x) (FS.paths fs).
Proof.
  unfold FS.paths, FS.rekey. rewrite !map_map. apply map_ext.
  intros [x f]; simpl. destruct (Text.eqb x p); reflexivity.
Qed.

Lemma in_paths_rekey p q fs x :
  In x (FS.paths (FS.rekey p q fs)) ->
  x = q \/ (x <> p /\ In x (FS.paths fs)).
Proof.
  rewrite paths_rekey, in_map_iff. intros (y & E & I).
  destruct (Text.eqb y p) eqn:C; [left; congruence|].
  apply eqb_neq in C. right; subst; auto.
Qed.

Lemma in_paths_rekey_other p q fs x :
  In x (FS.paths fs) -> x <> p -> In x (FS.paths (FS.rekey p q fs)).
Proof.
  intros I N. rewrite paths_rekey, in_map_iff. exists x; split; auto.
  apply eqb_neq in N. rewrite N; reflexivity.
Qed.

Lemma nodup_rekey p q fs :
  NoDup (FS.paths fs) -> q = p \/ ~ In q (FS.paths fs) ->
  NoDup (FS.paths (FS.rekey p q fs)).
Proof.
  intros N [->|H]; [rewrite rekey_same; exact N|].
  rewrite paths_rekey. induction (FS.paths fs) as [|x l IH]; simpl; auto.
  inversion N as [|? ? Nx Nl]; subst.
  assert (~ In q l) as Hl by (intros I; apply H; right; exact I).
  constructor; [|apply IH; auto].
  rewrite in_map_iff. intros (y & E & I).
  destruct (Text.eqb x p) eqn:Cx.
  - apply eqb_eq in Cx; subst x.
    destruct (Text.eqb y p) eqn:Cy.
    + apply eqb_eq in Cy; subst; auto.
    + subst y; auto.
  - destruct (Text.eqb y p) eqn:Cy.
    + subst x. apply H; left; reflexivity.
    + subst y; auto.
Qed.

(** Looking up a moved path in the moved file system. *)
Lemma lookup_move (g : text -> text) p fs :
  (forall x, In x (FS.paths fs) -> g x = g p -> x = p) ->
  FS.lookup (g p) (move_paths g fs) = FS.lookup p fs.
Proof.
  induction fs as [|[x f] fs IH]; intros Inj; simpl; auto.
  destruct (Text.eqb x p) eqn:E.
  - apply eqb_eq in E; subst. rewrite eqb_refl; reflexivity.
  - replace (Text.eqb (g x) (g p)) with false.
    + apply IH. intros y I; apply Inj; right; exact I.
    + symmetry. apply eqb_neq. intros G. apply eqb_neq in E. apply E.
      apply Inj; auto. left; reflexivity.
Qed.

Lemma paths_move g fs : FS.paths (move_paths g fs) = map g (FS.paths fs).
Proof. unfold FS.paths, move_paths. rewrite !map_map. reflexivity. Qed.

End FSFacts.

(** ** Names are never given twice *)

Module UniqueFacts.
Import TextFacts PathFacts FmtFacts NameFacts OrderFacts.

Lemma app_same_length {A} (a b r s : list A) :
  length a = length b -> a ++ r = b ++ s -> a = b /\ r = s.
Proof.
  revert b; induction a as [|x a IH]; intros [|y b] L E; try discriminate.
  - auto.
  - simpl in *. injection E as -> E. injection L as L.
    destruct (IH b L E) as [-> ->]; auto.
Qed.

(** Digits up to the first character that is none. *)
Lemma digit_prefix_unique a b x y r s :
  Forall (fun c => Fmt.is_digit c = true) a ->
  Forall (fun c => Fmt.is_digit c = true) b ->
  Fmt.is_digit x = false -> Fmt.is_digit y = false ->
  a ++ x :: r = b ++ y :: s -> a = b.
Proof.
  intros Fa; revert b; induction Fa as [|c a Hc Fa IH];
    intros b Fb Hx Hy E.
  - destruct b as [|d b]; auto. simpl in E. injection E as -> _.
    inversion Fb; congruence.
  - destruct b as [|d b]; simpl in E; injection E as -> E.
    + congruence.
    + inversion Fb; subst. f_equal. eapply IH; eauto.
Qed.

Lemma new_filename_counter t1 t2 k1 k2 p1 p2 :
  Datetime.printable t1 = true -> Datetime.printable t2 = true ->
  new_filename t1 k1 p1 = new_filename t2 k2 p2 -> k1 = k2.
Proof.
  intros V1 V2 E. unfold new_filename in E.
  apply app_same_length in E;
    [|rewrite !strftime_date_length by assumption; reflexivity].
  destruct E as [_ E]. simpl in E. injection E as E.
  destruct (new_ext_shape p1) as (e1 & E1 & _).
  destruct (new_ext_shape p2) as (e2 & E2 & _).
  rewrite E1, E2 in E.
  apply digit_prefix_unique in E; try reflexivity;
    try apply zero_pad_digits.
  apply zero_pad_inj in E. exact E.
Qed.

(** In the plan of one run no name stands for two files. *)
Lemma assigned_names_unique items :
  forall c,
    printable_items items ->
    forall o1 o2 n,
      In (o1, n) (assigned c items) -> In (o2, n) (assigned c items) ->
      o1 = o2.
Proof.
  induction items as [|[t p] items IH]; intros c V o1 o2 n I1 I2;
    [destruct I1|].
  inversion V as [|? ? Vt V']; subst. cbn [fst] in Vt.
  assert (forall o, In (o, new_filename t c p) (assigned (c + 1) items) ->
                    False) as Fresh.
  { intros o I. apply assigned_in in I.
    destruct I as (t' & k & It & E & L & _).
    unfold printable_items in V'. rewrite Forall_forall in V'.
    apply new_filename_counter in E; auto; [lia|]. apply (V' _ It). }
  cbn [assigned] in I1, I2. destruct I1 as [I1|I1], I2 as [I2|I2].
  - congruence.
  - injection I1 as <- <-. exfalso; eauto.
  - injection I2 as <- <-. exfalso; eauto.
  - eapply IH; eauto.
Qed.

End UniqueFacts.

(** ** A run without collisions *)

Module RunFacts.
Import TextFacts PathFacts NameFacts OrderFacts FSFacts UniqueFacts SortFacts.

Lemma rename_step_fs os cd st c t p fs' :
  FS.rename os (st_fs st) p (Path.join cd (new_filename t c p)) = Ok fs' ->
  st_fs (rename_step os cd st c (t, p)) = fs'.
Proof. intros E. unfold rename_step. rewrite E. reflexivity. Qed.

Lemma renamed_path_head cd p name plan x :
  renamed_path cd ((p, name) :: plan) x
  = if Text.eqb p x then Path.join cd name else renamed_path cd plan x.
Proof.
  unfold renamed_path. cbn [find fst]. destruct (Text.eqb p x); reflexivity.
Qed.

Lemma renamed_path_other cd plan x :
  ~ In x (map fst plan) -> renamed_path cd plan x = x.
Proof.
  intros H. unfold renamed_path.
  destruct (find (fun a => Text.eqb (fst a) x) plan) as [[o n]|] eqn:E; auto.
  apply find_some in E. destruct E as [I E]. cbn [fst] in E.
  apply eqb_eq in E; subst. exfalso. apply H.
  apply (in_map fst _ _ I).
Qed.

Lemma renamed_path_in cd plan x :
  In x (map fst plan) ->
  exists name, In (x, name) plan
               /\ renamed_path cd plan x = Path.join cd name.
Proof.
  intros I. unfold renamed_path.
  destruct (find (fun a => Text.eqb (fst a) x) plan) as [[o n]|] eqn:E.
  - apply find_some in E. destruct E as [Io E]. cbn [fst] in E.
    apply eqb_eq in E; subst. eauto.
  - exfalso. apply in_map_iff in I. destruct I as ([o n] & <- & I).
    apply (find_none _ _ E) in I. cbn [fst] in I.
    rewrite eqb_refl in I. discriminate.
Qed.

Lemma join_new_filename_inj cd t1 k1 p1 t2 k2 p2 :
  Path.join cd (new_filename t1 k1 p1) = Path.join cd (new_filename t2 k2 p2)
  -> new_filename t1 k1 p1 = new_filename t2 k2 p2.
Proof. apply join_inj; apply new_filename_no_sep. Qed.

Lemma collision_free_step cd t p items c fs :
  collision_free cd ((t, p) :: items) c fs ->
  collision_free cd items (c + 1)
    (FS.rekey p (Path.join cd (new_filename t c p)) fs).
Proof.
  intros [Np Ni Vd Th Fr].
  inversion Ni as [|? ? Hp Ni']; subst.
  inversion Vd as [|? ? Vt Vd']; subst.
  assert (Path.join cd (new_filename t c p) = p
          \/ ~ In (Path.join cd (new_filename t c p)) (FS.paths fs)) as Hq
    by (apply Fr; left; reflexivity).
  split; auto.
  - apply nodup_rekey; auto.
  - intros x I. apply in_paths_rekey_other.
    + apply Th; right; exact I.
    + intros ->. apply Hp, I.
  - intros old name I.
    destruct (Fr old name (or_intror I)) as [E|H]; [left; exact E|].
    right. intros J. apply in_paths_rekey in J.
    destruct J as [J|[_ J]]; [|contradiction].
    pose proof I as I'. apply assigned_in in I'.
    destruct I' as (t' & k & _ & -> & _).
    apply join_new_filename_inj in J.
    assert (old = p) as ->.
    { apply (assigned_names_unique ((t, p) :: items) c Vd
               old p (new_filename t c p)).
      - right. rewrite <- J. exact I.
      - left; reflexivity. }
    apply Hp. rewrite <- assigned_old_paths with (c := (c + 1)).
    apply (in_map fst _ _ I).
Qed.

(** Without collision the loop moves every file to its new path and
    leaves the rest of the file system alone. *)
Lemma loop_renames os cd items :
  forall c st,
    collision_free cd items c (st_fs st) ->
    st_fs (fst (rename_loop os cd st c items))
    = move_paths (renamed_path cd (assigned c items)) (st_fs st).
Proof.
  induction items as [|[t p] items IH]; intros c st CF.
  - cbn [rename_loop fst assigned]. unfold move_paths.
    rewrite <- (map_id (st_fs st)) at 1. apply map_ext.
    intros [x f]; reflexivity.
  - rewrite rename_loop_cons.
    assert (st_fs (rename_step os cd st c (t, p))
            = FS.rekey p (Path.join cd (new_filename t c p)) (st_fs st))
      as Efs.
    { apply rename_step_fs, rename_free.
      - apply (cf_there CF); left; reflexivity.
      - destruct (cf_fresh CF p (new_filename t c p)) as [E|H]; auto.
        left; reflexivity. }
    pose proof (collision_free_step _ _ _ _ _ _ CF) as CF'.
    rewrite IH by (rewrite Efs; exact CF').
    rewrite Efs. unfold move_paths, FS.rekey. rewrite map_map.
    apply map_ext. intros [x f]. cbn [fst snd assigned].
    rewrite renamed_path_head. rewrite (eqb_sym p x).
    destruct (Text.eqb x p) eqn:E; cbn [fst snd]; [|reflexivity].
    f_equal. apply renamed_path_other.
    rewrite assigned_old_paths. intros I.
    pose proof (cf_items CF) as Ni. inversion Ni as [|? ? Hp _]; subst.
    destruct (cf_fresh CF p (new_filename t c p)) as [Eq|H];
      [left; reflexivity| |].
    + apply Hp. rewrite <- Eq. exact I.
    + apply H. apply (cf_there CF). right; exact I.
Qed.

(** When every file already stands at its new path, the loop changes
    nothing. *)
Lemma loop_fixed os cd items :
  forall c st,
    (forall old name, In (old, name) (assigned c items) ->
                      Path.join cd name = old
                      /\ In old (FS.paths (st_fs st))) ->
    st_fs (fst (rename_loop os cd st c items)) = st_fs st.
Proof.
  induction items as [|[t p] items IH]; intros c st H; [reflexivity|].
  rewrite rename_loop_cons.
  assert (st_fs (rename_step os cd st c (t, p)) = st_fs st) as Efs.
  { destruct (H p (new_filename t c p)) as [E I]; [left; reflexivity|].
    apply rename_step_fs. rewrite E. rewrite rename_free; auto.
    rewrite rekey_same; reflexivity. }
  rewrite IH; [exact Efs|].
  intros old name I. rewrite Efs. apply H. right; exact I.
Qed.

End RunFacts.

(** ** The second run *)

Module RerunFacts.
Import TextFacts PathFacts NameFacts OrderFacts FSFacts UniqueFacts SortFacts
       ImageFacts RunFacts.

Lemma image_files_filter d fs :
  image_files d fs = filter (is_image_path d) (FS.paths fs).
Proof.
  unfold image_files, FS.listdir, FS.paths.
  induction fs as [|[x f] fs IH]; [reflexivity|].
  cbn [flat_map map filter fst]. rewrite filter_app, map_app, IH.
  unfold is_image_path.
  destruct (negb (Text.eqb (Path.basename x) [])); [|reflexivity].
  destruct (Text.eqb (Path.join d (Path.basename x)) x) eqn:E;
    [|reflexivity].
  cbn [andb filter]. destruct (is_image (Path.basename x)); [|reflexivity].
  apply eqb_eq in E. cbn [map app]. rewrite E. reflexivity.
Qed.

Lemma image_files_nodup d fs :
  NoDup (FS.paths fs) -> NoDup (image_files d fs).
Proof. rewrite image_files_filter. apply NoDup_filter. Qed.

Lemma is_image_new_filename t k p :
  In (new_ext p) image_suffixes -> is_image (new_filename t k p) = true.
Proof.
  intros I. unfold is_image, Text.endswith_any.
  apply existsb_exists. exists (new_ext p). split; [exact I|].
  apply endswith_app. exists (Text.lower (stem t k)).
  rewrite new_filename_stem, lower_app.
  destruct (new_ext_shape p) as (e & _ & _ & _ & L). rewrite L.
  reflexivity.
Qed.

Lemma new_filename_nonempty t k p : new_filename t k p <> [].
Proof.
  rewrite new_filename_stem. destruct (new_ext_shape p) as (e & -> & _).
  intros H. apply app_eq_nil in H. destruct H as [_ H]. discriminate H.
Qed.

(** A new name, put in the directory, is an image file of it. *)
Lemma is_image_path_new d t k p :
  In (new_ext p) image_suffixes ->
  is_image_path d (Path.join d (new_filename t k p)) = true.
Proof.
  intros I. unfold is_image_path.
  rewrite basename_join by apply new_filename_no_sep.
  rewrite eqb_refl, is_image_new_filename by exact I.
  replace (Text.eqb (new_filename t k p) []) with false; [reflexivity|].
  symmetry; apply eqb_neq, new_filename_nonempty.
Qed.

Lemma new_ext_joined d t k p :
  new_ext (Path.join d (new_filename t k p)) = new_ext p.
Proof.
  destruct (join_shape d (new_filename t k p)
              (no_sep_startswith _ (new_filename_no_sep t k p)))
    as (d' & -> & D).
  apply new_ext_new_filename, D.
Qed.

Lemma in_fst_unique {A B} (l : list (A * B)) a b b' :
  NoDup (map fst l) -> In (a, b) l -> In (a, b') l -> b = b'.
Proof.
  induction l as [|[x y] l IH]; intros N I I'; [destruct I|].
  cbn [map fst] in N. inversion N as [|? ? Hx N']; subst.
  destruct I as [I|I], I' as [I'|I'].
  - congruence.
  - injection I as -> ->. exfalso. apply Hx. apply (in_map fst _ _ I').
  - injection I' as -> ->. exfalso. apply Hx. apply (in_map fst _ _ I).
  - eauto.
Qed.

Lemma filter_map_same {A} (P : A -> bool) (g : A -> A) l :
  (forall x, In x l -> P (g x) = P x) ->
  filter P (map g l) = map g (filter P l).
Proof.
  induction l as [|x l IH]; intros H; [reflexivity|].
  cbn [map filter]. rewrite H by (left; reflexivity).
  rewrite IH by (intros y I; apply H; right; exact I).
  destruct (P x); reflexivity.
Qed.

(** Moving the old paths without touching their extensions leaves the
    new names as they are. *)
Lemma assigned_map (g : text -> text) items :
  forall c,
    (forall y, In y items -> new_ext (g (snd y)) = new_ext (snd y)) ->
    assigned c (map (fun y => (fst y, g (snd y))) items)
    = map (fun a => (g (fst a), snd a)) (assigned c items).
Proof.
  induction items as [|[t p] l IH]; intros c H; [reflexivity|].
  cbn [map assigned fst snd].
  rewrite IH by (intros y I; apply H; right; auto).
  pose proof (H (t, p) (or_introl eq_refl)) as E. cbn [snd] in E.
  unfold new_filename. rewrite E. reflexivity.
Qed.

Section Moved.

Variable cd : text.
Variable fs : filesystem.
Variable items : list (datetime * text).
Variable c : N.
Hypothesis CF : collision_free cd items c fs.
Hypothesis images :
  forall x, In x (map snd items) <-> In x (image_files cd fs).

Local Abbreviation plan := (assigned c items).
Local Abbreviation moved := (renamed_path cd plan).

Lemma plan_paths : map fst plan = map snd items.
Proof. apply assigned_old_paths. Qed.

Lemma moved_image x :
  In x (image_files cd fs) ->
  exists t k, In (x, new_filename t k x) plan
              /\ moved x = Path.join cd (new_filename t k x).
Proof.
  intros I. apply images in I. rewrite <- plan_paths in I.
  destruct (renamed_path_in cd plan x I) as (name & Ip & E).
  pose proof Ip as Ia. apply assigned_in in Ia.
  destruct Ia as (t & k & _ & -> & _). eauto.
Qed.

Lemma moved_other x : ~ In x (image_files cd fs) -> moved x = x.
Proof.
  intros H. apply renamed_path_other. rewrite plan_paths, images. exact H.
Qed.

Lemma image_files_dec x :
  In x (image_files cd fs) \/ ~ In x (image_files cd fs).
Proof.
  destruct (in_dec (list_eq_dec ascii_dec) x (image_files cd fs)); auto.
Qed.

(** Moving is injective on the paths of the file system. *)
Lemma moved_inj x y :
  In x (FS.paths fs) -> In y (FS.paths fs) -> moved x = moved y -> x = y.
Proof.
  intros Ix Iy E.
  destruct (image_files_dec x) as [Hx|Hx], (image_files_dec y) as [Hy|Hy].
  - destruct (moved_image x Hx) as (t1 & k1 & P1 & E1).
    destruct (moved_image y Hy) as (t2 & k2 & P2 & E2).
    rewrite E1, E2 in E. apply join_new_filename_inj in E.
    rewrite E in P1.
    apply (assigned_names_unique items c (cf_dates CF) _ _ _ P1 P2).
  - destruct (moved_image x Hx) as (t1 & k1 & P1 & E1).
    rewrite (moved_other y Hy), E1 in E.
    destruct (cf_fresh CF _ _ P1) as [F|F]; [congruence|].
    rewrite E in F. contradiction.
  - destruct (moved_image y Hy) as (t2 & k2 & P2 & E2).
    rewrite (moved_other x Hx), E2 in E.
    destruct (cf_fresh CF _ _ P2) as [F|F]; [congruence|].
    rewrite <- E in F. contradiction.
  - rewrite (moved_other x Hx), (moved_other y Hy) in E. exact E.
Qed.

Lemma image_path_iff x :
  In x (FS.paths fs) ->
  (is_image_path cd x = true <-> In x (image_files cd fs)).
Proof.
  intros I. rewrite image_files_filter, filter_In. tauto.
Qed.

(** The image files of the moved file system are the moved image
    files. *)
Lemma image_files_moved :
  image_files cd (move_paths moved fs) = map moved (image_files cd fs).
Proof.
  rewrite !image_files_filter, paths_move.
  apply filter_map_same. intros x I.
  destruct (image_files_dec x) as [H|H].
  - destruct (moved_image x H) as (t & k & _ & ->).
    rewrite is_image_path_new by apply (image_file_ext cd fs), H.
    symmetry. apply image_path_iff; assumption.
  - rewrite moved_other by exact H. reflexivity.
Qed.

Lemma lookup_moved x :
  In x (FS.paths fs) ->
  FS.lookup (moved x) (move_paths moved fs) = FS.lookup x fs.
Proof.
  intros I. apply lookup_move. intros y Iy E. apply moved_inj; auto.
Qed.

(** Walking the moved files gives every file the name it has. *)
Lemma assigned_moved :
  assigned c (map (fun y => (fst y, moved (snd y))) items)
  = map (fun a => (moved (fst a), snd a)) plan.
Proof.
  apply assigned_map. intros [t p] I. cbn [snd].
  assert (In p (image_files cd fs)) as Ip
    by (apply images; apply (in_map snd _ _ I)).
  destruct (moved_image p Ip) as (t' & k' & _ & ->).
  apply new_ext_joined.
Qed.

Lemma moved_plan old name :
  In (old, name) plan -> moved old = Path.join cd name.
Proof.
  intros I.
  assert (In old (map fst plan)) as Io by apply (in_map fst _ _ I).
  destruct (renamed_path_in cd plan old Io) as (name' & I' & E).
  rewrite (in_fst_unique plan old name name'); auto.
  rewrite plan_paths. apply (cf_items CF).
Qed.

End Moved.

End RerunFacts.

(** ** Listings and sorted lists *)

Module ListingFacts.
Import TextFacts FSFacts DatetimeFacts SortFacts.

Lemma lookup_in p f fs : FS.lookup p fs = Some f -> In (p, f) fs.
Proof.
  induction fs as [|[q g] fs IH]; [discriminate|]. cbn [FS.lookup].
  destruct (Text.eqb q p) eqn:E.
  - apply eqb_eq in E. intros H; injection H as ->. left; congruence.
  - intros H; right; auto.
Qed.

Lemma in_lookup p f fs :
  NoDup (FS.paths fs) -> In (p, f) fs -> FS.lookup p fs = Some f.
Proof.
  induction fs as [|[q g] fs IH]; intros N I; [destruct I|].
  cbn [FS.paths map fst] in N. inversion N as [|? ? Hq N']; subst.
  cbn [FS.lookup]. destruct I as [I|I].
  - injection I as -> ->. rewrite eqb_refl. reflexivity.
  - destruct (Text.eqb q p) eqn:E; [|auto].
    apply eqb_eq in E; subst q. exfalso. apply Hq.
    apply (in_map fst _ _ I).
Qed.

(** With distinct paths, a lookup does not depend on the order of the
    entries. *)
Lemma lookup_perm fs fs' p :
  Permutation fs fs' -> NoDup (FS.paths fs) ->
  FS.lookup p fs' = FS.lookup p fs.
Proof.
  intros P N.
  assert (NoDup (FS.paths fs')) as N'
    by (eapply Permutation_NoDup; [apply Permutation_map, P | exact N]).
  destruct (FS.lookup p fs) as [f|] eqn:E.
  - apply in_lookup; auto. eapply Permutation_in; [exact P|].
    apply lookup_in, E.
  - destruct (FS.lookup p fs') as [f|] eqn:E'; auto.
    apply lookup_in in E'. apply Permutation_sym in P.
    apply (Permutation_in _ P) in E'. apply in_lookup in E'; auto.
    congruence.
Qed.

Lemma filter_perm {A} (f : A -> bool) l l' :
  Permutation l l' -> Permutation (filter f l) (filter f l').
Proof.
  induction 1 as [|x l l' P IH|x y l|l l' l'' P1 IH1 P2 IH2]; simpl.
  - constructor.
  - destruct (f x); auto.
  - destruct (f x), (f y); auto. apply perm_swap.
  - eapply perm_trans; eauto.
Qed.

Lemma leb_antisym a b :
  Datetime.leb a b = true -> Datetime.leb b a = true -> a = b.
Proof.
  unfold Datetime.leb, Datetime.compare.
  rewrite (lex_antisym (Datetime.fields a) (Datetime.fields b)).
  destruct (Text.lex (Datetime.fields a) (Datetime.fields b)) eqn:E;
    simpl; try discriminate.
  intros _ _. apply compare_eq. exact E.
Qed.

(** A list of items with distinct dates has one sorted arrangement. *)
Lemma sorted_unique a :
  forall b,
    StronglySorted by_date a -> StronglySorted by_date b ->
    Permutation a b -> NoDup (map fst a) -> a = b.
Proof.
  induction a as [|x a IH]; intros b Sa Sb P N.
  - apply Permutation_nil in P. congruence.
  - destruct b as [|y b];
      [apply Permutation_sym, Permutation_nil in P; discriminate|].
    inversion Sa as [|? ? Sa' Fa]; subst.
    inversion Sb as [|? ? Sb' Fb]; subst.
    cbn [map] in N. inversion N as [|? ? Hx N']; subst.
    assert (x = y) as ->.
    { assert (In x (y :: b)) as Ix
        by (eapply Permutation_in; [exact P | left; reflexivity]).
      assert (In y (x :: a)) as Iy
        by (eapply Permutation_in;
            [apply Permutation_sym, P | left; reflexivity]).
      destruct Ix as [->|Ix]; [reflexivity|].
      destruct Iy as [->|Iy]; [reflexivity|].
      rewrite Forall_forall in Fa, Fb.
      pose proof (Fa _ Iy) as L1. pose proof (Fb _ Ix) as L2.
      unfold by_date in L1, L2.
      pose proof (leb_antisym _ _ L1 L2) as E.
      exfalso. apply Hx. rewrite E. apply (in_map fst _ _ Iy). }
    f_equal. apply IH; auto. eapply Permutation_cons_inv, P.
Qed.

Lemma sort_perm_unique l l' :
  Permutation l l' -> NoDup (map fst l) ->
  sort_by_date l = sort_by_date l'.
Proof.
  intros P N. apply sorted_unique; try apply sort_sorted.
  - eapply perm_trans; [apply Permutation_sym, sort_perm|].
    eapply perm_trans; [exact P | apply sort_perm].
  - eapply Permutation_NoDup; [apply Permutation_map, sort_perm | exact N].
Qed.

End ListingFacts.

Module TextSortFacts.
Import TextFacts.

Lemma insert_text_perm x l : Permutation (x :: l) (insert_text x l).
Proof.
  induction l as [|y l IH]; simpl; auto.
  destruct (Text.compare x y); auto.
  eapply perm_trans; [apply perm_swap|]. auto.
Qed.

Lemma sort_text_perm l : Permutation l (sort_text l).
Proof.
  induction l as [|x l IH]; simpl; auto.
  eapply perm_trans; [|apply insert_text_perm]. auto.
Qed.

Lemma text_le_trans a b c : text_le a b -> text_le b c -> text_le a c.
Proof.
  unfold text_le, Text.compare. intros H1 H2.
  destruct (Text.lex (Text.codes a) (Text.codes b)) eqn:E1; [| |congruence];
    destruct (Text.lex (Text.codes b) (Text.codes c)) eqn:E2;
    try congruence.
  - apply lex_eq in E1. rewrite E1, E2. discriminate.
  - apply lex_eq in E1. rewrite E1, E2. discriminate.
  - apply lex_eq in E2. rewrite <- E2, E1. discriminate.
  - rewrite (lex_trans_lt _ _ _ E1 E2). discriminate.
Qed.

Lemma text_le_total a b : Text.compare a b = Gt -> text_le b a.
Proof.
  unfold text_le, Text.compare. intros H.
  rewrite (lex_antisym (Text.codes a) (Text.codes b)), H. discriminate.
Qed.

Lemma insert_text_sorted x l :
  StronglySorted text_le l -> StronglySorted text_le (insert_text x l).
Proof.
  induction 1 as [|y l S IH F]; simpl.
  - repeat constructor.
  - destruct (Text.compare x y) eqn:E.
    + constructor; [constructor; auto|].
      assert (text_le x y) as L by (unfold text_le; congruence).
      constructor; [exact L|].
      eapply Forall_impl; [|exact F]. intros z Hz.
      eapply text_le_trans; eauto.
    + constructor; [constructor; auto|].
      assert (text_le x y) as L by (unfold text_le; congruence).
      constructor; [exact L|].
      eapply Forall_impl; [|exact F]. intros z Hz.
      eapply text_le_trans; eauto.
    + constructor; auto.
      eapply Permutation_Forall; [apply insert_text_perm|].
      constructor; auto. apply text_le_total, E.
Qed.

Lemma sort_text_sorted l : StronglySorted text_le (sort_text l).
Proof.
  induction l; simpl; [constructor | apply insert_text_sorted; auto].
Qed.

End TextSortFacts.

(** ** Two runs *)

Section TwoRuns.
Import FSFacts RunFacts RerunFacts.

Variable strptime : text -> option datetime.
Variable os : platform.
Variables now1 now2 : datetime.
Variable cd : text.
Variable fs : filesystem.

Hypothesis distinct_paths : NoDup (FS.paths fs).
Hypothesis printable_dates :
  forall p, In p (image_files cd fs) ->
            Datetime.printable (photo_date strptime now1 fs p) = true.
Hypothesis same_dates :
  forall p, In p (image_files cd fs) ->
            photo_date strptime now2 fs p = photo_date strptime now1 fs p.
Hypothesis free_names :
  forall old name,
    In (old, name) (assigned 1 (sorted_files strptime now1 cd fs)) ->
    Path.join cd name = old \/ FS.exists_ (Path.join cd name) fs = false.

Local Abbreviation walked := (sorted_files strptime now1 cd fs).
Local Abbreviation moved := (renamed_path cd (assigned 1 walked)).

Lemma walked_images x :
  In x (map snd walked) <-> In x (image_files cd fs).
Proof.
  pose proof (sorted_files_paths strptime now1 cd fs) as P. split.
  - apply Permutation_in, Permutation_sym, P.
  - apply Permutation_in, P.
Qed.

Lemma walked_collision_free : collision_free cd walked 1 fs.
Proof.
  split.
  - exact distinct_paths.
  - eapply Permutation_NoDup; [apply sorted_files_paths|].
    apply image_files_nodup, distinct_paths.
  - eapply Forall_impl; [|apply sorted_files_dated].
    intros x [-> I]. apply printable_dates, I.
  - intros p I. apply walked_images in I.
    rewrite image_files_filter in I. apply filter_In in I. apply I.
  - intros old name I. destruct (free_names old name I) as [E|E]; auto.
    right. apply exists_false, E.
Qed.

Lemma first_run_fs :
  st_fs (final_state strptime os now1 cd fs) = move_paths moved fs.
Proof.
  unfold final_state, start_state. rewrite loop_renames; [reflexivity|].
  apply walked_collision_free.
Qed.

End TwoRuns.

Module GroupFacts.
Import TextFacts DatetimeFacts SortFacts ListingFacts.

Lemma eqb_same (t : datetime) : Datetime.eqb t t = true.
Proof. apply same_datetime. reflexivity. Qed.

(** Two lists sorted by date that hold, date by date, the same items in
    the same order are equal. *)
Lemma sorted_groups_unique a :
  forall b,
    StronglySorted by_date a -> StronglySorted by_date b ->
    (forall t, filter (fun y => Datetime.eqb (fst y) t) a
               = filter (fun y => Datetime.eqb (fst y) t) b) ->
    a = b.
Proof.
  induction a as [|x a IH]; intros b Sa Sb H.
  - destruct b as [|y b]; [reflexivity|].
    specialize (H (fst y)). cbn [filter] in H. rewrite eqb_same in H.
    discriminate H.
  - destruct b as [|y b].
    { specialize (H (fst x)). cbn [filter] in H. rewrite eqb_same in H.
      discriminate H. }
    inversion Sa as [|? ? Sa' Fa]; subst.
    inversion Sb as [|? ? Sb' Fb]; subst.
    assert (x = y) as ->.
    { pose proof (H (fst x)) as Hx. pose proof (H (fst y)) as Hy.
      cbn [filter] in Hx, Hy. rewrite eqb_same in Hx, Hy.
      destruct (Datetime.eqb (fst y) (fst x)) eqn:E;
        [injection Hx as Hx _; exact Hx|].
      destruct (Datetime.eqb (fst x) (fst y)) eqn:E';
        [injection Hy as Hy _; exact Hy|].
      assert (In x b) as Ix.
      { apply (proj1 (filter_In (fun y => Datetime.eqb (fst y) (fst x)) x b)).
        rewrite <- Hx. left; reflexivity. }
      assert (In y a) as Iy.
      { apply (proj1 (filter_In (fun z => Datetime.eqb (fst z) (fst y)) y a)).
        rewrite Hy. left; reflexivity. }
      rewrite Forall_forall in Fa, Fb.
      pose proof (leb_antisym _ _ (Fa _ Iy) (Fb _ Ix)) as Q.
      rewrite Q, eqb_same in E'. discriminate E'. }
    f_equal. apply IH; auto.
    intros t. specialize (H t). cbn [filter] in H.
    destruct (Datetime.eqb (fst y) t); [injection H as H|]; exact H.
Qed.

Lemma filter_with_dates (f : text -> datetime) (P : datetime -> bool) l :
  filter (fun y => P (fst y)) (map (fun p => (f p, p)) l)
  = map (fun p => (f p, p)) (filter (fun p => P (f p)) l).
Proof.
  induction l as [|p l IH]; [reflexivity|].
  cbn [map filter fst]. rewrite IH. destruct (P (f p)); reflexivity.
Qed.

(** Among items of pairwise distinct dates at most one has a given
    date. *)
Lemma filter_distinct_dates (f : text -> datetime) t l :
  NoDup (map f l) ->
  (length (filter (fun p => Datetime.eqb (f p) t) l) <= 1)%nat.
Proof.
  induction l as [|x l IH]; intros N; [simpl; lia|].
  cbn [map] in N. inversion N as [|? ? Hx N']; subst.
  cbn [filter]. destruct (Datetime.eqb (f x) t) eqn:E; [|auto].
  apply same_datetime in E.
  destruct (filter (fun p => Datetime.eqb (f p) t) l) as [|y r] eqn:F;
    [simpl; lia|].
  exfalso. apply Hx.
  assert (In y (filter (fun p => Datetime.eqb (f p) t) l)) as I
    by (rewrite F; left; reflexivity).
  apply filter_In in I. destruct I as [I Ey]. apply same_datetime in Ey.
  rewrite E, <- Ey. apply in_map, I.
Qed.

(** Files of pairwise distinct dates are in the same order within every
    date, however they are listed. *)
Lemma distinct_dates_same_order (f : text -> datetime) l l' :
  Permutation l l' -> NoDup (map f l) -> same_order_within_dates f l l'.
Proof.
  intros P N t.
  pose proof (filter_distinct_dates f t l N) as L.
  pose proof (filter_perm (fun p => Datetime.eqb (f p) t) l l' P) as Q.
  destruct (filter (fun p => Datetime.eqb (f p) t) l) as [|x [|y r]].
  - apply Permutation_nil in Q. congruence.
  - apply Permutation_length_1_inv in Q. congruence.
  - simpl in L. lia.
Qed.

End GroupFacts.

Section Relisted.
Import FSFacts RunFacts RerunFacts SortFacts ListingFacts GroupFacts.

Variable strptime : text -> option datetime.
Variable os : platform.
Variables now1 now2 : datetime.
Variable cd : text.
Variable fs : filesystem.

Hypothesis distinct_paths : NoDup (FS.paths fs).
Hypothesis printable_dates :
  forall p, In p (image_files cd fs) ->
            Datetime.printable (photo_date strptime now1 fs p) = true.
Hypothesis same_dates :
  forall p, In p (image_files cd fs) ->
            photo_date strptime now2 fs p = photo_date strptime now1 fs p.
Hypothesis free_names :
  forall old name,
    In (old, name) (assigned 1 (sorted_files strptime now1 cd fs)) ->
    Path.join cd name = old \/ FS.exists_ (Path.join cd name) fs = false.

Local Abbreviation walked := (sorted_files strptime now1 cd fs).
Local Abbreviation plan := (assigned 1 walked).
Local Abbreviation moved := (renamed_path cd plan).
Local Abbreviation CF :=
  (walked_collision_free strptime now1 cd fs distinct_paths printable_dates
     free_names).
Local Abbreviation WI := (walked_images strptime now1 cd fs).

(** The second listing: the files the first run left, in any order in
    which those of one date follow their numbers. *)
Variable fs2 : filesystem.
Hypothesis relisted : Permutation (move_paths moved fs) fs2.
Hypothesis ties :
  same_order_within_dates (photo_date strptime now2 fs2)
    (image_files cd fs2) (map (fun a => Path.join cd (snd a)) plan).

Lemma moved_paths_nodup : NoDup (FS.paths (move_paths moved fs)).
Proof.
  rewrite paths_move. apply NoDup_map_NoDup_ForallPairs; [|exact distinct_paths].
  intros x y Ix Iy E. apply (moved_inj cd fs walked 1 CF WI x y Ix Iy E).
Qed.

Lemma relisted_lookup p :
  FS.lookup p fs2 = FS.lookup p (move_paths moved fs).
Proof. apply lookup_perm; [exact relisted | apply moved_paths_nodup]. Qed.

Lemma relisted_date y :
  In y walked -> photo_date strptime now2 fs2 (moved (snd y)) = fst y.
Proof.
  intros I. pose proof (sorted_files_dated strptime now1 cd fs) as D.
  rewrite Forall_forall in D. destruct (D _ I) as [E Ip].
  rewrite E, <- (same_dates _ Ip). apply photo_date_lookup.
  rewrite relisted_lookup.
  apply (lookup_moved cd fs walked 1 CF WI).
  rewrite image_files_filter in Ip. apply filter_In in Ip. apply Ip.
Qed.

Lemma plan_new_paths :
  map (fun a => Path.join cd (snd a)) plan = map moved (map snd walked).
Proof.
  rewrite <- (assigned_old_paths walked 1), map_map.
  apply map_ext_in. intros [old name] I. cbn [fst snd]. symmetry.
  apply (moved_plan cd fs walked 1 CF), I.
Qed.

Lemma second_run_walk :
  sorted_files strptime now2 cd fs2
  = map (fun y => (fst y, moved (snd y))) walked.
Proof.
  apply sorted_groups_unique.
  - apply sort_sorted.
  - set (g := renamed_path cd _). unfold sorted_files.
    rewrite <- sort_map. apply sort_sorted.
  - intros t. unfold sorted_files at 1. rewrite sort_stable.
    rewrite (filter_with_dates (photo_date strptime now2 fs2)
               (fun d => Datetime.eqb d t)).
    rewrite (ties t), plan_new_paths.
    rewrite <- (filter_with_dates (photo_date strptime now2 fs2)
                  (fun d => Datetime.eqb d t)).
    f_equal. rewrite !map_map. apply map_ext_in. intros y I.
    rewrite (relisted_date y I). reflexivity.
Qed.

Lemma second_run_assigned :
  assigned 1 (sorted_files strptime now2 cd fs2)
  = map (fun a => (Path.join cd (snd a), snd a)) plan.
Proof.
  rewrite second_run_walk.
  rewrite (assigned_moved cd fs walked 1 WI).
  apply map_ext_in. intros [old name] I. cbn [fst snd]. f_equal.
  apply (moved_plan cd fs walked 1 CF), I.
Qed.

Lemma second_run_fs :
  st_fs (final_state strptime os now2 cd fs2) = fs2.
Proof.
  unfold final_state, start_state. rewrite loop_fixed; [reflexivity|].
  cbn [st_fs]. rewrite second_run_assigned. intros old name I.
  apply in_map_iff in I. destruct I as ([o n] & E & I).
  cbn [snd] in E. injection E as <- <-. split; [reflexivity|].
  eapply Permutation_in; [apply Permutation_map, relisted|].
  fold (FS.paths (move_paths moved fs)).
  rewrite paths_move, <- (moved_plan cd fs walked 1 CF o n I).
  apply in_map. apply (cf_there CF).
  rewrite <- assigned_old_paths with (c := 1).
  apply (in_map fst _ _ I).
Qed.

End Relisted.

(** C5, for a first run without collision and a second listing that keeps
    the files of one timestamp in the order of their numbers. If no name
    the first run assigns is already taken in the directory by another
    file, the files resolve to the same timestamps in the second run, and
    the second run finds the directory listed in any order in which the
    files of one timestamp follow each other as the first run numbered
    them, then the second run assigns every file the name it has, renames
    nothing and returns the same count. (Paths are distinct and years have
    four digits.) *)
Theorem second_run_changes_nothing :
  forall (strptime : text -> option datetime) (os : platform)
         (now1 now2 : datetime) (cd : text) (fs : filesystem),
    NoDup (FS.paths fs) ->
    (forall p, In p (image_files cd fs) ->
               Datetime.printable (photo_date strptime now1 fs p) = true) ->
    (forall p, In p (image_files cd fs) ->
               photo_date strptime now2 fs p
               = photo_date strptime now1 fs p) ->
    (forall old name,
        In (old, name) (assigned 1 (sorted_files strptime now1 cd fs)) ->
        Path.join cd name = old
        \/ FS.exists_ (Path.join cd name) fs = false) ->
    exists n st1,
      process_category strptime os now1 cd fs = Ok (n, st1)
      /\ forall fs2,
           Permutation (st_fs st1) fs2 ->
           same_order_within_dates
             (photo_date strptime now2 fs2) (image_files cd fs2)
             (map (fun a => Path.join cd (snd a)) (st_assigned st1)) ->
           exists st2,
             process_category strptime os now2 cd fs2 = Ok (n, st2)
             /\ st_fs st2 = fs2
             /\ st_assigned st2
                = map (fun a => (Path.join cd (snd a), snd a))
                      (st_assigned st1).
Proof.
  intros strptime os now1 now2 cd fs N V D F.
  eexists _, _. split; [apply process_category_ok|].
  cbn [st_fs st_assigned].
  rewrite (first_run_fs strptime os now1 cd fs N V F).
  intros fs2 P T. rewrite process_category_ok.
  rewrite (second_run_fs strptime os now1 now2 cd fs N V D F fs2 P T).
  rewrite (second_run_assigned strptime now1 now2 cd fs N V D F fs2 P T).
  rewrite (second_run_walk strptime now1 now2 cd fs N V D F fs2 P T).
  rewrite length_map.
  eexists. split; [reflexivity|]. split; reflexivity.
Qed.

Lemma second_run_changes_nothing_witness :
  exists n st1 st2,
    process_category Exif.strptime Posix new_year travel three_photos
    = Ok (n, st1)
    /\ process_category Exif.strptime Posix (at_ 2025 6 1 0 0 0) travel
         (rev (st_fs st1)) = Ok (n, st2)
    /\ st_fs st2 = rev (st_fs st1)
    /\ st_assigned st2
       = map (fun a => (Path.join travel (snd a), snd a)) (st_assigned st1).
Proof.
  assert (NoDup (FS.paths three_photos)) as N.
  { vm_compute.
    repeat (constructor;
            [intros I; simpl in I;
             repeat (destruct I as [I|I]; [discriminate I|]); exact I|]).
    constructor. }
  assert (forall p, In p (image_files travel three_photos) ->
                    Datetime.printable
                      (photo_date Exif.strptime new_year three_photos p)
                    = true) as V.
  { intros p I. vm_compute in I.
    repeat (destruct I as [<-|I]; [reflexivity|]). destruct I. }
  assert (forall p, In p (image_files travel three_photos) ->
                    photo_date Exif.strptime (at_ 2025 6 1 0 0 0)
                               three_photos p
                    = photo_date Exif.strptime new_year three_photos p) as D.
  { intros p I. vm_compute in I.
    repeat (destruct I as [<-|I]; [reflexivity|]). destruct I. }
  assert (forall old name,
             In (old, name)
                (assigned 1 (sorted_files Exif.strptime new_year travel
                               three_photos)) ->
             Path.join travel name = old
             \/ FS.exists_ (Path.join travel name) three_photos = false)
    as F.
  { intros old name I. vm_compute in I.
    repeat (destruct I as [I|I];
            [injection I as <- <-; right; reflexivity|]).
    destruct I. }
  destruct (second_run_changes_nothing
              Exif.strptime Posix new_year (at_ 2025 6 1 0 0 0)
              travel three_photos N V D F) as (n & st1 & E & H).
  vm_compute in E. injection E as En E1.
  destruct (H (rev (st_fs st1))) as (st2 & E2 & Q).
  - apply Permutation_rev.
  - apply GroupFacts.distinct_dates_same_order.
    + rewrite <- E1. vm_compute.
      apply perm_swap.
    + rewrite <- E1. vm_compute.
      repeat (constructor;
              [intros I; simpl in I;
               repeat (destruct I as [I|I]; [discriminate I|]); exact I|]).
      constructor.
  - exists n, st1, st2. split; [|split; [exact E2 | exact Q]].
    rewrite <- En, <- E1. vm_compute. reflexivity.
Defined.

(** C5, as stated, fails in two ways. After a first run that met a
    collision the second run renames again, on either platform: on POSIX
    the first run of [collision_dir] leaves one file,
    [2024-01-05-002.jpg], and the second run renames it to
    [2024-01-01-001.jpg]; on Windows the first run leaves [a.jpg] in
    place, and the second run renames it. And after a first run without
    collision the second run swaps the names of two photos of the same
    second when the directory lists them in the other order: on POSIX the
    first rename replaces the photo that held the name (contents 1), and
    one file is left; on Windows both renames raise. *)
Lemma second_run_renames_again :
  (exists st1 st2,
      process_category Exif.strptime Posix new_year travel collision_dir
      = Ok (2, st1)
      /\ process_category Exif.strptime Posix new_year travel (st_fs st1)
         = Ok (1, st2)
      /\ FS.paths (st_fs st1) = [txt "photos/travel/2024-01-05-002.jpg"]
      /\ FS.paths (st_fs st2) = [txt "photos/travel/2024-01-01-001.jpg"]
      /\ st_fs st2 <> st_fs st1)
  /\ (exists st1 st2,
      process_category Exif.strptime Windows new_year travel collision_dir
      = Ok (2, st1)
      /\ process_category Exif.strptime Windows new_year travel (st_fs st1)
         = Ok (2, st2)
      /\ FS.paths (st_fs st1)
         = [txt "photos/travel/a.jpg";
            txt "photos/travel/2024-01-05-002.jpg"]
      /\ FS.paths (st_fs st2)
         = [txt "photos/travel/2024-01-01-001.jpg";
            txt "photos/travel/2024-01-05-002.jpg"]
      /\ st_fs st2 <> st_fs st1)
  /\ (exists st1 st2,
      process_category Exif.strptime Posix new_year travel same_second
      = Ok (2, st1)
      /\ st_fs st1
         = [(txt "photos/travel/2024-01-01-001.jpg",
             plain_file (at_ 2024 1 1 9 0 0) 1);
            (txt "photos/travel/2024-01-01-002.jpg",
             plain_file (at_ 2024 1 1 9 0 0) 2)]
      /\ process_category Exif.strptime Posix new_year travel
           (rev (st_fs st1)) = Ok (2, st2)
      /\ st_assigned st2
         = [(txt "photos/travel/2024-01-01-002.jpg",
             txt "2024-01-01-001.jpg");
            (txt "photos/travel/2024-01-01-001.jpg",
             txt "2024-01-01-002.jpg")]
      /\ st_fs st2
         = [(txt "photos/travel/2024-01-01-002.jpg",
             plain_file (at_ 2024 1 1 9 0 0) 2)])
  /\ (exists st1 st2,
      process_category Exif.strptime Windows new_year travel same_second
      = Ok (2, st1)
      /\ process_category Exif.strptime Windows new_year travel
           (rev (st_fs st1)) = Ok (2, st2)
      /\ st_assigned st2
         = [(txt "photos/travel/2024-01-01-002.jpg",
             txt "2024-01-01-001.jpg");
            (txt "photos/travel/2024-01-01-001.jpg",
             txt "2024-01-01-002.jpg")]
      /\ st_out st2
         = [Processing (txt "travel");
            RenameError (txt "photos/travel/2024-01-01-002.jpg")
                        FileExistsError;
            RenameError (txt "photos/travel/2024-01-01-001.jpg")
                        FileExistsError;
            BlankLine]).
Proof.
  split; [|split; [|split]].
  - eexists _, _.
    (split; [vm_compute; reflexivity|]);
    (split; [vm_compute; reflexivity|]);
    (split; [reflexivity|]); (split; [reflexivity|]);
    vm_compute; discriminate.
  - eexists _, _.
    (split; [vm_compute; reflexivity|]);
    (split; [vm_compute; reflexivity|]);
    (split; [reflexivity|]); (split; [reflexivity|]);
    vm_compute; discriminate.
  - eexists _, _.
    split; [vm_compute; reflexivity|]. split; [reflexivity|].
    split; [vm_compute; reflexivity|]. split; reflexivity.
  - eexists _, _.
    split; [vm_compute; reflexivity|].
    split; [vm_compute; reflexivity|]. split; reflexivity.
Qed.

(** ** The names on disk *)

Module DiskFacts.
Import TextFacts PathFacts DatetimeFacts TextSortFacts ImageFacts.

Lemma sorted_filter {A} (R : A -> A -> Prop) (f : A -> bool) l :
  StronglySorted R l -> StronglySorted R (filter f l).
Proof.
  induction 1 as [|x l S IH F]; [constructor|].
  cbn [filter]. destruct (f x); [|exact IH].
  constructor; [exact IH|].
  rewrite Forall_forall in *. intros y I. apply filter_In in I.
  apply F, I.
Qed.

Lemma sorted_weaken {A} (R S : A -> A -> Prop) l :
  StronglySorted R l ->
  (forall a b, In a l -> In b l -> R a b -> S a b) ->
  StronglySorted S l.
Proof.
  induction 1 as [|x l Q IH F]; intros H; [constructor|].
  constructor.
  - apply IH. intros a b Ia Ib. apply H; right; assumption.
  - rewrite Forall_forall in *. intros y I.
    apply H; [left; reflexivity | right; exact I | apply F, I].
Qed.

(** What the gallery lists are the names of the image files. *)
Lemma get_photos_in cd fs name :
  In name (get_photos cd fs) ->
  In name (FS.listdir cd fs) /\ is_image name = true.
Proof.
  unfold get_photos. intros I. apply filter_In in I. destruct I as [I E].
  split; [|exact E].
  eapply Permutation_in; [apply Permutation_sym, sort_text_perm | exact I].
Qed.

Lemma listed_image cd fs name :
  In name (FS.listdir cd fs) -> is_image name = true ->
  In (Path.join cd name) (image_files cd fs).
Proof.
  intros I E. unfold image_files. apply in_map, filter_In. auto.
Qed.

Lemma text_le_not_gt a b : text_le a b -> ~ Text.lt b a.
Proof.
  unfold text_le, Text.lt, Text.compare. intros H L.
  rewrite (lex_antisym (Text.codes b) (Text.codes a)) in H.
  rewrite L in H. apply H. reflexivity.
Qed.

End DiskFacts.

Section OnDisk.
Import FSFacts RunFacts RerunFacts SortFacts DatetimeFacts PathFacts
       NameFacts ImageFacts DiskFacts.

Variable strptime : text -> option datetime.
Variable os : platform.
Variable now : datetime.
Variable cd : text.
Variable fs : filesystem.

Hypothesis few_files : (length (image_files cd fs) <= 999)%nat.
Hypothesis distinct_paths : NoDup (FS.paths fs).
Hypothesis printable_dates :
  forall p, In p (image_files cd fs) ->
            Datetime.printable (photo_date strptime now fs p) = true.
Hypothesis free_names :
  forall old name,
    In (old, name) (assigned 1 (sorted_files strptime now cd fs)) ->
    Path.join cd name = old \/ FS.exists_ (Path.join cd name) fs = false.

Local Abbreviation walked := (sorted_files strptime now cd fs).
Local Abbreviation plan := (assigned 1 walked).
Local Abbreviation moved := (renamed_path cd plan).
Local Abbreviation CF :=
  (walked_collision_free strptime now cd fs distinct_paths printable_dates
     free_names).
Local Abbreviation WI := (walked_images strptime now cd fs).

(** Every image file is found under its new name after the run. *)
Lemma renamed_file A :
  In A (image_files cd fs) ->
  exists name f,
    In (A, name) plan
    /\ FS.lookup A fs = Some f
    /\ FS.lookup (Path.join cd name) (move_paths moved fs) = Some f.
Proof.
  intros I. apply WI in I.
  assert (In A (FS.paths fs)) as Ip by (apply (cf_there CF), I).
  rewrite <- (assigned_old_paths walked 1) in I.
  apply in_map_iff in I. destruct I as ([old name] & E & I).
  cbn [fst] in E. subst old.
  destruct (lookup_some A fs Ip) as [f Ef].
  exists name, f. split; [exact I|]. split; [exact Ef|].
  rewrite <- (moved_plan cd fs walked 1 CF A name I), <- Ef.
  apply (lookup_moved cd fs walked 1 CF WI), Ip.
Qed.

(** Every image name found after the run is the new name of an image
    file, which has the date that file had. *)
Lemma disk_name name :
  In name (FS.listdir cd (move_paths moved fs)) -> is_image name = true ->
  exists A,
    In (A, name) plan
    /\ photo_date strptime now (move_paths moved fs) (Path.join cd name)
       = photo_date strptime now fs A.
Proof.
  intros I E. pose proof (listed_image _ _ _ I E) as J.
  rewrite (image_files_moved cd fs walked 1 WI) in J.
  apply in_map_iff in J. destruct J as (A & EA & IA).
  destruct (renamed_file A IA) as (nm & f & Ip & Ef & Em).
  assert (name = nm) as ->.
  { rewrite (moved_plan cd fs walked 1 CF A nm Ip) in EA.
    apply listdir_in in I. destruct I as (_ & S & _).
    apply NameFacts.assigned_in in Ip.
    destruct Ip as (t & k & _ & -> & _).
    symmetry. apply (join_inj cd); auto. apply new_filename_no_sep. }
  exists A. split; [exact Ip|].
  apply photo_date_lookup. congruence.
Qed.

Lemma plan_pattern A name :
  In (A, name) plan -> output_pattern name = true.
Proof.
  intros I. apply NameFacts.assigned_in in I.
  destruct I as (t & k & It & -> & Lo & Up).
  pose proof (sorted_files_dated strptime now cd fs) as F.
  rewrite Forall_forall in F. destruct (F _ It) as [Et Ip].
  cbn [fst snd] in Et, Ip.
  apply new_filename_pattern.
  - rewrite Et. apply printable_dates, Ip.
  - rewrite sorted_files_length in Up. lia.
  - apply (image_file_ext cd fs), Ip.
Qed.

Lemma plan_ordered A nameA B nameB :
  In (A, nameA) plan -> In (B, nameB) plan ->
  Datetime.ltb (photo_date strptime now fs A) (photo_date strptime now fs B)
  = true ->
  Text.lt nameA nameB.
Proof.
  destruct (sorted_files_ready strptime now cd fs few_files printable_dates)
    as (P & L & D).
  apply (OrderFacts.assigned_pairs_ordered
           (photo_date strptime now fs)); auto.
  apply sort_sorted.
Qed.

Lemma disk_order :
  StronglySorted
    (fun a b =>
       Datetime.leb
         (photo_date strptime now (move_paths moved fs) (Path.join cd a))
         (photo_date strptime now (move_paths moved fs) (Path.join cd b))
       = true)
    (get_photos cd (move_paths moved fs)).
Proof.
  apply (sorted_weaken text_le).
  - apply sorted_filter, TextSortFacts.sort_text_sorted.
  - intros a b Ia Ib L.
    apply get_photos_in in Ia, Ib.
    destruct Ia as [Ia Ea]. destruct Ib as [Ib Eb].
    destruct (disk_name a Ia Ea) as (A & PA & DA).
    destruct (disk_name b Ib Eb) as (B & PB & DB).
    rewrite DA, DB.
    destruct (Datetime.leb (photo_date strptime now fs A)
                           (photo_date strptime now fs B)) eqn:E;
      [reflexivity|].
    apply leb_false in E.
    exfalso. apply (text_le_not_gt a b L).
    apply (plan_ordered B b A a PB PA E).
Qed.

End OnDisk.

(** C6, for a run without collision in a directory of up to 999 image
    files. If no name the run assigns is already taken in the directory by
    another file, then of two image files with resolved timestamps
    [tA < tB] the first is found, after the run, under a name that is
    lexicographically smaller than the name under which the second is
    found. (Paths are distinct and years have four digits.) *)
Theorem renamed_files_follow_dates :
  forall (strptime : text -> option datetime) (os : platform)
         (now : datetime) (cd : text) (fs : filesystem),
    (length (image_files cd fs) <= 999)%nat ->
    NoDup (FS.paths fs) ->
    (forall p, In p (image_files cd fs) ->
               Datetime.printable (photo_date strptime now fs p) = true) ->
    (forall old name,
        In (old, name) (assigned 1 (sorted_files strptime now cd fs)) ->
        Path.join cd name = old
        \/ FS.exists_ (Path.join cd name) fs = false) ->
    exists n st,
      process_category strptime os now cd fs = Ok (n, st)
      /\ forall A B,
           In A (image_files cd fs) -> In B (image_files cd fs) ->
           Datetime.ltb (photo_date strptime now fs A)
                        (photo_date strptime now fs B) = true ->
           exists nameA nameB fA fB,
             In (A, nameA) (st_assigned st)
             /\ In (B, nameB) (st_assigned st)
             /\ FS.lookup A fs = Some fA
             /\ FS.lookup (Path.join cd nameA) (st_fs st) = Some fA
             /\ FS.lookup B fs = Some fB
             /\ FS.lookup (Path.join cd nameB) (st_fs st) = Some fB
             /\ Text.lt nameA nameB.
Proof.
  intros strptime os now cd fs B N V F.
  eexists _, _. split; [apply process_category_ok|].
  cbn [st_fs st_assigned].
  rewrite (first_run_fs strptime os now cd fs N V F).
  intros a b Ia Ib L.
  destruct (renamed_file strptime now cd fs N V F a Ia)
    as (nameA & fA & PA & EA & MA).
  destruct (renamed_file strptime now cd fs N V F b Ib)
    as (nameB & fB & PB & EB & MB).
  exists nameA, nameB, fA, fB. repeat (split; [assumption|]).
  apply (plan_ordered strptime now cd fs B V a nameA b nameB PA PB L).
Qed.

Lemma renamed_files_follow_dates_witness :
  exists n st,
    process_category Exif.strptime Posix new_year travel three_photos
    = Ok (n, st)
    /\ exists nameA nameB fA fB,
         In (txt "photos/travel/b.jpg", nameA) (st_assigned st)
         /\ In (txt "photos/travel/c.jpg", nameB) (st_assigned st)
         /\ FS.lookup (txt "photos/travel/b.jpg") three_photos = Some fA
         /\ FS.lookup (Path.join travel nameA) (st_fs st) = Some fA
         /\ FS.lookup (txt "photos/travel/c.jpg") three_photos = Some fB
         /\ FS.lookup (Path.join travel nameB) (st_fs st) = Some fB
         /\ Text.lt nameA nameB.
Proof.
  assert (length (image_files travel three_photos) <= 999)%nat as B
    by (apply Nat.leb_le; reflexivity).
  assert (NoDup (FS.paths three_photos)) as N.
  { vm_compute.
    repeat (constructor;
            [intros I; simpl in I;
             repeat (destruct I as [I|I]; [discriminate I|]); exact I|]).
    constructor. }
  assert (forall p, In p (image_files travel three_photos) ->
                    Datetime.printable
                      (photo_date Exif.strptime new_year three_photos p)
                    = true) as V.
  { intros p I. vm_compute in I.
    repeat (destruct I as [<-|I]; [reflexivity|]). destruct I. }
  assert (forall old name,
             In (old, name)
                (assigned 1 (sorted_files Exif.strptime new_year travel
                               three_photos)) ->
             Path.join travel name = old
             \/ FS.exists_ (Path.join travel name) three_photos = false)
    as F.
  { intros old name I. vm_compute in I.
    repeat (destruct I as [I|I];
            [injection I as <- <-; right; reflexivity|]).
    destruct I. }
  destruct (renamed_files_follow_dates
              Exif.strptime Posix new_year travel three_photos B N V F)
    as (n & st & E & H).
  exists n, st. split; [exact E|].
  apply H.
  - vm_compute. right; right; left; reflexivity.
  - vm_compute. left; reflexivity.
  - reflexivity.
Defined.

(** C6, as stated, fails in two ways. In a directory of 1000 photos, photo
    999 is older than photo 1000, and its name [2024-01-01-999.jpg] sorts
    after [2024-01-01-1000.jpg]. And in a directory of three files where
    the name due to the earliest photo [a.jpg] is held by the latest one,
    POSIX [os.rename] replaces the latest photo, and the last turn renames
    what then stands at that path: the photo of 2024-01-01 ends as
    [2024-01-05-003.jpg], after the photo of 2024-01-03 in
    [2024-01-03-002.jpg]. *)
Lemma later_name_for_earlier_photo :
  (exists n st A nameA B nameB,
      process_category Exif.strptime Posix new_year travel (burst 1000)
      = Ok (n, st)
      /\ In (A, nameA) (st_assigned st) /\ In (B, nameB) (st_assigned st)
      /\ Datetime.ltb (photo_date Exif.strptime new_year (burst 1000) A)
                      (photo_date Exif.strptime new_year (burst 1000) B)
         = true
      /\ ~ Text.lt nameA nameB)
  /\ (exists st,
      process_category Exif.strptime Posix new_year travel early_name_taken
      = Ok (3, st)
      /\ Datetime.ltb
           (photo_date Exif.strptime new_year early_name_taken
                       (txt "photos/travel/a.jpg"))
           (photo_date Exif.strptime new_year early_name_taken
                       (txt "photos/travel/c.jpg")) = true
      /\ st_fs st
         = [(txt "photos/travel/2024-01-05-003.jpg",
             plain_file (at_ 2024 1 1 9 0 0) 1);
            (txt "photos/travel/2024-01-03-002.jpg",
             plain_file (at_ 2024 1 3 8 0 0) 3)]
      /\ ~ Text.lt (txt "2024-01-05-003.jpg") (txt "2024-01-03-002.jpg")).
Proof.
  split.
  - destruct burst_last_names as (st & E & K).
    exists 1000, st,
      (txt "photos/travel/IMG_0999.jpg"), (txt "2024-01-01-999.jpg"),
      (txt "photos/travel/IMG_1000.jpg"), (txt "2024-01-01-1000.jpg").
    split; [exact E|].
    split; [apply (in_skipn_in _ 998); rewrite K; left; reflexivity|].
    split;
      [apply (in_skipn_in _ 998); rewrite K; right; left; reflexivity|].
    split; [vm_compute; reflexivity|].
    vm_compute; discriminate.
  - eexists. split; [vm_compute; reflexivity|].
    split; [reflexivity|]. split; [reflexivity|].
    vm_compute; discriminate.
Qed.

(** C7, for a run without collision in a directory of up to 999 image
    files. If no name the run assigns is already taken in the directory by
    another file, then every image name found in the directory after the
    run matches [^\d{4}-\d{2}-\d{2}-\d{3}\.(jpg|jpeg|png)$], and the image
    names taken in sorted order, as the gallery generator lists them, give
    the files in the order of their timestamps. (Paths are distinct and
    years have four digits.) *)
Theorem names_on_disk_match_pattern :
  forall (strptime : text -> option datetime) (os : platform)
         (now : datetime) (cd : text) (fs : filesystem),
    (length (image_files cd fs) <= 999)%nat ->
    NoDup (FS.paths fs) ->
    (forall p, In p (image_files cd fs) ->
               Datetime.printable (photo_date strptime now fs p) = true) ->
    (forall old name,
        In (old, name) (assigned 1 (sorted_files strptime now cd fs)) ->
        Path.join cd name = old
        \/ FS.exists_ (Path.join cd name) fs = false) ->
    exists n st,
      process_category strptime os now cd fs = Ok (n, st)
      /\ (forall name,
             In name (FS.listdir cd (st_fs st)) -> is_image name = true ->
             output_pattern name = true)
      /\ StronglySorted
           (fun a b =>
              Datetime.leb
                (photo_date strptime now (st_fs st) (Path.join cd a))
                (photo_date strptime now (st_fs st) (Path.join cd b))
              = true)
           (get_photos cd (st_fs st)).
Proof.
  intros strptime os now cd fs B N V F.
  eexists _, _. split; [apply process_category_ok|].
  cbn [st_fs st_assigned].
  rewrite (first_run_fs strptime os now cd fs N V F).
  split.
  - intros name I E.
    destruct (disk_name strptime now cd fs N V F name I E) as (A & P & _).
    apply (plan_pattern strptime now cd fs B V A name P).
  - apply (disk_order strptime now cd fs B N V F).
Qed.

Lemma names_on_disk_match_pattern_witness :
  exists n st,
    process_category Exif.strptime Posix new_year travel three_photos
    = Ok (n, st)
    /\ (forall name,
           In name (FS.listdir travel (st_fs st)) -> is_image name = true ->
           output_pattern name = true)
    /\ StronglySorted
         (fun a b =>
            Datetime.leb
              (photo_date Exif.strptime new_year (st_fs st)
                          (Path.join travel a))
              (photo_date Exif.strptime new_year (st_fs st)
                          (Path.join travel b))
            = true)
         (get_photos travel (st_fs st)).
Proof.
  apply (names_on_disk_match_pattern
           Exif.strptime Posix new_year travel three_photos).
  - apply Nat.leb_le; reflexivity.
  - vm_compute.
    repeat (constructor;
            [intros I; simpl in I;
             repeat (destruct I as [I|I]; [discriminate I|]); exact I|]).
    constructor.
  - intros p I. vm_compute in I.
    repeat (destruct I as [<-|I]; [reflexivity|]). destruct I.
  - intros old name I. vm_compute in I.
    repeat (destruct I as [I|I];
            [injection I as <- <-; right; reflexivity|]).
    destruct I.
Defined.

(** C7, as stated, fails in two ways. In a directory of 1000 photos the
    last one is named [2024-01-01-1000.jpg], with four digits in its
    number, and that name sorts before the name of the photo taken just
    before it. And in a directory of three files where the name due to the
    earliest photo is held by the latest one, the names left on disk,
    taken in sorted order, give the photos against the order of their
    timestamps on POSIX; on Windows the earliest photo keeps the name
    [a.jpg], which does not match the pattern and sorts last. *)
Lemma names_on_disk_break_contract :
  (exists n st old name,
      process_category Exif.strptime Posix new_year travel (burst 1000)
      = Ok (n, st)
      /\ In (old, name) (st_assigned st)
      /\ output_pattern name = false
      /\ ~ StronglySorted Text.lt (map snd (skipn 998 (st_assigned st))))
  /\ (exists st,
      process_category Exif.strptime Posix new_year travel early_name_taken
      = Ok (3, st)
      /\ get_photos travel (st_fs st)
         = [txt "2024-01-03-002.jpg"; txt "2024-01-05-003.jpg"]
      /\ map (fun name => photo_date Exif.strptime new_year (st_fs st)
                                     (Path.join travel name))
             (get_photos travel (st_fs st))
         = [at_ 2024 1 3 8 0 0; at_ 2024 1 1 9 0 0])
  /\ (exists st,
      process_category Exif.strptime Windows new_year travel
                       early_name_taken
      = Ok (3, st)
      /\ get_photos travel (st_fs st)
         = [txt "2024-01-03-002.jpg"; txt "2024-01-05-003.jpg";
            txt "a.jpg"]
      /\ output_pattern (txt "a.jpg") = false
      /\ map (fun name => photo_date Exif.strptime new_year (st_fs st)
                                     (Path.join travel name))
             (get_photos travel (st_fs st))
         = [at_ 2024 1 3 8 0 0; at_ 2024 1 5 12 0 0; at_ 2024 1 1 9 0 0]).
Proof.
  split; [|split].
  - destruct burst_last_names as (st & E & K).
    exists 1000, st,
      (txt "photos/travel/IMG_1000.jpg"), (txt "2024-01-01-1000.jpg").
    split; [exact E|].
    split;
      [apply (in_skipn_in _ 998); rewrite K; right; left; reflexivity|].
    split; [reflexivity|].
    rewrite K. intros S. inversion S as [|? ? _ F]; subst.
    inversion F as [|? ? L _]; subst. vm_compute in L. discriminate L.
  - eexists. split; [vm_compute; reflexivity|].
    split; vm_compute; reflexivity.
  - eexists. split; [vm_compute; reflexivity|].
    split; [vm_compute; reflexivity|]. split; vm_compute; reflexivity.
Qed.

(** * Further properties of the script *)

(** ** What a run returns and prints *)

(** X1. [process_category] returns the number of image files the directory
    held when it was listed, whatever became of the renames. *)
Theorem returns_number_of_image_files :
  forall (strptime : text -> option datetime) (os : platform)
         (now : datetime) (cd : text) (fs : filesystem),
  exists st,
    process_category strptime os now cd fs
    = Ok (N.of_nat (length (image_files cd fs)), st).
Proof.
  intros. rewrite process_category_ok, sorted_files_length.
  eexists; reflexivity.
Qed.

Module OutputFacts.

Lemma rename_step_out os cd st c t p :
  exists line,
    st_out (rename_step os cd st c (t, p)) = st_out st ++ [line]
    /\ line_of line (p, new_filename t c p).
Proof.
  unfold rename_step.
  destruct (FS.rename os (st_fs st) p _) as [fs'|e]; eexists;
    (split; [reflexivity|]); [left | right]; eexists; reflexivity.
Qed.

Lemma rename_loop_out os cd items :
  forall c st,
  exists lines,
    st_out (fst (rename_loop os cd st c items)) = st_out st ++ lines
    /\ Forall2 line_of lines (assigned c items).
Proof.
  induction items as [|[t p] items IH]; intros c st.
  - exists []. split; [symmetry; apply app_nil_r | constructor].
  - rewrite rename_loop_cons.
    destruct (rename_step_out os cd st c t p) as (line & E & L).
    destruct (IH (c + 1) (rename_step os cd st c (t, p)))
      as (lines & E' & F).
    exists (line :: lines). split.
    + rewrite E', E, <- app_assoc. reflexivity.
    + constructor; assumption.
Qed.

End OutputFacts.

(** X2. A run prints the header, then what the date readers report for the
    image files in listing order (for a file, the EXIF reader's error if it
    raised, then the file date reader's error if it was called and raised),
    then one line for every image file in the order of the renames, either
    the rename with the old and the new name or the error with the old
    path, then a blank line. For a directory with one file that can neither
    be opened nor dated these are five lines. *)
Theorem one_line_per_file :
  (forall (strptime : text -> option datetime) (os : platform)
          (now : datetime) (cd : text) (fs : filesystem),
    exists n st lines,
      process_category strptime os now cd fs = Ok (n, st)
      /\ st_out st
         = Processing (Path.basename cd)
           :: flat_map (get_photo_date_stderr strptime fs) (image_files cd fs)
           ++ lines ++ [BlankLine]
      /\ Forall2 line_of lines (st_assigned st)
      /\ length lines = length (image_files cd fs))
  /\ (forall strptime fs p,
        get_photo_date_stderr strptime fs p
        = match exif_date_body strptime fs p with
          | Ok (Some _) => []
          | Ok None =>
              match FS.getmtime fs p with
              | Ok _ => []
              | Raise e => [FileDateError e]
              end
          | Raise e =>
              ExifReadError p e
              :: match FS.getmtime fs p with
                 | Ok _ => []
                 | Raise e' => [FileDateError e']
                 end
          end)
  /\ exists st,
       process_category Exif.strptime Posix new_year travel
         [(txt "photos/travel/x.jpg", broken_file)] = Ok (1, st)
       /\ st_out st
          = [Processing (txt "travel");
             ExifReadError (txt "photos/travel/x.jpg") OSError;
             FileDateError OSError;
             Renamed (txt "x.jpg") (txt "2025-01-01 00:00")
                     (txt "2025-01-01-001.jpg");
             BlankLine].
Proof.
  split; [|split].
  - intros. rewrite process_category_ok. cbn [st_out st_assigned].
    unfold final_state.
    destruct (OutputFacts.rename_loop_out os cd
                (sorted_files strptime now cd fs) 1
                (start_state strptime cd fs)) as (lines & E & F).
    eexists _, _, lines. split; [reflexivity|].
    rewrite E. unfold start_state, with_dates_stderr. cbn [st_out].
    cbn [app]. rewrite <- app_assoc. repeat split; auto.
    rewrite (Forall2_length F), assigned_length.
    apply sorted_files_length.
  - intros. unfold get_photo_date_stderr, get_exif_date_stderr,
      get_file_date_stderr, get_exif_date, try_except.
    destruct (exif_date_body strptime fs p) as [[d|]|e]; reflexivity.
  - eexists. split; [vm_compute; reflexivity|]. reflexivity.
Qed.

(** ** What a run leaves alone *)

Module KeepFacts.
Import TextFacts FSFacts.

Lemma lookup_rekey_other p src dst fs :
  p <> src -> p <> dst ->
  FS.lookup p (FS.rekey src dst fs) = FS.lookup p fs.
Proof.
  intros Hs Hd. unfold FS.rekey.
  induction fs as [|[q f] fs IH]; [reflexivity|].
  cbn [map fst snd]. destruct (Text.eqb q src) eqn:E; cbn [FS.lookup].
  - apply eqb_eq in E; subst q.
    replace (Text.eqb dst p) with false
      by (symmetry; apply eqb_neq; congruence).
    replace (Text.eqb src p) with false
      by (symmetry; apply eqb_neq; congruence).
    exact IH.
  - rewrite IH. reflexivity.
Qed.

Lemma lookup_remove_other p dst fs :
  p <> dst -> FS.lookup p (FS.remove dst fs) = FS.lookup p fs.
Proof.
  intros Hd. unfold FS.remove.
  induction fs as [|[q f] fs IH]; [reflexivity|].
  cbn [filter fst]. destruct (Text.eqb q dst) eqn:E; cbn [negb FS.lookup].
  - apply eqb_eq in E; subst q.
    replace (Text.eqb dst p) with false
      by (symmetry; apply eqb_neq; congruence).
    exact IH.
  - rewrite IH. reflexivity.
Qed.

(** Whatever [os.rename] does, it does to its two paths only. *)
Lemma rename_other os fs src dst fs' p :
  FS.rename os fs src dst = Ok fs' -> p <> src -> p <> dst ->
  FS.lookup p fs' = FS.lookup p fs.
Proof.
  unfold FS.rename. intros E Hs Hd.
  destruct (FS.lookup src fs); [|discriminate].
  destruct (Text.eqb src dst); [injection E as <-; reflexivity|].
  destruct (FS.exists_ dst fs).
  - destruct os; [|discriminate]. injection E as <-.
    rewrite lookup_rekey_other, lookup_remove_other; auto.
  - injection E as <-. apply lookup_rekey_other; auto.
Qed.

Lemma rename_step_other os cd st c t q p :
  p <> q -> p <> Path.join cd (new_filename t c q) ->
  FS.lookup p (st_fs (rename_step os cd st c (t, q)))
  = FS.lookup p (st_fs st).
Proof.
  intros Hs Hd. unfold rename_step.
  destruct (FS.rename os (st_fs st) q _) as [fs'|e] eqn:E; [|reflexivity].
  cbn [st_fs]. eapply rename_other; eauto.
Qed.

Lemma rename_loop_other os cd p items :
  forall c st,
    (forall t q, In (t, q) items ->
                 is_image_path cd q = true
                 /\ In (new_ext q) image_suffixes) ->
    is_image_path cd p = false ->
    FS.lookup p (st_fs (fst (rename_loop os cd st c items)))
    = FS.lookup p (st_fs st).
Proof.
  induction items as [|[t q] items IH]; intros c st H Hp; [reflexivity|].
  rewrite rename_loop_cons.
  rewrite IH; [|intros t' q' I; apply (H t' q'); right; exact I | exact Hp].
  destruct (H t q (or_introl eq_refl)) as [Hq He].
  apply rename_step_other.
  - intros ->. congruence.
  - intros ->.
    rewrite (RerunFacts.is_image_path_new cd t c q He) in Hp.
    discriminate.
Qed.

End KeepFacts.

Lemma final_state_other strptime os now cd fs p :
  is_image_path cd p = false ->
  FS.lookup p (st_fs (final_state strptime os now cd fs)) = FS.lookup p fs.
Proof.
  intros Hp. unfold final_state, start_state. rewrite KeepFacts.rename_loop_other; auto.
  intros t q I.
  pose proof (sorted_files_dated strptime now cd fs) as D.
  rewrite Forall_forall in D. destruct (D _ I) as [_ Iq]. cbn [snd] in Iq.
  split.
  - rewrite RerunFacts.image_files_filter in Iq.
    apply filter_In in Iq. apply Iq.
  - apply (ImageFacts.image_file_ext cd fs), Iq.
Qed.

(** X3. In a directory none of whose entries named like an image is a
    sub-directory, a run touches the image files and nothing else: every
    other path (a file with another extension, a file of another
    directory, a path that does not exist) leads to the same file after
    the run as before, on either platform. (A sub-directory named like an
    image is listed and renamed like a file, and the paths beneath it
    change.) *)
Theorem other_files_untouched :
  forall (strptime : text -> option datetime) (os : platform)
         (now : datetime) (cd : text) (fs : filesystem),
    image_entries_are_files cd (directories fs) = true ->
    exists n st,
      process_category strptime os now cd fs = Ok (n, st)
      /\ forall p, is_image_path cd p = false ->
                   FS.lookup p (st_fs st) = FS.lookup p fs.
Proof.
  intros strptime os now cd fs _. rewrite process_category_ok. eexists _, _.
  split; [reflexivity|]. cbn [st_fs]. intros p Hp.
  apply final_state_other, Hp.
Qed.

Lemma other_files_untouched_witness :
  exists n st,
    process_category Exif.strptime Posix new_year travel three_photos
    = Ok (n, st)
    /\ FS.lookup (txt "photos/travel/notes.txt") (st_fs st)
       = Some (plain_file (at_ 2024 1 1 7 0 0) 9).
Proof.
  destruct (other_files_untouched Exif.strptime Posix new_year travel
              three_photos eq_refl) as (n & st & E & H).
  exists n, st. split; [exact E|].
  rewrite (H (txt "photos/travel/notes.txt")); reflexivity.
Defined.

Module OnlyRenameFacts.
Import TextFacts.

Lemma files_rekey src dst fs : map snd (FS.rekey src dst fs) = map snd fs.
Proof.
  unfold FS.rekey. rewrite map_map. apply map_ext.
  intros [q f]; cbn [fst snd]. destruct (Text.eqb q src); reflexivity.
Qed.

Lemma files_remove dst fs f :
  In f (map snd (FS.remove dst fs)) -> In f (map snd fs).
Proof.
  unfold FS.remove. rewrite !in_map_iff. intros (e & E & I).
  apply filter_In in I. exists e; tauto.
Qed.

Lemma length_remove dst fs : (length (FS.remove dst fs) <= length fs)%nat.
Proof. apply filter_length_le. Qed.

Lemma kept_refl os fs : kept os fs fs.
Proof. repeat split; auto. Qed.

Lemma kept_trans os a b c : kept os a b -> kept os b c -> kept os a c.
Proof.
  intros (I1 & L1 & W1) (I2 & L2 & W2). repeat split; auto.
  - lia.
  - intros W. eapply perm_trans; [apply W1 | apply W2]; exact W.
Qed.

Lemma rename_kept os fs src dst fs' :
  FS.rename os fs src dst = Ok fs' -> kept os fs' fs.
Proof.
  unfold FS.rename. intros E.
  destruct (FS.lookup src fs); [|discriminate].
  destruct (Text.eqb src dst); [injection E as <-; apply kept_refl|].
  destruct (FS.exists_ dst fs).
  - destruct os; [|discriminate]. injection E as <-. repeat split.
    + intros x. rewrite files_rekey. apply files_remove.
    + unfold FS.rekey. rewrite length_map. apply length_remove.
    + discriminate.
  - injection E as <-. repeat split.
    + intros x. rewrite files_rekey. auto.
    + unfold FS.rekey. rewrite length_map. auto.
    + intros _. rewrite files_rekey. apply Permutation_refl.
Qed.

Lemma rename_loop_kept os cd items :
  forall c st, kept os (st_fs (fst (rename_loop os cd st c items))) (st_fs st).
Proof.
  induction items as [|[t p] items IH]; intros c st; [apply kept_refl|].
  rewrite rename_loop_cons. eapply kept_trans; [apply IH|].
  unfold rename_step.
  destruct (FS.rename os (st_fs st) p _) as [fs'|e] eqn:E;
    [|apply kept_refl].
  cbn [st_fs]. eapply rename_kept, E.
Qed.

End OnlyRenameFacts.

(** X4. A run only renames. Every file found after the run is a file that
    was there before, with the same EXIF data, modification time and
    contents, and there are no more files than before; under Windows
    [os.rename] the files after the run are exactly the files before, each
    as often as before, in whatever order the directory lists them. *)
Theorem run_only_renames :
  forall (strptime : text -> option datetime) (os : platform)
         (now : datetime) (cd : text) (fs : filesystem),
  exists n st,
    process_category strptime os now cd fs = Ok (n, st)
    /\ (forall f, In f (map snd (st_fs st)) -> In f (map snd fs))
    /\ (length (st_fs st) <= length fs)%nat
    /\ (os = Windows -> Permutation (map snd (st_fs st)) (map snd fs)).
Proof.
  intros. rewrite process_category_ok. eexists _, _.
  split; [reflexivity|]. cbn [st_fs]. unfold final_state.
  apply (OnlyRenameFacts.rename_loop_kept os cd
           (sorted_files strptime now cd fs) 1
           (start_state strptime cd fs)).
Qed.

Lemma run_only_renames_witness :
  exists n st,
    process_category Exif.strptime Windows new_year travel collision_dir
    = Ok (n, st)
    /\ Permutation (map snd (st_fs st))
                   [plain_file (at_ 2024 1 1 9 0 0) 1;
                    plain_file (at_ 2024 1 5 12 0 0) 2].
Proof.
  destruct (run_only_renames Exif.strptime Windows new_year travel
              collision_dir) as (n & st & E & _ & _ & H).
  exists n, st. split; [exact E|]. apply H. reflexivity.
Defined.

(** ** The names of one run *)

Lemma assigned_names_nodup items :
  forall c, printable_items items -> NoDup (map snd (assigned c items)).
Proof.
  induction items as [|[t p] items IH]; intros c V; [constructor|].
  inversion V as [|? ? Vt V']; subst. cbn [fst] in Vt.
  cbn [assigned map snd]. constructor; [|apply IH, V'].
  intros I. apply in_map_iff in I. destruct I as ([o n] & E & I).
  cbn [snd] in E. subst n. apply NameFacts.assigned_in in I.
  destruct I as (t' & k & It & E & L & _).
  unfold printable_items in V'. rewrite Forall_forall in V'.
  apply UniqueFacts.new_filename_counter in E; auto; [lia|].
  apply (V' _ It).
Qed.

(** X5. The new names of one run are pairwise distinct (for dates with
    four-digit years): two files of the directory never compete for a
    name, a name can only be taken by a file that bore it before. *)
Theorem new_names_distinct :
  forall (strptime : text -> option datetime) (os : platform)
         (now : datetime) (cd : text) (fs : filesystem),
    (forall p, In p (image_files cd fs) ->
               Datetime.printable (photo_date strptime now fs p) = true) ->
    exists n st,
      process_category strptime os now cd fs = Ok (n, st)
      /\ NoDup (map snd (st_assigned st)).
Proof.
  intros strptime os now cd fs V. rewrite process_category_ok.
  eexists _, _. split; [reflexivity|]. cbn [st_assigned].
  apply assigned_names_nodup.
  eapply Forall_impl; [|apply sorted_files_dated].
  intros x [-> I]. apply V, I.
Qed.

Lemma new_names_distinct_witness :
  exists n st,
    process_category Exif.strptime Posix new_year travel three_photos
    = Ok (n, st)
    /\ NoDup (map snd (st_assigned st)).
Proof.
  apply (new_names_distinct Exif.strptime Posix new_year travel
           three_photos).
  intros p I. vm_compute in I.
  repeat (destruct I as [<-|I]; [reflexivity|]). destruct I.
Defined.

(** ** A run without collision *)

Module CleanRunFacts.
Import FSFacts RunFacts.

Lemma renamed_lines_app a b :
  renamed_lines (a ++ b) = renamed_lines a ++ renamed_lines b.
Proof. apply filter_app. Qed.

(** The date readers print no rename line. *)
Lemma renamed_lines_dates strptime fs paths :
  renamed_lines (with_dates_stderr strptime fs paths) = [].
Proof.
  unfold with_dates_stderr.
  induction paths as [|p paths IH]; [reflexivity|].
  cbn [flat_map]. rewrite renamed_lines_app, IH, app_nil_r.
  unfold get_photo_date_stderr, get_exif_date_stderr, get_file_date_stderr.
  destruct (exif_date_body strptime fs p);
    destruct (get_exif_date strptime fs p) as [[d|]|e'];
    destruct (FS.getmtime fs p); reflexivity.
Qed.

(** Without collision every turn prints a rename. *)
Lemma loop_all_renamed os cd items :
  forall c st,
    collision_free cd items c (st_fs st) ->
    length (renamed_lines (st_out (fst (rename_loop os cd st c items))))
    = (length (renamed_lines (st_out st)) + length items)%nat.
Proof.
  induction items as [|[t p] items IH]; intros c st CF.
  - simpl. lia.
  - rewrite rename_loop_cons.
    assert (FS.rename os (st_fs st) p (Path.join cd (new_filename t c p))
            = Ok (FS.rekey p (Path.join cd (new_filename t c p)) (st_fs st)))
      as E.
    { apply rename_free.
      - apply (cf_there CF); left; reflexivity.
      - destruct (cf_fresh CF p (new_filename t c p)) as [E|H]; auto.
        left; reflexivity. }
    pose proof (collision_free_step _ _ _ _ _ _ CF) as CF'.
    rewrite IH.
    + unfold rename_step. rewrite E. cbn [st_out].
      rewrite renamed_lines_app, length_app. simpl. lia.
    + unfold rename_step. rewrite E. cbn [st_fs]. exact CF'.
Qed.

End CleanRunFacts.

(** X6. A run in which no new name is taken by another file renames every
    image file: the file that stood at an old path stands at the new path
    afterwards, and the value returned is the number of rename lines
    printed. (Paths are distinct and years have four digits.) *)
Theorem clean_run_renames_every_file :
  forall (strptime : text -> option datetime) (os : platform)
         (now : datetime) (cd : text) (fs : filesystem),
    NoDup (FS.paths fs) ->
    (forall p, In p (image_files cd fs) ->
               Datetime.printable (photo_date strptime now fs p) = true) ->
    (forall old name,
        In (old, name) (assigned 1 (sorted_files strptime now cd fs)) ->
        Path.join cd name = old
        \/ FS.exists_ (Path.join cd name) fs = false) ->
    exists n st,
      process_category strptime os now cd fs = Ok (n, st)
      /\ (forall old name,
             In (old, name) (st_assigned st) ->
             exists f, FS.lookup old fs = Some f
                       /\ FS.lookup (Path.join cd name) (st_fs st) = Some f)
      /\ n = N.of_nat (length (renamed_lines (st_out st))).
Proof.
  intros strptime os now cd fs N V F.
  pose proof (walked_collision_free strptime now cd fs N V F) as CF.
  rewrite process_category_ok. eexists _, _. split; [reflexivity|].
  cbn [st_fs st_out st_assigned]. split.
  - intros old name I.
    rewrite (first_run_fs strptime os now cd fs N V F).
    assert (In old (FS.paths fs)) as Io.
    { apply (cf_there CF).
      rewrite <- SortFacts.assigned_old_paths with (c := 1).
      apply (in_map fst _ _ I). }
    destruct (FSFacts.lookup_some old fs Io) as [f Ef].
    exists f. split; [exact Ef|].
    rewrite <- (RerunFacts.moved_plan _ _ _ _ CF old name I), <- Ef.
    apply (RerunFacts.lookup_moved _ _ _ _ CF
             (walked_images strptime now cd fs)), Io.
  - unfold final_state, start_state.
    rewrite CleanRunFacts.renamed_lines_app, length_app.
    rewrite CleanRunFacts.loop_all_renamed by exact CF.
    cbn [st_out]. change (renamed_lines (?a :: ?l)) with (renamed_lines l).
    rewrite CleanRunFacts.renamed_lines_dates.
    simpl. rewrite Nat.add_0_r. reflexivity.
Qed.

Lemma clean_run_renames_every_file_witness :
  exists n st,
    process_category Exif.strptime Posix new_year travel three_photos
    = Ok (n, st)
    /\ FS.lookup (txt "photos/travel/2024-01-01-002.jpg") (st_fs st)
       = Some (plain_file (at_ 2024 1 1 10 0 0) 2)
    /\ n = N.of_nat (length (renamed_lines (st_out st))).
Proof.
  assert (NoDup (FS.paths three_photos)) as N.
  { vm_compute.
    repeat (constructor;
            [intros I; simpl in I;
             repeat (destruct I as [I|I]; [discriminate I|]); exact I|]).
    constructor. }
  assert (forall p, In p (image_files travel three_photos) ->
                    Datetime.printable
                      (photo_date Exif.strptime new_year three_photos p)
                    = true) as V.
  { intros p I. vm_compute in I.
    repeat (destruct I as [<-|I]; [reflexivity|]). destruct I. }
  assert (forall old name,
             In (old, name)
                (assigned 1 (sorted_files Exif.strptime new_year travel
                               three_photos)) ->
             Path.join travel name = old
             \/ FS.exists_ (Path.join travel name) three_photos = false)
    as F.
  { intros old name I. vm_compute in I.
    repeat (destruct I as [I|I];
            [injection I as <- <-; right; reflexivity|]).
    destruct I. }
  destruct (clean_run_renames_every_file
              Exif.strptime Posix new_year travel three_photos N V F)
    as (n & st & E & H & C).
  exists n, st. split; [exact E|]. split; [|exact C].
  assert (In (txt "photos/travel/b.jpg", txt "2024-01-01-002.jpg")
             (st_assigned st)) as I.
  { vm_compute in E. injection E as _ <-. right; left; reflexivity. }
  destruct (H _ _ I) as (f & Ef & Ef').
  vm_compute in Ef. injection Ef as <-. exact Ef'.
Defined.

(** ** The EXIF reader on odd values *)

Lemma scan_tags_abort strptime tags pre tag_id post :
  Forall (undated strptime tags) pre ->
  dict_get tag_id tags = Some ExifOther ->
  scan_tags strptime tags (pre ++ tag_id :: post) = Raise TypeError.
Proof.
  intros F T. induction F as [|x pre Hx F IH]; cbn [app scan_tags].
  - rewrite T. reflexivity.
  - unfold undated in Hx.
    destruct (dict_get x tags) as [[s|]|]; [|destruct Hx|exact IH].
    unfold strptime_call. rewrite Hx. exact IH.
Qed.

(** X7. A date tag that holds something other than a string makes
    [strptime] raise [TypeError], which only the outer handler of
    [get_exif_date] catches: when the scan of the three tags meets such a
    value before any tag has parsed, the EXIF block is given up as a whole
    and the date of the file is used, even when a later tag holds a date
    that parses. *)
Theorem non_string_tag_discards_exif :
  forall (strptime : text -> option datetime) (now : datetime)
         (fs : filesystem) (p : text) (f : file)
         (tags : list (N * exif_value))
         (pre post : list N) (tag_id : N),
    FS.lookup p fs = Some f ->
    f_exif f = ExifDict tags ->
    date_tags = pre ++ tag_id :: post ->
    Forall (undated strptime tags) pre ->
    dict_get tag_id tags = Some ExifOther ->
    get_exif_date strptime fs p = Ok None
    /\ get_photo_date strptime now fs p = get_file_date now fs p.
Proof.
  intros strptime now fs p f tags pre post tag_id L E S F T.
  assert (get_exif_date strptime fs p = Ok None) as G.
  { unfold get_exif_date, exif_date_body, FS.getexif.
    rewrite L, E. unfold bind. rewrite S.
    rewrite (scan_tags_abort strptime tags pre tag_id post F T).
    reflexivity. }
  split; [exact G|]. unfold get_photo_date. rewrite G. reflexivity.
Qed.

Lemma non_string_tag_discards_exif_witness :
  get_photo_date Exif.strptime new_year
    [(txt "photos/travel/odd.jpg",
      exif_file [(36867, ExifStr (txt "not a date")); (306, ExifOther);
                 (36868, ExifStr (txt "2022:07:09 12:00:00"))]
                (at_ 2023 5 1 10 0 0) 4)]
    (txt "photos/travel/odd.jpg")
  = Ok (at_ 2023 5 1 10 0 0).
Proof.
  destruct (non_string_tag_discards_exif Exif.strptime new_year
              [(txt "photos/travel/odd.jpg",
                exif_file [(36867, ExifStr (txt "not a date"));
                           (306, ExifOther);
                           (36868, ExifStr (txt "2022:07:09 12:00:00"))]
                          (at_ 2023 5 1 10 0 0) 4)]
              (txt "photos/travel/odd.jpg") _ _ [36867] [36868] 306
              eq_refl eq_refl eq_refl)
    as [_ H].
  - repeat constructor.
  - reflexivity.
  - rewrite H. reflexivity.
Defined.

(** ** The clock *)

Lemma with_dates_ext strptime now1 now2 fs paths :
  (forall p, In p paths ->
             get_photo_date strptime now1 fs p
             = get_photo_date strptime now2 fs p) ->
  with_dates strptime now1 fs paths = with_dates strptime now2 fs paths.
Proof.
  induction paths as [|p paths IH]; intros H; [reflexivity|].
  cbn [with_dates]. rewrite (H p) by (left; reflexivity).
  rewrite IH by (intros q I; apply H; right; exact I). reflexivity.
Qed.

(** X8. The clock matters only for files whose modification time cannot
    be read: when [os.path.getmtime] succeeds on every image file of the
    directory, two runs started at different times on the same file
    system return the same count and leave the same file system, output
    and names. *)
Theorem clock_is_last_resort :
  forall (strptime : text -> option datetime) (os : platform)
         (now1 now2 : datetime) (cd : text) (fs : filesystem),
    (forall p, In p (image_files cd fs) ->
               exists t, FS.getmtime fs p = Ok t) ->
    process_category strptime os now1 cd fs
    = process_category strptime os now2 cd fs.
Proof.
  intros strptime os now1 now2 cd fs H. unfold process_category.
  rewrite (with_dates_ext strptime now1 now2); [reflexivity|].
  intros p I. destruct (H p I) as [t E].
  unfold get_photo_date, get_file_date. rewrite E. reflexivity.
Qed.

Lemma clock_is_last_resort_witness :
  process_category Exif.strptime Posix new_year travel three_photos
  = process_category Exif.strptime Posix (at_ 2030 6 1 0 0 0) travel
      three_photos.
Proof.
  apply clock_is_last_resort.
  intros p I. vm_compute in I.
  repeat (destruct I as [<-|I]; [eexists; reflexivity|]). destruct I.
Defined.

(** ** The order of the directory listing *)

(** X9. When the image files of a directory resolve to pairwise distinct
    timestamps, the names do not depend on the order in which [os.listdir]
    reports the entries: on any rearrangement of the same file system the
    run walks the files in the same order, assigns the same names and
    returns the same count. (Paths are distinct.) *)
Theorem listing_order_irrelevant_for_distinct_dates :
  forall (strptime : text -> option datetime) (os : platform)
         (now : datetime) (cd : text) (fs fs' : filesystem),
    Permutation fs fs' ->
    NoDup (FS.paths fs) ->
    NoDup (map (photo_date strptime now fs) (image_files cd fs)) ->
    exists n st st',
      process_category strptime os now cd fs = Ok (n, st)
      /\ process_category strptime os now cd fs' = Ok (n, st')
      /\ st_assigned st' = st_assigned st.
Proof.
  intros strptime os now cd fs fs' P N D.
  assert (sorted_files strptime now cd fs'
          = sorted_files strptime now cd fs) as E.
  { unfold sorted_files. symmetry. apply ListingFacts.sort_perm_unique.
    - rewrite (map_ext_in
                 (fun p => (photo_date strptime now fs' p, p))
                 (fun p => (photo_date strptime now fs p, p))).
      + apply Permutation_map.
        rewrite !RerunFacts.image_files_filter.
        apply ListingFacts.filter_perm, Permutation_map, P.
      + intros p _. f_equal. apply photo_date_lookup.
        apply ListingFacts.lookup_perm; assumption.
    - rewrite map_map. cbn [fst]. exact D. }
  rewrite !process_category_ok, E. eexists _, _, _.
  split; [reflexivity|]. split; reflexivity.
Qed.

Lemma listing_order_witness :
  exists n st st',
    process_category Exif.strptime Posix new_year travel three_photos
    = Ok (n, st)
    /\ process_category Exif.strptime Posix new_year travel
         (rev three_photos) = Ok (n, st')
    /\ st_assigned st' = st_assigned st.
Proof.
  apply listing_order_irrelevant_for_distinct_dates.
  - apply Permutation_rev.
  - vm_compute.
    repeat (constructor;
            [intros I; simpl in I;
             repeat (destruct I as [I|I]; [discriminate I|]); exact I|]).
    constructor.
  - vm_compute.
    repeat (constructor;
            [intros I; simpl in I;
             repeat (destruct I as [I|I]; [discriminate I|]); exact I|]).
    constructor.
Defined.

(** ** The entry point *)

Module CategoryFacts.
Import TextFacts PathFacts FSFacts.

Lemma disk_listdir_names d dk c :
  In c (Disk.listdir d dk) -> entry_name c.
Proof.
  unfold Disk.listdir. intros I. apply in_app_or in I.
  destruct I as [I|I].
  - apply in_flat_map in I. destruct I as (q & _ & I).
    destruct (negb (Text.eqb (Path.basename q) [])) eqn:E; [|destruct I].
    destruct (Text.eqb (Path.join d (Path.basename q)) q); [|destruct I].
    destruct I as [<-|[]]. split.
    + apply eqb_neq. apply negb_true_iff, E.
    + apply basename_no_sep.
  - apply ImageFacts.listdir_in in I. destruct I as (N & S & _).
    split; assumption.
Qed.

Lemma categories_names dk c : In c (categories dk) -> entry_name c.
Proof.
  unfold categories. intros I.
  apply (Permutation_in _ (Permutation_sym
                             (TextSortFacts.sort_text_perm _))) in I.
  apply filter_In in I. destruct I as [I _].
  apply disk_listdir_names in I. exact I.
Qed.

Lemma join_photos c :
  ~ In Path.sep c -> Path.join photos_dir c = txt "photos/" ++ c.
Proof.
  intros H. unfold Path.join.
  rewrite (no_sep_startswith c H). reflexivity.
Qed.

Lemma not_endswith_sep x a :
  entry_name a -> Text.endswith (x ++ a) [Path.sep] = false.
Proof.
  intros [N S]. destruct (Text.endswith (x ++ a) [Path.sep]) eqn:E; auto.
  apply endswith_app in E. destruct E as [r E].
  exfalso. apply S.
  destruct (exists_last N) as (a' & z & ->).
  rewrite app_assoc in E. apply app_inj_tail in E. destruct E as [_ ->].
  apply in_or_app. right; left; reflexivity.
Qed.

(** A file name joined to a category path. *)
Lemma join_category a n :
  entry_name a -> ~ In Path.sep n ->
  Path.join (Path.join photos_dir a) n
  = txt "photos/" ++ a ++ Path.sep :: n.
Proof.
  intros Ha Hn. rewrite join_photos by apply Ha.
  unfold Path.join. rewrite (no_sep_startswith n Hn).
  rewrite not_endswith_sep by exact Ha.
  replace (Text.eqb (txt "photos/" ++ a) []) with false by reflexivity.
  cbn [orb]. rewrite <- app_assoc. reflexivity.
Qed.

(** No path is an image file of two categories. *)
Lemma categories_disjoint a b p :
  entry_name a -> entry_name b -> a <> b ->
  is_image_path (Path.join photos_dir a) p = true ->
  is_image_path (Path.join photos_dir b) p = false.
Proof.
  intros Ha Hb N Pa.
  destruct (is_image_path (Path.join photos_dir b) p) eqn:Pb; auto.
  exfalso. apply N. unfold is_image_path in Pa, Pb.
  apply andb_true_iff in Pa, Pb. destruct Pa as [Pa _], Pb as [Pb _].
  apply andb_true_iff in Pa, Pb. destruct Pa as [_ Pa], Pb as [_ Pb].
  apply eqb_eq in Pa, Pb.
  rewrite join_category in Pa, Pb by (auto; apply basename_no_sep).
  rewrite <- Pb in Pa at 2. apply app_inv_head in Pa.
  apply app_inv_tail in Pa. exact Pa.
Qed.

(** *** Renames and the image files of another directory *)

Lemma filter_paths_rekey (Q : text -> bool) src dst fs :
  Q src = false -> Q dst = false ->
  filter Q (FS.paths (FS.rekey src dst fs)) = filter Q (FS.paths fs).
Proof.
  intros Hs Hd. rewrite paths_rekey.
  induction (FS.paths fs) as [|x l IH]; [reflexivity|].
  cbn [map filter]. rewrite IH.
  destruct (Text.eqb x src) eqn:E; [|reflexivity].
  apply eqb_eq in E; subst x. rewrite Hs, Hd. reflexivity.
Qed.

Lemma filter_paths_remove (Q : text -> bool) dst fs :
  Q dst = false ->
  filter Q (FS.paths (FS.remove dst fs)) = filter Q (FS.paths fs).
Proof.
  intros Hd. unfold FS.paths, FS.remove.
  induction fs as [|[x f] fs IH]; [reflexivity|].
  cbn [filter map fst]. destruct (Text.eqb x dst) eqn:E; cbn [negb].
  - apply eqb_eq in E; subst x. rewrite Hd. exact IH.
  - cbn [map filter fst]. rewrite IH. reflexivity.
Qed.

Lemma filter_paths_rename (Q : text -> bool) os fs src dst fs' :
  FS.rename os fs src dst = Ok fs' -> Q src = false -> Q dst = false ->
  filter Q (FS.paths fs') = filter Q (FS.paths fs).
Proof.
  unfold FS.rename. intros E Hs Hd.
  destruct (FS.lookup src fs); [|discriminate].
  destruct (Text.eqb src dst); [injection E as <-; reflexivity|].
  destruct (FS.exists_ dst fs).
  - destruct os; [|discriminate]. injection E as <-.
    rewrite filter_paths_rekey, filter_paths_remove; auto.
  - injection E as <-. apply filter_paths_rekey; auto.
Qed.

Lemma filter_paths_loop (Q : text -> bool) os cd items :
  forall c st,
    (forall t q, In (t, q) items ->
                 Q q = false
                 /\ forall k, Q (Path.join cd (new_filename t k q)) = false) ->
    filter Q (FS.paths (st_fs (fst (rename_loop os cd st c items))))
    = filter Q (FS.paths (st_fs st)).
Proof.
  induction items as [|[t q] items IH]; intros c st H; [reflexivity|].
  rewrite rename_loop_cons. rewrite IH.
  - destruct (H t q (or_introl eq_refl)) as (Hq & Hd).
    unfold rename_step.
    destruct (FS.rename os (st_fs st) q _) as [fs'|e] eqn:E;
      [|reflexivity].
    cbn [st_fs]. eapply filter_paths_rename; eauto.
  - intros t' q' I. apply (H t' q' (or_intror I)).
Qed.

(** A run in one category leaves the image files of the others where
    they are. *)
Lemma other_category_images strptime os now a b fs :
  entry_name a -> entry_name b -> a <> b ->
  image_files (Path.join photos_dir b)
              (st_fs (final_state strptime os now
                        (Path.join photos_dir a) fs))
  = image_files (Path.join photos_dir b) fs.
Proof.
  intros Ha Hb N. rewrite !RerunFacts.image_files_filter.
  unfold final_state, start_state. rewrite filter_paths_loop; [reflexivity|].
  intros t q I.
  pose proof (sorted_files_dated strptime now (Path.join photos_dir a) fs)
    as D.
  rewrite Forall_forall in D. destruct (D _ I) as [_ Iq]. cbn [snd] in Iq.
  assert (forall k,
             is_image_path (Path.join photos_dir b)
               (Path.join (Path.join photos_dir a) (new_filename t k q))
             = false) as Hk.
  { intros k. apply (categories_disjoint a b); auto.
    apply RerunFacts.is_image_path_new.
    apply (ImageFacts.image_file_ext (Path.join photos_dir a) fs), Iq. }
  split; auto.
  apply (categories_disjoint a b); auto.
  rewrite RerunFacts.image_files_filter in Iq.
  apply filter_In in Iq. apply Iq.
Qed.

End CategoryFacts.

Section MainFacts.
Import CategoryFacts.

Variable strptime : text -> option datetime.
Variable os : platform.
Variable now : datetime.

Lemma categories_loop_cons ms c cats :
  categories_loop strptime os now ms (c :: cats)
  = categories_loop strptime os now
      {| m_fs := st_fs (final_state strptime os now
                          (Path.join photos_dir c) (m_fs ms));
         m_out := m_out ms
                  ++ [CategoryLines
                        (st_out (final_state strptime os now
                                   (Path.join photos_dir c) (m_fs ms))
                         ++ [BlankLine])];
         m_total := m_total ms
                    + N.of_nat (length (image_files
                                          (Path.join photos_dir c)
                                          (m_fs ms))) |}
      cats.
Proof.
  cbn [categories_loop]. rewrite process_category_ok. unfold bind.
  cbn [fst snd st_fs st_out]. rewrite sorted_files_length. reflexivity.
Qed.

Lemma categories_loop_ok cats :
  forall ms, exists ms', categories_loop strptime os now ms cats = Ok ms'.
Proof.
  induction cats as [|c cats IH]; intros ms; [eexists; reflexivity|].
  rewrite categories_loop_cons. apply IH.
Qed.

Lemma categories_loop_total cats :
  forall ms ms',
    (forall c, In c cats -> entry_name c) -> NoDup cats ->
    categories_loop strptime os now ms cats = Ok ms' ->
    m_total ms'
    = m_total ms
      + fold_right N.add 0
          (map (fun c => N.of_nat (length (image_files
                                             (Path.join photos_dir c)
                                             (m_fs ms)))) cats).
Proof.
  induction cats as [|c cats IH]; intros ms ms' Names D E.
  - injection E as <-. simpl. lia.
  - rewrite categories_loop_cons in E.
    inversion D as [|? ? Hc D']; subst.
    apply IH in E; auto; [|intros x I; apply Names; right; exact I].
    rewrite E. cbn [m_total m_fs map fold_right].
    rewrite (map_ext_in
               (fun x => N.of_nat (length (image_files
                                             (Path.join photos_dir x)
                                             (st_fs (final_state strptime os
                                                       now
                                                       (Path.join photos_dir c)
                                                       (m_fs ms))))))
               (fun x => N.of_nat (length (image_files
                                             (Path.join photos_dir x)
                                             (m_fs ms))))).
    + lia.
    + intros x I. rewrite other_category_images; auto.
      * apply Names; left; reflexivity.
      * apply Names; right; exact I.
      * intros ->. contradiction.
Qed.

Lemma categories_loop_other cats p :
  forall ms ms',
    (forall c, In c cats ->
               is_image_path (Path.join photos_dir c) p = false) ->
    categories_loop strptime os now ms cats = Ok ms' ->
    FS.lookup p (m_fs ms') = FS.lookup p (m_fs ms).
Proof.
  induction cats as [|c cats IH]; intros ms ms' H E.
  - injection E as <-. reflexivity.
  - rewrite categories_loop_cons in E.
    apply IH in E; [|intros x I; apply H; right; exact I].
    rewrite E. cbn [m_fs]. apply final_state_other.
    apply H; left; reflexivity.
Qed.

Lemma final_state_out cd fs :
  exists lines,
    st_out (final_state strptime os now cd fs)
    = Processing (Path.basename cd) :: lines.
Proof.
  unfold final_state.
  destruct (OutputFacts.rename_loop_out os cd
              (sorted_files strptime now cd fs) 1
              (start_state strptime cd fs)) as (lines & E & _).
  eexists. rewrite E. reflexivity.
Qed.

Lemma categories_loop_out cats :
  forall ms ms',
    (forall c, In c cats -> entry_name c) ->
    categories_loop strptime os now ms cats = Ok ms' ->
    exists blocks,
      m_out ms' = m_out ms ++ map CategoryLines blocks
      /\ Forall2 (fun block c => exists rest, block = Processing c :: rest)
                 blocks cats.
Proof.
  induction cats as [|c cats IH]; intros ms ms' Names E.
  - injection E as <-. exists []. split; [|constructor].
    simpl. rewrite app_nil_r. reflexivity.
  - rewrite categories_loop_cons in E.
    apply IH in E; [|intros x I; apply Names; right; exact I].
    destruct E as (blocks & E & F). cbn [m_out] in E.
    destruct (final_state_out (Path.join photos_dir c) (m_fs ms))
      as (lines & L).
    eexists (_ :: blocks). split.
    + rewrite E, <- app_assoc. reflexivity.
    + constructor; [|exact F]. rewrite L.
      rewrite PathFacts.basename_join by apply Names, in_eq.
      eexists. reflexivity.
Qed.

Lemma main_with_photos dk :
  Disk.isdir dk photos_dir = true ->
  main strptime os now dk
  = (ms <- categories_loop strptime os now
             {| m_fs := d_files dk; m_out := [Banner]; m_total := 0 |}
             (categories dk) ;;
     Ok (Returned {| m_fs := m_fs ms;
                     m_out := m_out ms ++ [Complete (m_total ms)];
                     m_total := m_total ms |})).
Proof. intros D. unfold main. rewrite D. reflexivity. Qed.

End MainFacts.

(** X10. When [photos] is a directory, [main] returns, and the total it
    prints is the number of image files that stood directly inside the
    category directories when it started: a run in one category changes
    nothing in the others. (The category names are distinct.) *)
Theorem main_counts_every_category :
  forall (strptime : text -> option datetime) (os : platform)
         (now : datetime) (dk : disk),
    Disk.isdir dk photos_dir = true ->
    NoDup (categories dk) ->
    exists ms,
      main strptime os now dk = Ok (Returned ms)
      /\ m_total ms
         = fold_right N.add 0 (map (category_size dk) (categories dk)).
Proof.
  intros strptime os now dk D N. rewrite main_with_photos by exact D.
  destruct (categories_loop_ok strptime os now (categories dk)
              {| m_fs := d_files dk; m_out := [Banner]; m_total := 0 |})
    as [ms E].
  rewrite E. cbn [bind]. eexists. split; [reflexivity|]. cbn [m_total].
  rewrite (categories_loop_total strptime os now (categories dk) _ ms
             (CategoryFacts.categories_names dk) N E).
  reflexivity.
Qed.

Lemma main_counts_every_category_witness :
  exists ms,
    main Exif.strptime Posix new_year small_site = Ok (Returned ms)
    /\ m_total ms = 3.
Proof.
  apply (main_counts_every_category Exif.strptime Posix new_year small_site).
  - reflexivity.
  - vm_compute.
    repeat (constructor;
            [intros I; simpl in I;
             repeat (destruct I as [I|I]; [discriminate I|]); exact I|]).
    constructor.
Defined.

(** X11. When no entry of a category named like an image is a
    sub-directory, [main] touches nothing but the image files that stand
    directly inside a category directory: every other path (a file beside
    the categories, a file in a sub-directory of a category, a file that
    is no image) leads to the same file when [main] returns. *)
Theorem main_touches_category_images_only :
  forall (strptime : text -> option datetime) (os : platform)
         (now : datetime) (dk : disk),
    Disk.isdir dk photos_dir = true ->
    (forall c, In c (categories dk) ->
               image_entries_are_files
                 (Path.join photos_dir c)
                 (d_dirs dk ++ directories (d_files dk)) = true) ->
    exists ms,
      main strptime os now dk = Ok (Returned ms)
      /\ forall p,
           (forall c, In c (categories dk) ->
                      is_image_path (Path.join photos_dir c) p = false) ->
           FS.lookup p (m_fs ms) = FS.lookup p (d_files dk).
Proof.
  intros strptime os now dk D _. rewrite main_with_photos by exact D.
  destruct (categories_loop_ok strptime os now (categories dk)
              {| m_fs := d_files dk; m_out := [Banner]; m_total := 0 |})
    as [ms E].
  rewrite E. cbn [bind]. eexists. split; [reflexivity|]. cbn [m_fs].
  intros p H. apply (categories_loop_other strptime os now _ p _ _ H) in E.
  exact E.
Qed.

Lemma main_touches_category_images_only_witness :
  exists ms,
    main Exif.strptime Posix new_year small_site = Ok (Returned ms)
    /\ FS.lookup (txt "photos/readme.jpg") (m_fs ms)
       = Some (plain_file (at_ 2024 1 1 7 0 0) 9)
    /\ FS.lookup (txt "photos/travel/raw/d.jpg") (m_fs ms)
       = Some (plain_file (at_ 2024 1 3 8 0 0) 5).
Proof.
  assert (forall c, In c (categories small_site) ->
                    image_entries_are_files
                      (Path.join photos_dir c)
                      (d_dirs small_site ++ directories (d_files small_site))
                    = true) as Dirs.
  { intros c I. vm_compute in I.
    repeat (destruct I as [<-|I]; [reflexivity|]). destruct I. }
  destruct (main_touches_category_images_only
              Exif.strptime Posix new_year small_site eq_refl Dirs)
    as (ms & E & H).
  exists ms. split; [exact E|]. split.
  - rewrite (H (txt "photos/readme.jpg")); [reflexivity|].
    intros c I. vm_compute in I.
    repeat (destruct I as [<-|I]; [reflexivity|]). destruct I.
  - rewrite (H (txt "photos/travel/raw/d.jpg")); [reflexivity|].
    intros c I. vm_compute in I.
    repeat (destruct I as [<-|I]; [reflexivity|]). destruct I.
Defined.

(** X12. [main] walks the sub-directories of [photos], each once, in
    ascending order of their names: between its opening and closing lines
    stand the outputs of the calls of [process_category], one for every
    category in that order, each opening with the name of its
    category. *)
Theorem main_walks_categories_in_order :
  forall (strptime : text -> option datetime) (os : platform)
         (now : datetime) (dk : disk),
    Disk.isdir dk photos_dir = true ->
    exists ms blocks,
      main strptime os now dk = Ok (Returned ms)
      /\ m_out ms
         = Banner :: map CategoryLines blocks ++ [Complete (m_total ms)]
      /\ Forall2 (fun block c => exists rest, block = Processing c :: rest)
                 blocks (categories dk)
      /\ StronglySorted text_le (categories dk)
      /\ Permutation
           (filter (fun d => Disk.isdir dk (Path.join photos_dir d))
                   (Disk.listdir photos_dir dk))
           (categories dk).
Proof.
  intros strptime os now dk D. rewrite main_with_photos by exact D.
  destruct (categories_loop_ok strptime os now (categories dk)
              {| m_fs := d_files dk; m_out := [Banner]; m_total := 0 |})
    as [ms E].
  rewrite E. cbn [bind].
  destruct (categories_loop_out strptime os now (categories dk) _ ms
              (CategoryFacts.categories_names dk) E) as (blocks & O & F).
  cbn [m_out] in O.
  eexists _, blocks. split; [reflexivity|]. cbn [m_out m_total].
  split; [rewrite O; reflexivity|]. split; [exact F|]. split.
  - apply TextSortFacts.sort_text_sorted.
  - apply TextSortFacts.sort_text_perm.
Qed.

Lemma main_walks_categories_in_order_witness :
  exists ms blocks,
    main Exif.strptime Posix new_year small_site = Ok (Returned ms)
    /\ m_out ms
       = Banner :: map CategoryLines blocks ++ [Complete (m_total ms)]
    /\ Forall2 (fun block c => exists rest, block = Processing c :: rest)
               blocks [txt "family"; txt "travel"].
Proof.
  destruct (main_walks_categories_in_order
              Exif.strptime Posix new_year small_site eq_refl)
    as (ms & blocks & E & O & F & _).
  exists ms, blocks. repeat split; assumption.
Defined.
